(** * Day planner: recurrence expansion and the event store

    A shallow embedding of the calendar hook ([useCalendar]) of the day
    planner: the recurrence expander [generateRecurringEvents], the store
    operations [addEvent], [updateEvent], [deleteEvent], [moveEvent], the
    conflict query [checkEventConflict] and the persistence effects.

    Modelling conventions.
    - A JavaScript [Date] is its time value: milliseconds since the epoch,
      an integer [Z].  The local time zone is taken to be UTC (the
      specification leaves time zones out; the date field of the form is
      the exception, [formatLocal]).  The [Invalid Date] value is not
      represented: where a statement depends on the dates that an
      expansion computes being dates, it is made among the dates of the
      program ([inDateRange]).
    - A JavaScript [number] that counts something (interval, occurrences,
      weekday index) is an integer [Z]; NaN and fractions are not
      represented, except for the interval at the persistence boundary
      ([Wide]).
    - An optional field ([x?: T]) is an [option].
    - A [while] loop that the source does not bound is run with fuel;
      [None] means that the fuel ran out. *)

From Stdlib Require Import ZArith List Bool String Ascii Lia.
From Stdlib Require Import DecimalString DecimalZ.
Import ListNotations.
Open Scope string_scope.
Open Scope list_scope.
Open Scope Z_scope.

(** ** JavaScript helpers *)

Module JS.

(** Truthiness of an optional string: [undefined] and [""] are falsy. *)
Definition truthy (o : option string) : bool :=
  match o with
  | Some s => negb (s =? "")%string
  | None => false
  end.

(** [a || b] where [a] is an optional string and [b] a string. *)
Definition or_string (a : option string) (b : string) : string :=
  match a with
  | Some s => if (s =? "")%string then b else s
  | None => b
  end.

(** [a || b] where [a] is an optional number: [undefined] and [0] are falsy. *)
Definition or_number (a : option Z) (b : Z) : Z :=
  match a with
  | Some n => if n =? 0 then b else n
  | None => b
  end.

(** Default value of a destructured field ([{ x = d }]): only [undefined]
    takes the default. *)
Definition default {A} (a : option A) (d : A) : A :=
  match a with
  | Some v => v
  | None => d
  end.

(** [s1 <= s2] and [s1 >= s2] on strings: code units compared
    lexicographically. *)
Definition str_le (s1 s2 : string) : bool := String.leb s1 s2.
Definition str_ge (s1 s2 : string) : bool := String.leb s2 s1.

(** [arr.includes(x)] on an array of numbers. *)
Definition includes (arr : list Z) (x : Z) : bool := existsb (Z.eqb x) arr.

(** [n.toString()] for an integer [n]. *)
Definition toString (n : Z) : string := NilZero.string_of_int (Z.to_int n).

End JS.

(** ** Dates *)

Definition Date := Z.

Definition msPerDay : Z := 86400000.

(** Number of the calendar day of a date (days since 1970-01-01) and the
    time of day in milliseconds. *)
Definition dayOf (d : Date) : Z := d / msPerDay.
Definition timeOfDay (d : Date) : Z := d mod msPerDay.

(** The proleptic Gregorian calendar, by 400-year eras that start on
    March 1st: [doe] is the day of the era, [yoe] the year of the era and
    [mp] the month counted from March. *)
Definition yoe_of_doe (doe : Z) : Z :=
  (doe - doe / 1460 + doe / 36524 - doe / 146096) / 365.

Definition doy_of_doe (doe : Z) : Z :=
  let yoe := yoe_of_doe doe in
  doe - (365 * yoe + yoe / 4 - yoe / 100).

Definition mp_of_doy (doy : Z) : Z := (5 * doy + 2) / 153.

Definition doy_of_mp (mp : Z) : Z := (153 * mp + 2) / 5.

Definition civil_from_days (z : Z) : Z * Z * Z :=
  let z' := z + 719468 in
  let era := z' / 146097 in
  let doe := z' mod 146097 in
  let yoe := yoe_of_doe doe in
  let doy := doy_of_doe doe in
  let mp := mp_of_doy doy in
  let d := doy - doy_of_mp mp + 1 in
  let m := if mp <? 10 then mp + 3 else mp - 9 in
  let y := yoe + era * 400 in
  (if m <=? 2 then y + 1 else y, m, d).

Definition days_from_civil (y m d : Z) : Z :=
  let y' := if m <=? 2 then y - 1 else y in
  let era := y' / 400 in
  let yoe := y' mod 400 in
  let mp := if m <=? 2 then m + 9 else m - 3 in
  let doe := yoe * 365 + yoe / 4 - yoe / 100 + doy_of_mp mp + d - 1 in
  era * 146097 + doe - 719468.

(** [Date.getDay]: 0 is Sunday; 1970-01-01 was a Thursday. *)
Definition getDay (d : Date) : Z := (dayOf d + 4) mod 7.

(** *** date-fns *)

Definition addDays (d : Date) (amount : Z) : Date := d + amount * msPerDay.

Definition addWeeks (d : Date) (amount : Z) : Date := addDays d (amount * 7).

(** Number of days of month [m] (1..12) of year [y]. *)
Definition daysInMonth (y m : Z) : Z :=
  let y' := if m =? 12 then y + 1 else y in
  let m' := if m =? 12 then 1 else m + 1 in
  days_from_civil y' m' 1 - days_from_civil y m 1.

(** [addMonths]: same time of day, [amount] months later, the day of the
    month clamped to the length of the target month. *)
Definition addMonths (d : Date) (amount : Z) : Date :=
  if amount =? 0 then d
  else
    let '(y, m, dayOfMonth) := civil_from_days (dayOf d) in
    let months := y * 12 + (m - 1) + amount in
    let y' := months / 12 in
    let m' := months mod 12 + 1 in
    let dim := daysInMonth y' m' in
    let d' := if dayOfMonth >=? dim then dim else dayOfMonth in
    days_from_civil y' m' d' * msPerDay + timeOfDay d.

Definition isBefore (a b : Date) : bool := a <? b.
Definition isAfter (a b : Date) : bool := a >? b.
Definition isSameDay (a b : Date) : bool := dayOf a =? dayOf b.

(** Decimal digits, fixed width: [digits n v rest] puts the [n] low digits
    of [v] in front of [rest]. *)
Definition digit_char (d : Z) : ascii := ascii_of_nat (48 + Z.to_nat d).

Fixpoint digits (n : nat) (v : Z) (rest : string) : string :=
  match n with
  | O => rest
  | S n' => digits n' (v / 10) (String (digit_char (v mod 10)) rest)
  end.

(** [format(d, 'yyyy-MM-dd')], for the years 0001 to 9999 ([formatRange]),
    whose year is written with four digits. *)
Definition format_yyyy_MM_dd (d : Date) : string :=
  let '(y, m, dd) := civil_from_days (dayOf d) in
  digits 4 y (String "-" (digits 2 m (String "-" (digits 2 dd "")))).

(** ** Data model *)

Inductive RecurrenceType := none | daily | weekly | monthly | custom.

Record RecurrencePattern := mkRecurrence {
  type : RecurrenceType;
  interval : option Z;
  daysOfWeek : option (list Z);
  endDate : option Date;
  occurrences : option Z
}.

Record CalendarEvent := mkEvent {
  id : string;
  title : string;
  description : option string;
  date : Date;
  time : string;
  endTime : option string;
  color : string;
  category : option string;
  recurrence : option RecurrencePattern;
  originalDate : option Date;
  isRecurring : option bool
}.

Inductive View := month | week | day.

Record CalendarState := mkState {
  events : list CalendarEvent;
  currentDate : Date;
  selectedDate : option Date;
  view : View;
  isEventFormOpen : bool;
  editingEvent : option CalendarEvent;
  searchQuery : string;
  selectedCategory : option string
}.

(** [Partial<CalendarEvent>]: a key that is absent is [None]; an optional
    field's key can be present and hold [undefined] ([Some None]). *)
Module Partial.
Record t := mk {
  id : option string;
  title : option string;
  description : option (option string);
  date : option Date;
  time : option string;
  endTime : option (option string);
  color : option string;
  category : option (option string);
  recurrence : option (option RecurrencePattern);
  originalDate : option (option Date);
  isRecurring : option (option bool)
}.
End Partial.

(** ** Recurrence expansion *)

(** The occurrence pushed by one turn of the loop: the seed's fields, with
    its own identity and date. *)
Definition recurringEvent (event : CalendarEvent) (nextDate : Date) : CalendarEvent :=
  {| id := (id event ++ "-" ++ format_yyyy_MM_dd nextDate)%string;
     title := title event;
     description := description event;
     date := nextDate;
     time := time event;
     endTime := endTime event;
     color := color event;
     category := category event;
     recurrence := recurrence event;
     originalDate := Some (date event);
     isRecurring := Some true |}.

(** The inner loop of the weekly branch:
    [while (!daysOfWeek.includes(nextDate.getDay())) nextDate = addDays(nextDate, 1)]. *)
Fixpoint nextOnDays (fuel : nat) (days : list Z) (nextDate : Date) : option Date :=
  match fuel with
  | O => None
  | S fuel' =>
      if JS.includes days (getDay nextDate) then Some nextDate
      else nextOnDays fuel' days (addDays nextDate 1)
  end.

(** What the [switch] does: it sets [nextDate], or returns from the function
    ([default]), or its inner loop runs out of fuel. *)
Inductive Step := StepDate (nextDate : Date) | StepReturn | StepFuel.

Definition nextDateOf (fuel : nat) (ty : RecurrenceType) (interval : Z)
    (daysOfWeek : option (list Z)) (currentDate : Date) : Step :=
  match ty with
  | daily => StepDate (addDays currentDate interval)
  | weekly =>
      match daysOfWeek with
      | Some ((_ :: _) as days) =>
          match nextOnDays fuel days (addDays currentDate 1) with
          | Some nextDate => StepDate nextDate
          | None => StepFuel
          end
      | _ => StepDate (addWeeks currentDate interval)
      end
  | monthly => StepDate (addMonths currentDate interval)
  | custom => StepDate (addDays currentDate interval)
  | none => StepReturn
  end.

(** The [while (count < maxOccurrences && isBefore(currentDate, maxEndDate))]
    loop, on its variables [events], [currentDate] and [count]. *)
Fixpoint expandLoop (fuel : nat) (event : CalendarEvent) (ty : RecurrenceType)
    (interval : Z) (daysOfWeek : option (list Z)) (maxOccurrences : Z)
    (maxEndDate : Date) (events : list CalendarEvent) (currentDate : Date)
    (count : Z) : option (list CalendarEvent) :=
  match fuel with
  | O => None
  | S fuel' =>
      if (count <? maxOccurrences) && isBefore currentDate maxEndDate then
        match nextDateOf fuel' ty interval daysOfWeek currentDate with
        | StepReturn => Some events
        | StepFuel => None
        | StepDate nextDate =>
            if isAfter nextDate maxEndDate then Some events
            else expandLoop fuel' event ty interval daysOfWeek maxOccurrences
                   maxEndDate (events ++ [recurringEvent event nextDate])
                   nextDate (count + 1)
        end
      else Some events
  end.

(** [const maxOccurrences = occurrences || 365]. *)
Definition maxOccurrencesOf (r : RecurrencePattern) : Z :=
  JS.or_number (occurrences r) 365.

(** [const maxEndDate = endDate || addMonths(new Date(), 12)]; [now] is the
    value of [new Date()]. *)
Definition maxEndDateOf (now : Date) (r : RecurrencePattern) : Date :=
  match endDate r with
  | Some d => d
  | None => addMonths now 12
  end.

Definition generateRecurringEvents (fuel : nat) (now : Date)
    (event : CalendarEvent) : option (list CalendarEvent) :=
  match recurrence event with
  | None => Some [event]
  | Some r =>
      match type r with
      | none => Some [event]
      | ty =>
          expandLoop fuel event ty (JS.default (interval r) 1) (daysOfWeek r)
            (maxOccurrencesOf r) (maxEndDateOf now r) [event] (date event) 1
      end
  end.

(** ** The event store *)

Definition set_id (e : CalendarEvent) (i : string) : CalendarEvent :=
  {| id := i; title := title e; description := description e; date := date e;
     time := time e; endTime := endTime e; color := color e;
     category := category e; recurrence := recurrence e;
     originalDate := originalDate e; isRecurring := isRecurring e |}.

Definition set_date (e : CalendarEvent) (d : Date) : CalendarEvent :=
  {| id := id e; title := title e; description := description e; date := d;
     time := time e; endTime := endTime e; color := color e;
     category := category e; recurrence := recurrence e;
     originalDate := originalDate e; isRecurring := isRecurring e |}.

(** [{ ...event, ...eventData }]. *)
Definition merge (e : CalendarEvent) (p : Partial.t) : CalendarEvent :=
  {| id := JS.default (Partial.id p) (id e);
     title := JS.default (Partial.title p) (title e);
     description := JS.default (Partial.description p) (description e);
     date := JS.default (Partial.date p) (date e);
     time := JS.default (Partial.time p) (time e);
     endTime := JS.default (Partial.endTime p) (endTime e);
     color := JS.default (Partial.color p) (color e);
     category := JS.default (Partial.category p) (category e);
     recurrence := JS.default (Partial.recurrence p) (recurrence e);
     originalDate := JS.default (Partial.originalDate p) (originalDate e);
     isRecurring := JS.default (Partial.isRecurring p) (isRecurring e) |}.

Definition with_events (st : CalendarState) (evs : list CalendarEvent) : CalendarState :=
  {| events := evs; currentDate := currentDate st;
     selectedDate := selectedDate st; view := view st;
     isEventFormOpen := isEventFormOpen st; editingEvent := editingEvent st;
     searchQuery := searchQuery st; selectedCategory := selectedCategory st |}.

(** [{ ...prev, events: evs, isEventFormOpen: false, editingEvent: null }]. *)
Definition with_events_closed (st : CalendarState) (evs : list CalendarEvent) : CalendarState :=
  {| events := evs; currentDate := currentDate st;
     selectedDate := selectedDate st; view := view st;
     isEventFormOpen := false; editingEvent := None;
     searchQuery := searchQuery st; selectedCategory := selectedCategory st |}.

(** [addEvent]: [eventData] is an event whose [id] is not read
    ([Omit<CalendarEvent, 'id'>]); [stamp] is the value of [Date.now()] and
    [now] that of the [new Date()] of the expansion. *)
Definition addEvent (fuel : nat) (stamp : Z) (now : Date)
    (eventData : CalendarEvent) (st : CalendarState) : option CalendarState :=
  let newEvent := set_id eventData (JS.toString stamp) in
  match generateRecurringEvents fuel now newEvent with
  | Some eventsToAdd => Some (with_events_closed st (events st ++ eventsToAdd))
  | None => None
  end.

Definition updateEvent (eventId : string) (eventData : Partial.t)
    (st : CalendarState) : CalendarState :=
  with_events_closed st
    (map (fun event => if (id event =? eventId)%string then merge event eventData else event)
         (events st)).

Definition deleteEvent (eventId : string) (st : CalendarState) : CalendarState :=
  with_events_closed st
    (filter (fun event => negb (id event =? eventId)%string) (events st)).

Definition moveEvent (eventId : string) (newDate : Date)
    (st : CalendarState) : CalendarState :=
  with_events st
    (map (fun event => if (id event =? eventId)%string then set_date event newDate else event)
         (events st)).

Definition checkEventConflict (st : CalendarState) (newEvent : CalendarEvent)
    (excludeId : option string) : list CalendarEvent :=
  filter
    (fun event =>
       if JS.truthy excludeId && (id event =? JS.default excludeId "")%string then false
       else if negb (isSameDay (date event) (date newEvent)) then false
       else
         let eventStart := time event in
         let eventEnd := JS.or_string (endTime event) (time event) in
         let newStart := time newEvent in
         let newEnd := JS.or_string (endTime newEvent) (time newEvent) in
         JS.str_le eventStart newEnd && JS.str_ge eventEnd newStart)
    (events st).

(** ** Persistence *)

(** [Date.prototype.toISOString], which [JSON.stringify] calls on a date:
    four digits for the years 0 to 9999, a sign and six digits otherwise. *)
Definition year_string (y : Z) (rest : string) : string :=
  if (0 <=? y) && (y <=? 9999) then digits 4 y rest
  else if y <? 0 then String "-" (digits 6 (- y) rest)
  else String "+" (digits 6 y rest).

Definition toISOString (d : Date) : string :=
  let '(y, m, dd) := civil_from_days (dayOf d) in
  let t := timeOfDay d in
  let millis := String "." (digits 3 (t mod 1000) "Z") in
  let seconds := String ":" (digits 2 (t / 1000 mod 60) millis) in
  let minutes := String ":" (digits 2 (t / 60000 mod 60) seconds) in
  let hours := String "T" (digits 2 (t / 3600000) minutes) in
  year_string y (String "-" (digits 2 m (String "-" (digits 2 dd hours)))).

(** Reading decimal digits and fixed characters from the front of a
    string. *)
Definition digit_val (c : ascii) : option Z :=
  let n := Z.of_nat (nat_of_ascii c) in
  if (48 <=? n) && (n <=? 57) then Some (n - 48) else None.

Fixpoint take_digits (n : nat) (acc : Z) (s : string) : option (Z * string) :=
  match n with
  | O => Some (acc, s)
  | S n' =>
      match s with
      | String c s' =>
          match digit_val c with
          | Some v => take_digits n' (10 * acc + v) s'
          | None => None
          end
      | EmptyString => None
      end
  end.

Definition expect (c : ascii) (s : string) : option string :=
  match s with
  | String c' s' => if Ascii.eqb c c' then Some s' else None
  | EmptyString => None
  end.

Definition take_year (s : string) : option (Z * string) :=
  match s with
  | String c s' =>
      if Ascii.eqb c "+" then take_digits 6 0 s'
      else if Ascii.eqb c "-" then
        match take_digits 6 0 s' with
        | Some (y, r) => Some (- y, r)
        | None => None
        end
      else take_digits 4 0 s
  | EmptyString => None
  end.

Notation "x <- c1 ;; c2" :=
  (match c1 with Some x => c2 | None => None end)
  (at level 61, c1 at next level, right associativity).
Notation "' pat <- c1 ;; c2" :=
  (match c1 with Some pat => c2 | None => None end)
  (at level 61, pat pattern, c1 at next level, right associativity).

(** [new Date(s)] for a string [s], on the date-time form that
    [toISOString] writes.  [None] stands for another string, whose reading
    is outside the model. *)
Definition parseDate (s : string) : option Date :=
  '(y, s) <- take_year s ;;
  s <- expect "-" s ;;
  '(m, s) <- take_digits 2 0 s ;;
  s <- expect "-" s ;;
  '(d, s) <- take_digits 2 0 s ;;
  s <- expect "T" s ;;
  '(h, s) <- take_digits 2 0 s ;;
  s <- expect ":" s ;;
  '(mi, s) <- take_digits 2 0 s ;;
  s <- expect ":" s ;;
  '(sec, s) <- take_digits 2 0 s ;;
  s <- expect "." s ;;
  '(ms, s) <- take_digits 3 0 s ;;
  s <- expect "Z" s ;;
  if (s =? "")%string && (1 <=? m) && (m <=? 12) && (1 <=? d) && (d <=? 31)
     && (h <? 24) && (mi <? 60) && (sec <? 60)
  then Some (days_from_civil y m d * msPerDay
             + ((h * 60 + mi) * 60 + sec) * 1000 + ms)
  else None.

(** The events of the program as the persistence effects meet them.  The
    interval of a rule is any number of the program there: an integer,
    [NaN] (what [parseInt] gives the form for an empty field, and an edit
    stores) or [null] (what a load leaves where [null] was stored).  The
    other fields are those of the data model. *)
Module Wide.
Inductive number := Num (n : Z) | NaN | Null.
Record pattern := mkPattern {
  type : RecurrenceType;
  interval : option number;
  daysOfWeek : option (list Z);
  endDate : option Date;
  occurrences : option Z
}.
Record event := mk {
  id : string;
  title : string;
  description : option string;
  date : Date;
  time : string;
  endTime : option string;
  color : string;
  category : option string;
  recurrence : option pattern;
  originalDate : option Date;
  isRecurring : option bool
}.
End Wide.

(** The value that [JSON.parse] reads back from the text written by
    [JSON.stringify]: the same fields, with each date as a string and the
    interval as a number or [null] ([Some None]). *)
Module Stored.
Record pattern := mkPattern {
  type : RecurrenceType;
  interval : option (option Z);
  daysOfWeek : option (list Z);
  endDate : option string;
  occurrences : option Z
}.
Record event := mk {
  id : string;
  title : string;
  description : option string;
  date : string;
  time : string;
  endTime : option string;
  color : string;
  category : option string;
  recurrence : option pattern;
  originalDate : option string;
  isRecurring : option bool
}.
End Stored.


















(** ** Definitions used in the statements *)

(** *** The range of dates *)

(** The time values of ECMAScript dates. *)
Definition validTime (d : Date) : Prop :=
  -8640000000000000 <= d <= 8640000000000000.

(** The dates whose year [format] writes with its four digits: 0001-01-01
    to 9999-12-31. *)
Definition formatRange (d : Date) : Prop :=
  -62135596800000 <= d < 253402300800000.

(** *** Expansion *)

(** The dates that the loop generates, without the events around them. *)
Fixpoint datesLoop (fuel : nat) (ty : RecurrenceType) (interval : Z)
    (daysOfWeek : option (list Z)) (maxOccurrences : Z) (maxEndDate : Date)
    (currentDate : Date) (count : Z) : option (list Date) :=
  match fuel with
  | O => None
  | S fuel' =>
      if (count <? maxOccurrences) && isBefore currentDate maxEndDate then
        match nextDateOf fuel' ty interval daysOfWeek currentDate with
        | StepReturn => Some []
        | StepFuel => None
        | StepDate nextDate =>
            if isAfter nextDate maxEndDate then Some []
            else option_map (cons nextDate)
                   (datesLoop fuel' ty interval daysOfWeek maxOccurrences
                      maxEndDate nextDate (count + 1))
        end
      else Some []
  end.

(** [chain R c l]: each element of [l] is related by [R] to the one before
    it, the first one to [c]. *)
Fixpoint chain (R : Date -> Date -> Prop) (c : Date) (l : list Date) : Prop :=
  match l with
  | [] => True
  | d :: l' => R c d /\ chain R d l'
  end.

(** The data model's weekday sets hold indices 0 to 6. *)
Definition validWeekdays (r : RecurrencePattern) : Prop :=
  match daysOfWeek r with
  | Some days => Forall (fun d => 0 <= d <= 6) days
  | None => True
  end.

(** [n] is the nearest calendar day strictly after [c] whose weekday is
    in [days], at the time of day of [c]. *)
Definition nearestFollowing (days : list Z) (c n : Date) : Prop :=
  exists k, 1 <= k /\ n = addDays c k /\ In (getDay n) days /\
    forall j, 1 <= j < k -> ~ In (getDay (addDays c j)) days.

(** The cap as the specification words it: [rule.maxOccurrences ?? 365]. *)
Definition claimedMaxOccurrences (r : RecurrencePattern) : Z :=
  JS.default (occurrences r) 365.

(** The cap that an expansion works with; an event without a rule has no
    loop and takes the default. *)
Definition effectiveMaxOccurrences (event : CalendarEvent) : Z :=
  match recurrence event with
  | Some r => maxOccurrencesOf r
  | None => 365
  end.

(** Fuel that covers an expansion. *)
Definition fuelFor (event : CalendarEvent) : nat :=
  (Z.to_nat (effectiveMaxOccurrences event) + 8)%nat.

(** The processing time does not reach the expansion of [event]. *)
Definition timeIndependent (event : CalendarEvent) : Prop :=
  match recurrence event with
  | Some r => type r = none \/ endDate r <> None
  | None => True
  end.

Definition set_interval (r : RecurrencePattern) (i : option Z) : RecurrencePattern :=
  {| type := type r; interval := i; daysOfWeek := daysOfWeek r;
     endDate := endDate r; occurrences := occurrences r |}.

Definition set_recurrence (e : CalendarEvent) (r : option RecurrencePattern) : CalendarEvent :=
  {| id := id e; title := title e; description := description e; date := date e;
     time := time e; endTime := endTime e; color := color e;
     category := category e; recurrence := r;
     originalDate := originalDate e; isRecurring := isRecurring e |}.

(** An expansion that stays among the dates of the program, where the
    loop computes as modelled: the rule's interval is not negative, the
    seed date and the end date of the expansion are dates of the years 0001
    to 9999, which [format] writes with four digits, and the end date is
    followed by 31 days for each unit of the interval within the time
    values of dates, so that the date computed past the end date, on which
    the loop stops, is a date too. *)
Definition inDateRange (now : Date) (e : CalendarEvent) : Prop :=
  match recurrence e with
  | Some r =>
      type r = none \/
      (0 <= JS.default (interval r) 1 /\ formatRange (date e) /\
       formatRange (maxEndDateOf now r) /\
       validTime (addDays (maxEndDateOf now r) (31 * JS.default (interval r) 1)))
  | None => True
  end.

(** *** Conflicts *)

(** The lexicographic order on strings, code unit by code unit. *)
Inductive lex_le : string -> string -> Prop :=
| lex_le_empty s : lex_le "" s
| lex_le_less c1 s1 c2 s2 :
    (nat_of_ascii c1 < nat_of_ascii c2)%nat ->
    lex_le (String c1 s1) (String c2 s2)
| lex_le_same c s1 s2 : lex_le s1 s2 -> lex_le (String c s1) (String c s2).

(** The end of an event's interval: its end time, or its start time when
    the end time is missing (absent, or the empty string of a cleared
    field). *)
Definition intervalEnd (e : CalendarEvent) : string :=
  match endTime e with
  | Some s => if string_dec s "" then time e else s
  | None => time e
  end.

(** The conflict of the specification: [existing] is not the excluded
    identity (an empty identity excludes nothing), it falls on the
    candidate's calendar day, and
    [existing.start <= candidate.end] and [existing.end >= candidate.start]. *)
Definition conflictsWith (candidate : CalendarEvent)
    (excludeIdentity : option string) (existing : CalendarEvent) : Prop :=
  (forall x, excludeIdentity = Some x -> x <> "" -> id existing <> x) /\
  dayOf (date existing) = dayOf (date candidate) /\
  lex_le (time existing) (intervalEnd candidate) /\
  lex_le (time candidate) (intervalEnd existing).

(** The test of the filter of [checkEventConflict]. *)
Definition conflictTest (newEvent : CalendarEvent) (excludeId : option string)
    (event : CalendarEvent) : bool :=
  if JS.truthy excludeId && (id event =? JS.default excludeId "")%string then false
  else if negb (isSameDay (date event) (date newEvent)) then false
  else JS.str_le (time event) (JS.or_string (endTime newEvent) (time newEvent))
       && JS.str_ge (JS.or_string (endTime event) (time event)) (time newEvent).

(** *** The calendar and the text of dates *)

(** The first day of the month of index [M], months counted from
    January of the year 0. *)
Definition monthStart (M : Z) : Z := days_from_civil (M / 12) (M mod 12 + 1) 1.




(** *** Identities *)

Fixpoint has_dash (s : string) : bool :=
  match s with
  | EmptyString => false
  | String c s' => Ascii.eqb c "-" || has_dash s'
  end.

(** An expansion that moves on by at least a calendar day at each turn,
    within the dates that [format] writes with a four-digit year: the rule
    has a positive interval, and the seed date and the end date of the
    expansion are in that range. *)
Definition advancing (now : Date) (e : CalendarEvent) : Prop :=
  match recurrence e with
  | Some r =>
      type r = none \/
      (1 <= JS.default (interval r) 1 /\ formatRange (date e) /\
       formatRange (maxEndDateOf now r))
  | None => True
  end.

(** The identities that [addEvent] makes with the stamp [T]: the seed's,
    and the seed's followed by a dash and the ten characters of a date. *)
Definition stampedBy (T : Z) (s : string) : Prop :=
  s = JS.toString T \/
  exists sfx, String.length sfx = 10%nat /\
              s = (JS.toString T ++ "-" ++ sfx)%string.

(** The operations of the store, and a run of them. *)
Inductive Op :=
| Add (stamp : Z) (now : Date) (eventData : CalendarEvent)
| Update (eventId : string) (eventData : Partial.t)
| Delete (eventId : string)
| Move (eventId : string) (newDate : Date).

Definition applyOp (fuel : nat) (op : Op) (st : CalendarState) : option CalendarState :=
  match op with
  | Add stamp now eventData => addEvent fuel stamp now eventData st
  | Update eventId eventData => Some (updateEvent eventId eventData st)
  | Delete eventId => Some (deleteEvent eventId st)
  | Move eventId newDate => Some (moveEvent eventId newDate st)
  end.

Fixpoint runOps (fuel : nat) (ops : list Op) (st : CalendarState) : option CalendarState :=
  match ops with
  | [] => Some st
  | op :: ops' =>
      match applyOp fuel op st with
      | Some st' => runOps fuel ops' st'
      | None => None
      end
  end.

(** The values of [Date.now()] that the additions of a run read. *)
Fixpoint stampsOf (ops : list Op) : list Z :=
  match ops with
  | [] => []
  | Add stamp _ _ :: ops' => stamp :: stampsOf ops'
  | _ :: ops' => stampsOf ops'
  end.

(** An addition reads a clock that is not before the epoch and expands an
    advancing rule; an update carries no [id] field. *)
Definition opOk (op : Op) : Prop :=
  match op with
  | Add stamp now eventData => 0 <= stamp /\ advancing now eventData
  | Update _ eventData => Partial.id eventData = None
  | Delete _ => True
  | Move _ _ => True
  end.

(** The identities of the store are distinct, and each is made with one of
    the stamps [used]. *)
Definition storeInv (used : list Z) (evs : list CalendarEvent) : Prop :=
  NoDup (map id evs) /\
  Forall (fun s => exists T, In T used /\ 0 <= T /\ stampedBy T s) (map id evs).

(** *** Sample data *)

(** 2024-01-10, 2026-11-03 and 2030-01-01, at 00:00. *)
Definition jan10_2024 : Date := 1704844800000.
Definition nov03_2026 : Date := 1793664000000.
Definition jan01_2030 : Date := 1893456000000.

Definition sampleEvent (i : string) (d : Date) (t : string)
    (e : option string) (r : option RecurrencePattern) : CalendarEvent :=
  {| id := i; title := "Standup"; description := None; date := d; time := t;
     endTime := e; color := "#3B82F6"; category := Some "Work";
     recurrence := r; originalDate := None; isRecurring := None |}.

Definition sampleState (evs : list CalendarEvent) : CalendarState :=
  {| events := evs; currentDate := 1793664000000; selectedDate := None;
     view := month; isEventFormOpen := true; editingEvent := None;
     searchQuery := ""; selectedCategory := None |}.

Definition noChange : Partial.t :=
  Partial.mk None None None None None None None None None None None.

Definition dailyRule (i : Z) (e : option Date) (o : option Z) : RecurrencePattern :=
  {| type := daily; interval := Some i; daysOfWeek := Some []; endDate := e;
     occurrences := o |}.

Definition monthlyRule : RecurrencePattern :=
  {| type := monthly; interval := Some 1; daysOfWeek := Some [];
     endDate := None; occurrences := None |}.

Definition weeklyRule (days : list Z) (e : option Date) (o : option Z) : RecurrencePattern :=
  {| type := weekly; interval := Some 1; daysOfWeek := Some days; endDate := e;
     occurrences := o |}.


(** A run of the store: two additions, an update, a removal and a move. *)
Definition sampleOps : list Op :=
  [ Add 1793664000000 nov03_2026
      (sampleEvent "" nov03_2026 "09:00" (Some "10:00")
         (Some (dailyRule 1 (Some (addDays nov03_2026 3)) None)));
    Add 1793664000001 nov03_2026
      (sampleEvent "" (addDays nov03_2026 1) "11:00" None
         (Some (weeklyRule [1; 5] None (Some 3))));
    Update "1793664000000" noChange;
    Delete "1793664000000-2026-11-04";
    Move "1793664000001" (addDays nov03_2026 2) ].


(** ** Queries and view state of the hook *)

(** *** date-fns, continued *)

Definition subMonths (d : Date) (amount : Z) : Date := addMonths d (- amount).

Definition startOfDay (d : Date) : Date := dayOf d * msPerDay.

(** The first millisecond and the last one of the month of [d]. *)
Definition startOfMonth (d : Date) : Date :=
  let '(y, m, _) := civil_from_days (dayOf d) in
  days_from_civil y m 1 * msPerDay.

Definition endOfMonth (d : Date) : Date :=
  let '(y, m, _) := civil_from_days (dayOf d) in
  days_from_civil y m (daysInMonth y m) * msPerDay + (msPerDay - 1).

(** Weeks start on Sunday (the default [weekStartsOn]). *)
Definition startOfWeek (d : Date) : Date := (dayOf d - getDay d) * msPerDay.

Definition endOfWeek (d : Date) : Date :=
  (dayOf d + (6 - getDay d)) * msPerDay + (msPerDay - 1).

Definition isSameMonth (a b : Date) : bool :=
  let '(y1, m1, _) := civil_from_days (dayOf a) in
  let '(y2, m2, _) := civil_from_days (dayOf b) in
  (y1 =? y2) && (m1 =? m2).

(** [n] consecutive days, from [d] on. *)
Fixpoint daysFrom (n : nat) (d : Date) : list Date :=
  match n with
  | O => []
  | S n' => d :: daysFrom n' (addDays d 1)
  end.

(** [eachDayOfInterval({ start, end })] for a [start] that is not after
    [end]: the start of each day from the day of [start] to the day of
    [end]. *)
Definition eachDayOfInterval (start end_ : Date) : list Date :=
  daysFrom (Z.to_nat (dayOf end_ - dayOf start + 1)) (startOfDay start).

(** *** Queries *)

Definition getEventsForDate (st : CalendarState) (d : Date) : list CalendarEvent :=
  filter (fun event => isSameDay (date event) d) (events st).

Definition getEventsForMonth (st : CalendarState) (d : Date) : list CalendarEvent :=
  let start := startOfMonth d in
  let end_ := endOfMonth d in
  filter (fun event => (date event >=? start) && (date event <=? end_)) (events st).

(** *** View state *)

Definition setCurrentDate (d : Date) (st : CalendarState) : CalendarState :=
  {| events := events st; currentDate := d;
     selectedDate := selectedDate st; view := view st;
     isEventFormOpen := isEventFormOpen st; editingEvent := editingEvent st;
     searchQuery := searchQuery st; selectedCategory := selectedCategory st |}.

Definition setSelectedDate (d : option Date) (st : CalendarState) : CalendarState :=
  {| events := events st; currentDate := currentDate st;
     selectedDate := d; view := view st;
     isEventFormOpen := isEventFormOpen st; editingEvent := editingEvent st;
     searchQuery := searchQuery st; selectedCategory := selectedCategory st |}.

(** [openEventForm(event?)]: [editingEvent: event || null]. *)
Definition openEventForm (event : option CalendarEvent) (st : CalendarState) : CalendarState :=
  {| events := events st; currentDate := currentDate st;
     selectedDate := selectedDate st; view := view st;
     isEventFormOpen := true; editingEvent := event;
     searchQuery := searchQuery st; selectedCategory := selectedCategory st |}.

Definition closeEventForm (st : CalendarState) : CalendarState :=
  {| events := events st; currentDate := currentDate st;
     selectedDate := selectedDate st; view := view st;
     isEventFormOpen := false; editingEvent := None;
     searchQuery := searchQuery st; selectedCategory := selectedCategory st |}.

Definition setSearchQuery (query : string) (st : CalendarState) : CalendarState :=
  {| events := events st; currentDate := currentDate st;
     selectedDate := selectedDate st; view := view st;
     isEventFormOpen := isEventFormOpen st; editingEvent := editingEvent st;
     searchQuery := query; selectedCategory := selectedCategory st |}.

Definition setSelectedCategory (c : option string) (st : CalendarState) : CalendarState :=
  {| events := events st; currentDate := currentDate st;
     selectedDate := selectedDate st; view := view st;
     isEventFormOpen := isEventFormOpen st; editingEvent := editingEvent st;
     searchQuery := searchQuery st; selectedCategory := c |}.

(** *** The filtered events *)

(** [s.includes(sub)] on strings: [sub] occurs in [s]. *)
Fixpoint stringIncludes (s sub : string) : bool :=
  String.prefix sub s ||
  match s with
  | String _ s' => stringIncludes s' sub
  | EmptyString => false
  end.

(** [a === b] for an optional string field [a] ([undefined] when absent)
    and a string or [null] [b]. *)
Definition strictEq (a b : option string) : bool :=
  match a, b with
  | Some x, Some y => (x =? y)%string
  | _, _ => false
  end.

Section Filter.

(** [String.prototype.toLowerCase] follows the Unicode case mapping; the
    filter is modelled over any such function. *)
Variable toLowerCase : string -> string.

Definition matchesSearch (st : CalendarState) (event : CalendarEvent) : bool :=
  (searchQuery st =? "")%string
  || stringIncludes (toLowerCase (title event)) (toLowerCase (searchQuery st))
  || match description event with
     | Some d => stringIncludes (toLowerCase d) (toLowerCase (searchQuery st))
     | None => false
     end.

Definition matchesCategory (st : CalendarState) (event : CalendarEvent) : bool :=
  negb (JS.truthy (selectedCategory st))
  || strictEq (category event) (selectedCategory st).

Definition filteredEvents (st : CalendarState) : list CalendarEvent :=
  filter (fun event => matchesSearch st event && matchesCategory st event)
    (events st).

(** [sub] occurs in [s], letter case apart. *)
Definition occursIn (sub s : string) : Prop :=
  exists pre post, toLowerCase s = (pre ++ toLowerCase sub ++ post)%string.

End Filter.

(** The case mapping on the letters A to Z. *)
Definition lowerAscii (c : ascii) : ascii :=
  let n := nat_of_ascii c in
  if (65 <=? n)%nat && (n <=? 90)%nat then ascii_of_nat (n + 32) else c.

Fixpoint lowerCaseAscii (s : string) : string :=
  match s with
  | EmptyString => EmptyString
  | String c s' => String (lowerAscii c) (lowerCaseAscii s')
  end.

(** ** The components *)

(** *** [Calendar] *)

(** The equality of the elements of a [Set], on optional strings. *)
Definition sameValue (x y : option string) : bool :=
  match x, y with
  | Some a, Some b => (a =? b)%string
  | None, None => true
  | _, _ => false
  end.

(** [Array.from(new Set(l))]: the elements of [l] in the order of their
    first occurrence. *)
Definition fromSet (l : list (option string)) : list (option string) :=
  fold_left
    (fun acc x => if existsb (sameValue x) acc then acc else acc ++ [x])
    l [].

(** [Array.from(new Set(events.map(event => event.category).filter(Boolean)))]. *)
Definition categories (evs : list CalendarEvent) : list (option string) :=
  fromSet (filter JS.truthy (map category evs)).

Definition handleDateDoubleClick (d : Date) (st : CalendarState) : CalendarState :=
  openEventForm None (setSelectedDate (Some d) st).

Definition handleEventClick (event : CalendarEvent) (st : CalendarState) : CalendarState :=
  openEventForm (Some event) st.

Definition handleEventDrop (eventId : string) (newDate : Date)
    (st : CalendarState) : CalendarState :=
  moveEvent eventId newDate st.

(** *** [CalendarHeader] *)

Inductive Direction := Prev | Next.

Definition navigateMonth (direction : Direction) (st : CalendarState) : CalendarState :=
  let newDate :=
    match direction with
    | Prev => subMonths (currentDate st) 1
    | Next => addMonths (currentDate st) 1
    end in
  setCurrentDate newDate st.

(** [goToToday]; [now] is the value of [new Date()]. *)
Definition goToToday (now : Date) (st : CalendarState) : CalendarState :=
  setCurrentDate now st.

(** The category filter: [value === 'all' ? null : value]. *)
Definition onCategoryChange (value : string) (st : CalendarState) : CalendarState :=
  setSelectedCategory (if (value =? "all")%string then None else Some value) st.

(** *** [CalendarGrid] *)

(** The days of the grid of the month of [current]. *)
Definition gridDays (current : Date) : list Date :=
  let monthStart := startOfMonth current in
  let monthEnd := endOfMonth current in
  let calendarStart := startOfWeek monthStart in
  let calendarEnd := endOfWeek monthEnd in
  eachDayOfInterval calendarStart calendarEnd.

Definition getEventsForDay (evs : list CalendarEvent) (d : Date) : list CalendarEvent :=
  filter (fun event => isSameDay (date event) d) evs.

Record DragState := mkDrag {
  draggedEvent : option CalendarEvent;
  dragOverDate : option Date
}.

Definition handleDragStart (event : CalendarEvent) (g : DragState) : DragState :=
  {| draggedEvent := Some event; dragOverDate := dragOverDate g |}.

(** [handleDrop]: the drop moves the dragged event through [onEventDrop],
    which is [handleEventDrop]. *)
Definition handleDrop (d : Date) (g : DragState) (st : CalendarState)
    : DragState * CalendarState :=
  match draggedEvent g with
  | Some event =>
      ({| draggedEvent := None; dragOverDate := None |},
       handleEventDrop (id event) d st)
  | None => (g, st)
  end.

(** *** [EventForm] *)

(** The state of the form: every field is present. *)
Module Form.
Record pattern := mkPattern {
  type : RecurrenceType;
  interval : Z;
  daysOfWeek : list Z;
  endDate : option Date;
  occurrences : option Z
}.
Record t := mk {
  title : string;
  description : string;
  date : Date;
  time : string;
  endTime : string;
  color : string;
  category : string;
  recurrence : pattern
}.
End Form.

(** The values of the weekday checkboxes. *)
Definition weekdays : list Z := [0; 1; 2; 3; 4; 5; 6].

(** The form of an event that is edited (the first branch of the effect). *)
Definition formOfEvent (editing : CalendarEvent) : Form.t :=
  {| Form.title := title editing;
     Form.description := JS.or_string (description editing) "";
     Form.date := date editing;
     Form.time := time editing;
     Form.endTime := JS.or_string (endTime editing) "10:00";
     Form.color := color editing;
     Form.category := JS.or_string (category editing) "";
     Form.recurrence :=
       match recurrence editing with
       | Some r =>
           {| Form.type := type r;
              Form.interval := JS.or_number (interval r) 1;
              Form.daysOfWeek := JS.default (daysOfWeek r) [];
              Form.endDate := endDate r;
              Form.occurrences := occurrences r |}
       | None =>
           {| Form.type := none; Form.interval := 1; Form.daysOfWeek := [];
              Form.endDate := None; Form.occurrences := None |}
       end |}.

Definition with_daysOfWeek (formData : Form.t) (l : list Z) : Form.t :=
  {| Form.title := Form.title formData;
     Form.description := Form.description formData;
     Form.date := Form.date formData;
     Form.time := Form.time formData;
     Form.endTime := Form.endTime formData;
     Form.color := Form.color formData;
     Form.category := Form.category formData;
     Form.recurrence :=
       {| Form.type := Form.type (Form.recurrence formData);
          Form.interval := Form.interval (Form.recurrence formData);
          Form.daysOfWeek := l;
          Form.endDate := Form.endDate (Form.recurrence formData);
          Form.occurrences := Form.occurrences (Form.recurrence formData) |} |}.

Definition handleWeekdayToggle (day0 : Z) (checked : bool) (formData : Form.t) : Form.t :=
  with_daysOfWeek formData
    (if checked
     then Form.daysOfWeek (Form.recurrence formData) ++ [day0]
     else filter (fun d => negb (d =? day0))
            (Form.daysOfWeek (Form.recurrence formData))).

(** A run of weekday toggles. *)
Definition toggleAll (toggles : list (Z * bool)) (formData : Form.t) : Form.t :=
  fold_left (fun f t => handleWeekdayToggle (fst t) (snd t) f) toggles formData.

(** The form of a new event on the selected date (the second branch of the
    effect). *)
Definition resetForm (selected : Date) : Form.t :=
  {| Form.title := ""; Form.description := ""; Form.date := selected;
     Form.time := "09:00"; Form.endTime := "10:00"; Form.color := "#3B82F6";
     Form.category := "";
     Form.recurrence :=
       {| Form.type := none; Form.interval := 1; Form.daysOfWeek := [];
          Form.endDate := None; Form.occurrences := None |} |}.

(** The effect on [editingEvent], [selectedDate] and [isOpen]; [prev] is
    the form before it. *)
Definition formEffect (st : CalendarState) (prev : Form.t) : Form.t :=
  match editingEvent st with
  | Some editing => formOfEvent editing
  | None =>
      match selectedDate st with
      | Some selected => resetForm selected
      | None => prev
      end
  end.

(** The title input: [{ ...prev, title: e.target.value }]. *)
Definition with_title (formData : Form.t) (value : string) : Form.t :=
  {| Form.title := value;
     Form.description := Form.description formData;
     Form.date := Form.date formData;
     Form.time := Form.time formData;
     Form.endTime := Form.endTime formData;
     Form.color := Form.color formData;
     Form.category := Form.category formData;
     Form.recurrence := Form.recurrence formData |}.

(** [new Date(s)] for the value [s] of a date input, [yyyy-MM-dd]: the
    start of that day.  [None] stands for another string. *)
Definition parseDateOnly (s : string) : option Date :=
  '(y, s) <- take_digits 4 0 s ;;
  s <- expect "-" s ;;
  '(m, s) <- take_digits 2 0 s ;;
  s <- expect "-" s ;;
  '(d, s) <- take_digits 2 0 s ;;
  if (s =? "")%string && (1 <=? m) && (m <=? 12) && (1 <=? d) && (d <=? 31)
  then Some (days_from_civil y m d * msPerDay)
  else None.

(** The trimming of the space character. *)
Fixpoint trimStart (s : string) : string :=
  match s with
  | String c s' => if Ascii.eqb c " " then trimStart s' else s
  | EmptyString => EmptyString
  end.

Fixpoint trimEnd (s : string) : string :=
  match s with
  | String c s' =>
      let r := trimEnd s' in
      if Ascii.eqb c " " && (r =? "")%string then EmptyString else String c r
  | EmptyString => EmptyString
  end.

Definition trimSpaces (s : string) : string := trimEnd (trimStart s).

(** The date field of the form, in a zone whose local time is [tz]
    milliseconds ahead of UTC (behind it when [tz] is negative): it shows
    [format(formData.date, 'yyyy-MM-dd')], the local day, and on a change
    it takes [new Date(e.target.value)], which reads the text as a day of
    UTC. *)
Definition formatLocal (tz : Z) (d : Date) : string := format_yyyy_MM_dd (d + tz).

Definition with_date (formData : Form.t) (d : Date) : Form.t :=
  {| Form.title := Form.title formData;
     Form.description := Form.description formData;
     Form.date := d;
     Form.time := Form.time formData;
     Form.endTime := Form.endTime formData;
     Form.color := Form.color formData;
     Form.category := Form.category formData;
     Form.recurrence := Form.recurrence formData |}.

Definition dateFieldValue (tz : Z) (formData : Form.t) : string :=
  formatLocal tz (Form.date formData).

Definition dateFieldChange (value : string) (formData : Form.t) : option Form.t :=
  d <- parseDateOnly value ;;
  Some (with_date formData d).

(** What a submission shows. *)
Inductive Toast :=
| TitleRequired
| EventConflict (titles : list string)
| Updated
| Created.

Section Submit.

(** [String.prototype.trim] removes the white space of Unicode at both
    ends; the form is modelled over any such function. *)
Variable trim : string -> string.

(** [formData.recurrence.type === 'none' ? undefined : formData.recurrence]. *)
Definition recurrenceOfForm (formData : Form.t) : option RecurrencePattern :=
  match Form.type (Form.recurrence formData) with
  | none => None
  | _ =>
      Some {| type := Form.type (Form.recurrence formData);
              interval := Some (Form.interval (Form.recurrence formData));
              daysOfWeek := Some (Form.daysOfWeek (Form.recurrence formData));
              endDate := Form.endDate (Form.recurrence formData);
              occurrences := Form.occurrences (Form.recurrence formData) |}
  end.

(** The [eventData] of a submission, as the event that [addEvent] and the
    conflict query read; [i] is its identity there. *)
Definition eventDataOf (formData : Form.t) (i : string) : CalendarEvent :=
  {| id := i;
     title := trim (Form.title formData);
     description := Some (trim (Form.description formData));
     date := Form.date formData;
     time := Form.time formData;
     endTime := Some (Form.endTime formData);
     color := Form.color formData;
     category := Some (Form.category formData);
     recurrence := recurrenceOfForm formData;
     originalDate := None;
     isRecurring := None |}.

(** The same [eventData], as the fields that [updateEvent] spreads. *)
Definition partialOf (formData : Form.t) : Partial.t :=
  {| Partial.id := None;
     Partial.title := Some (trim (Form.title formData));
     Partial.description := Some (Some (trim (Form.description formData)));
     Partial.date := Some (Form.date formData);
     Partial.time := Some (Form.time formData);
     Partial.endTime := Some (Some (Form.endTime formData));
     Partial.color := Some (Form.color formData);
     Partial.category := Some (Some (Form.category formData));
     Partial.recurrence := Some (recurrenceOfForm formData);
     Partial.originalDate := None;
     Partial.isRecurring := None |}.

(** [handleSubmit]: the toast, and the state of the hook afterwards. *)
Definition handleSubmit (fuel : nat) (stamp : Z) (now : Date)
    (formData : Form.t) (st : CalendarState) : option (Toast * CalendarState) :=
  if (trim (Form.title formData) =? "")%string then Some (TitleRequired, st)
  else
    let conflicts :=
      checkEventConflict st (eventDataOf formData "temp")
        (option_map id (editingEvent st)) in
    if (0 <? List.length conflicts)%nat
    then Some (EventConflict (map title conflicts), st)
    else
      match editingEvent st with
      | Some editing =>
          Some (Updated, updateEvent (id editing) (partialOf formData) st)
      | None =>
          match addEvent fuel stamp now (eventDataOf formData "") st with
          | Some st' => Some (Created, st')
          | None => None
          end
      end.

End Submit.

Definition handleDelete (st : CalendarState) : CalendarState :=
  match editingEvent st with
  | Some editing => deleteEvent (id editing) st
  | None => st
  end.

(** ** Definitions used in the statements, continued *)

(** The month of a date (months counted from January of the year 0), its
    day of the month, and the number of days of a month. *)
Definition monthIndex (d : Date) : Z :=
  let '(y, m, _) := civil_from_days (dayOf d) in 12 * y + (m - 1).

Definition dayOfMonth (d : Date) : Z :=
  let '(_, _, dd) := civil_from_days (dayOf d) in dd.

Definition monthLength (M : Z) : Z := daysInMonth (M / 12) (M mod 12 + 1).

(** The rules that advance by a fixed number of days, and that number. *)
Definition fixedStep (r : RecurrencePattern) : option Z :=
  match type r, daysOfWeek r with
  | daily, _ => Some (JS.default (interval r) 1)
  | custom, _ => Some (JS.default (interval r) 1)
  | weekly, None => Some (JS.default (interval r) 1 * 7)
  | weekly, Some [] => Some (JS.default (interval r) 1 * 7)
  | _, _ => None
  end.

(** The dates [c + s], [c + 2 s], ..., [c + n s], in days. *)
Definition stepDates (c : Date) (s : Z) (n : nat) : list Date :=
  map (fun k => addDays c (Z.of_nat k * s)) (seq 1 n).

(** The number of occurrences that a rule of step [s] adds to the seed. *)
Definition stepCount (mo : Z) (me c : Date) (s : Z) : Z :=
  Z.max 0 (Z.min (mo - 1) ((me - c) / (s * msPerDay))).

(** The dates of a list of events are on later and later calendar days. *)
Definition laterDays (evs : list CalendarEvent) : Prop :=
  forall i j a b, (i < j)%nat ->
    nth_error evs i = Some a -> nth_error evs j = Some b ->
    dayOf (date a) < dayOf (date b).

(** *** Sample data, continued *)

Definition sampleForm (t : string) (d : Date) (r : Form.pattern) : Form.t :=
  {| Form.title := t; Form.description := ""; Form.date := d;
     Form.time := "09:00"; Form.endTime := "10:00"; Form.color := "#3B82F6";
     Form.category := "Work"; Form.recurrence := r |}.

Definition noRule : Form.pattern :=
  {| Form.type := none; Form.interval := 1; Form.daysOfWeek := [];
     Form.endDate := None; Form.occurrences := None |}.
(** * Properties *)

Arguments addDays : simpl never.
Arguments addWeeks : simpl never.
Arguments addMonths : simpl never.
Arguments getDay : simpl never.
Arguments dayOf : simpl never.
Arguments timeOfDay : simpl never.
Arguments isBefore : simpl never.
Arguments isAfter : simpl never.
Arguments isSameDay : simpl never.
Arguments format_yyyy_MM_dd : simpl never.
Arguments toISOString : simpl never.
Arguments parseDate : simpl never.
Arguments JS.toString : simpl never.

(** Comparisons of dates that differ by whole days. *)
Ltac by_days := unfold addDays, msPerDay in *; lia.

Example ex_iso : toISOString 1700000000123 = "2023-11-14T22:13:20.123Z". Proof. reflexivity. Qed.
Example ex_iso2 : parseDate "2023-11-14T22:13:20.123Z" = Some 1700000000123. Proof. reflexivity. Qed.
Example ex_iso3 : toISOString (-62167219200001) = "-000001-12-31T23:59:59.999Z". Proof. reflexivity. Qed.
Example ex_iso4 : parseDate (toISOString (-62167219200001)) = Some (-62167219200001). Proof. reflexivity. Qed.
Example ex_iso5 : toISOString 8640000000000000 = "+275760-09-13T00:00:00.000Z". Proof. reflexivity. Qed.
Example ex_iso6 : toISOString (-8640000000000000) = "-271821-04-20T00:00:00.000Z". Proof. reflexivity. Qed.

(** ** Dates and weekdays *)

Lemma dayOf_addDays d k : dayOf (addDays d k) = dayOf d + k.
Proof.
  unfold dayOf, addDays, msPerDay. rewrite Z.div_add by lia. reflexivity.
Qed.

Lemma timeOfDay_addDays d k : timeOfDay (addDays d k) = timeOfDay d.
Proof.
  unfold timeOfDay, addDays, msPerDay. apply Z.mod_add. lia.
Qed.

Lemma addDays_addDays d j k : addDays (addDays d j) k = addDays d (j + k).
Proof. unfold addDays. lia. Qed.

Lemma getDay_range d : 0 <= getDay d <= 6.
Proof. unfold getDay. pose proof (Z.mod_pos_bound (dayOf d + 4) 7). lia. Qed.

Lemma getDay_addDays d k : getDay (addDays d k) = (getDay d + k) mod 7.
Proof.
  unfold getDay. rewrite dayOf_addDays.
  replace (dayOf d + k + 4) with (dayOf d + 4 + k) by lia.
  rewrite Zplus_mod_idemp_l. reflexivity.
Qed.

Lemma includes_In days x : JS.includes days x = true <-> In x days.
Proof.
  unfold JS.includes. rewrite existsb_exists. split.
  - intros [y [Hy E]]. apply Z.eqb_eq in E. now subst.
  - intros H. exists x. split; [assumption | apply Z.eqb_refl].
Qed.

(** ** The inner loop of the weekly branch *)

Lemma nextOnDays_mono fuel : forall fuel' days d n,
  nextOnDays fuel days d = Some n -> (fuel <= fuel')%nat ->
  nextOnDays fuel' days d = Some n.
Proof.
  induction fuel as [|f IH]; intros fuel' days d n H Hle; [discriminate|].
  destruct fuel' as [|f']; [lia|]. simpl in *.
  destruct (JS.includes days (getDay d)); [assumption|].
  apply IH; [assumption | lia].
Qed.

Lemma nextOnDays_spec fuel : forall days d n,
  nextOnDays fuel days d = Some n ->
  exists k, 0 <= k /\ n = addDays d k /\ In (getDay n) days /\
    forall j, 0 <= j < k -> ~ In (getDay (addDays d j)) days.
Proof.
  induction fuel as [|f IH]; intros days d n H; [discriminate|].
  simpl in H. destruct (JS.includes days (getDay d)) eqn:E.
  - injection H as <-. exists 0. repeat split; try lia.
    + unfold addDays. lia.
    + now apply includes_In.
  - apply IH in H as [k [Hk [Hn [Hin Hmin]]]].
    exists (k + 1). repeat split; try lia.
    + rewrite Hn. rewrite addDays_addDays. f_equal. lia.
    + assumption.
    + intros j Hj. destruct (Z.eq_dec j 0) as [->|Hj0].
      * replace (addDays d 0) with d by (unfold addDays; lia).
        intro Hc. apply includes_In in Hc. congruence.
      * specialize (Hmin (j - 1) ltac:(lia)).
        rewrite addDays_addDays in Hmin.
        replace (1 + (j - 1)) with j in Hmin by lia. assumption.
Qed.

(** A weekday of the set is met within seven days. *)
Lemma nextOnDays_terminates days d :
  (exists w, In w days /\ 0 <= w <= 6) ->
  exists n, nextOnDays 7 days d = Some n.
Proof.
  intros [w [Hin Hw]].
  assert (Hk : exists k, 0 <= k < 7 /\ getDay (addDays d k) = w).
  { exists ((w - getDay d) mod 7). split.
    - apply Z.mod_pos_bound. lia.
    - rewrite getDay_addDays. rewrite Zplus_mod_idemp_r.
      replace (getDay d + (w - getDay d)) with w by lia.
      apply Z.mod_small. lia. }
  destruct Hk as [k [Hk Hg]].
  assert (Hgen : forall (f : nat) j, 0 <= j -> j + Z.of_nat f = 7 -> j <= k ->
            exists n, nextOnDays f days (addDays d j) = Some n).
  { induction f as [|f IH]; intros j Hj0 Hj Hjk; [lia|].
    simpl. destruct (JS.includes days (getDay (addDays d j))) eqn:E.
    - eauto.
    - destruct (Z.eq_dec j k) as [->|Hne].
      + rewrite Hg in E. apply includes_In in Hin. congruence.
      + rewrite addDays_addDays. apply IH; lia. }
  specialize (Hgen 7%nat 0 ltac:(lia) ltac:(lia) ltac:(lia)).
  replace (addDays d 0) with d in Hgen by (unfold addDays; lia).
  exact Hgen.
Qed.

(** ** The expansion loop *)

Lemma nextDateOf_mono fuel fuel' ty i dw c n :
  nextDateOf fuel ty i dw c = StepDate n -> (fuel <= fuel')%nat ->
  nextDateOf fuel' ty i dw c = StepDate n.
Proof.
  intros H Hle. destruct ty; simpl in *; try assumption.
  destruct dw as [[|w days]|]; try assumption.
  destruct (nextOnDays fuel (w :: days) (addDays c 1)) as [d|] eqn:E.
  - rewrite (nextOnDays_mono _ fuel' _ _ _ E Hle). assumption.
  - discriminate H.
Qed.

Lemma nextDateOf_return fuel fuel' ty i dw c :
  nextDateOf fuel ty i dw c = StepReturn ->
  nextDateOf fuel' ty i dw c = StepReturn.
Proof.
  destruct ty; simpl; try discriminate; try reflexivity.
  destruct dw as [[|w days]|]; try discriminate.
  destruct (nextOnDays fuel (w :: days) (addDays c 1)); discriminate.
Qed.

Lemma chain_impl (R R' : Date -> Date -> Prop) :
  (forall c n, R c n -> R' c n) ->
  forall l c, chain R c l -> chain R' c l.
Proof.
  intros HR. induction l as [|d l IH]; intros c H; simpl in *; [exact I|].
  destruct H as [H1 H2]. split; auto.
Qed.

(** The switch finds a next date, given seven turns for its inner loop,
    unless the type is [none]. *)
Lemma nextDateOf_total fuel ty i dw c :
  (7 <= fuel)%nat ->
  (forall days, ty = weekly -> dw = Some days -> Forall (fun d => 0 <= d <= 6) days) ->
  ty <> none ->
  exists n, nextDateOf fuel ty i dw c = StepDate n.
Proof.
  intros Hf Hw Hty. destruct ty; simpl; eauto; [congruence|].
  destruct dw as [[|w days]|]; eauto.
  specialize (Hw _ eq_refl eq_refl).
  destruct (nextOnDays_terminates (w :: days) (addDays c 1)) as [n Hn].
  { exists w. split; [now left|]. now inversion Hw. }
  rewrite (nextOnDays_mono _ fuel _ _ _ Hn Hf). eauto.
Qed.

Section Loop.

(** The variables that the loop does not change. *)
Variables (ty : RecurrenceType) (i : Z) (dw : option (list Z)).
Variables (mo : Z) (me : Date).

(** The events of the loop are the events it started with, followed by one
    occurrence per generated date. *)
Lemma expandLoop_dates fuel event : forall evs c cnt,
  expandLoop fuel event ty i dw mo me evs c cnt =
  option_map (fun ds => evs ++ map (recurringEvent event) ds)
    (datesLoop fuel ty i dw mo me c cnt).
Proof.
  induction fuel as [|f IH]; intros evs c cnt; simpl; [reflexivity|].
  destruct ((cnt <? mo) && isBefore c me); simpl.
  2: now rewrite app_nil_r.
  destruct (nextDateOf f ty i dw c) as [n| |]; simpl;
    try reflexivity; try now rewrite app_nil_r.
  destruct (isAfter n me); simpl; [now rewrite app_nil_r|].
  rewrite IH.
  destruct (datesLoop f ty i dw mo me n (cnt + 1)); simpl; [|reflexivity].
  now rewrite <- app_assoc.
Qed.

Lemma datesLoop_mono fuel : forall fuel' c cnt ds,
  datesLoop fuel ty i dw mo me c cnt = Some ds -> (fuel <= fuel')%nat ->
  datesLoop fuel' ty i dw mo me c cnt = Some ds.
Proof.
  induction fuel as [|f IH]; intros fuel' c cnt ds H Hle; [discriminate|].
  destruct fuel' as [|f']; [lia|]. simpl in *.
  destruct ((cnt <? mo) && isBefore c me); [|assumption].
  destruct (nextDateOf f ty i dw c) as [n| |] eqn:E; try discriminate.
  - rewrite (nextDateOf_mono _ f' _ _ _ _ _ E) by lia.
    destruct (isAfter n me); [assumption|].
    destruct (datesLoop f ty i dw mo me n (cnt + 1)) eqn:E'; [|discriminate].
    rewrite (IH f' _ _ _ E') by lia. assumption.
  - now rewrite (nextDateOf_return _ f' _ _ _ _ E).
Qed.

(** The count cap: at most [maxOccurrences - count] dates are generated. *)
Lemma datesLoop_length fuel : forall c cnt ds,
  datesLoop fuel ty i dw mo me c cnt = Some ds ->
  Z.of_nat (List.length ds) <= Z.max 0 (mo - cnt).
Proof.
  induction fuel as [|f IH]; intros c cnt ds H; [discriminate|].
  simpl in H. destruct (cnt <? mo) eqn:Ec; simpl in H.
  2: { injection H as <-. simpl. lia. }
  apply Z.ltb_lt in Ec.
  destruct (isBefore c me); [|injection H as <-; simpl; lia].
  destruct (nextDateOf f ty i dw c) as [n| |]; try discriminate.
  2: { injection H as <-. simpl. lia. }
  destruct (isAfter n me); [injection H as <-; simpl; lia|].
  destruct (datesLoop f ty i dw mo me n (cnt + 1)) eqn:E; [|discriminate].
  injection H as <-. apply IH in E. simpl List.length. lia.
Qed.

(** The date cap: no generated date is after [maxEndDate]. *)
Lemma datesLoop_not_after fuel : forall c cnt ds,
  datesLoop fuel ty i dw mo me c cnt = Some ds ->
  Forall (fun d => d <= me) ds.
Proof.
  induction fuel as [|f IH]; intros c cnt ds H; [discriminate|].
  simpl in H.
  destruct ((cnt <? mo) && isBefore c me); [|injection H as <-; constructor].
  destruct (nextDateOf f ty i dw c) as [n| |]; try discriminate.
  2: { injection H as <-. constructor. }
  destruct (isAfter n me) eqn:Ea; [injection H as <-; constructor|].
  destruct (datesLoop f ty i dw mo me n (cnt + 1)) eqn:E; [|discriminate].
  injection H as <-. constructor; [|eapply IH; eauto].
  unfold isAfter in Ea. lia.
Qed.

(** Each generated date is the step of the one before it. *)
Lemma datesLoop_chain fuel : forall c cnt ds,
  datesLoop fuel ty i dw mo me c cnt = Some ds ->
  chain (fun c n => exists f, nextDateOf f ty i dw c = StepDate n) c ds.
Proof.
  induction fuel as [|f IH]; intros c cnt ds H; [discriminate|].
  simpl in H.
  destruct ((cnt <? mo) && isBefore c me); [|injection H as <-; exact I].
  destruct (nextDateOf f ty i dw c) as [n| |] eqn:En; try discriminate.
  2: { injection H as <-. exact I. }
  destruct (isAfter n me); [injection H as <-; exact I|].
  destruct (datesLoop f ty i dw mo me n (cnt + 1)) eqn:E; [|discriminate].
  injection H as <-. simpl. split; [eauto | eapply IH; eauto].
Qed.

(** Termination: the loop returns when the fuel covers the turns that the
    count cap leaves and the seven of the inner loop. *)
Lemma datesLoop_terminates :
  (forall days, ty = weekly -> dw = Some days -> Forall (fun d => 0 <= d <= 6) days) ->
  forall fuel c cnt,
  (Z.to_nat (mo - cnt) + 8 <= fuel)%nat ->
  exists ds, datesLoop fuel ty i dw mo me c cnt = Some ds.
Proof.
  intros Hw. induction fuel as [|f IH]; intros c cnt Hf; [lia|].
  simpl. destruct (cnt <? mo) eqn:Ec; simpl; [|eauto].
  apply Z.ltb_lt in Ec.
  destruct (isBefore c me); [|eauto].
  destruct (nextDateOf f ty i dw c) as [n| |] eqn:En; [|eauto|].
  - destruct (isAfter n me); [eauto|].
    destruct (IH n (cnt + 1)) as [ds Hds]; [lia|].
    rewrite Hds. simpl. eauto.
  - assert (Hty : ty <> none) by (intros ->; discriminate En).
    destruct (nextDateOf_total f ty i dw c) as [n Hn];
      [lia | assumption | assumption |].
    congruence.
Qed.

(** One turn of the loop. *)
Lemma datesLoop_step f c cnt n :
  cnt < mo -> c < me ->
  nextDateOf f ty i dw c = StepDate n -> n <= me ->
  datesLoop (S f) ty i dw mo me c cnt =
  option_map (cons n) (datesLoop f ty i dw mo me n (cnt + 1)).
Proof.
  intros Hc Hb Hn Ha. cbn [datesLoop]. rewrite Hn. unfold isBefore, isAfter.
  rewrite Z.gtb_ltb.
  destruct (Z.ltb_spec cnt mo); destruct (Z.ltb_spec c me);
    destruct (Z.ltb_spec me n); try lia.
  reflexivity.
Qed.

Lemma datesLoop_stop f c cnt :
  mo <= cnt \/ me <= c ->
  datesLoop (S f) ty i dw mo me c cnt = Some [].
Proof.
  intros H. cbn [datesLoop]. unfold isBefore.
  destruct (Z.ltb_spec cnt mo); destruct (Z.ltb_spec c me); try lia;
    try reflexivity.
  all: now rewrite ?andb_false_r.
Qed.

Lemma datesLoop_stop_after f c cnt n :
  nextDateOf f ty i dw c = StepDate n -> me < n ->
  datesLoop (S f) ty i dw mo me c cnt = Some [].
Proof.
  intros Hn Ha. cbn [datesLoop]. rewrite Hn. unfold isAfter.
  rewrite Z.gtb_ltb. destruct (Z.ltb_spec me n); [|lia].
  now destruct ((cnt <? mo) && isBefore c me).
Qed.

End Loop.

(** ** Conflict detection *)

Lemma ascii_compare_lt c1 c2 :
  Ascii.compare c1 c2 = Lt <-> (nat_of_ascii c1 < nat_of_ascii c2)%nat.
Proof.
  unfold Ascii.compare. rewrite N.compare_lt_iff.
  unfold nat_of_ascii. lia.
Qed.

Lemma leb_lex_le s1 : forall s2, String.leb s1 s2 = true <-> lex_le s1 s2.
Proof.
  unfold String.leb.
  induction s1 as [|c1 s1 IH]; intros s2.
  - split; [constructor|]. now destruct s2.
  - destruct s2 as [|c2 s2]; simpl.
    + split; [discriminate | intro H; inversion H].
    + destruct (Ascii.compare c1 c2) eqn:E.
      * apply Ascii.compare_eq_iff in E. subst c2. rewrite IH. split.
        -- now constructor.
        -- intro H. inversion H; subst; [lia | assumption].
      * apply ascii_compare_lt in E. split; [now constructor | reflexivity].
      * split; [discriminate|]. intro H.
        assert (Hn : ~ (nat_of_ascii c1 < nat_of_ascii c2)%nat).
        { intro Hlt. apply ascii_compare_lt in Hlt. congruence. }
        inversion H; subst; [contradiction|].
        unfold Ascii.compare in E. rewrite N.compare_refl in E. discriminate.
Qed.

Lemma or_string_intervalEnd e : JS.or_string (endTime e) (time e) = intervalEnd e.
Proof.
  unfold JS.or_string, intervalEnd. destruct (endTime e) as [s|]; [|reflexivity].
  destruct (string_dec s "") as [->|H]; [reflexivity|].
  apply String.eqb_neq in H. now rewrite H.
Qed.

Lemma conflictTest_spec newEvent excludeId event :
  conflictTest newEvent excludeId event = true <->
  conflictsWith newEvent excludeId event.
Proof.
  unfold conflictTest, conflictsWith, JS.str_le, JS.str_ge.
  rewrite !or_string_intervalEnd.
  assert (Hex : JS.truthy excludeId && (id event =? JS.default excludeId "")%string = false
                <-> (forall x, excludeId = Some x -> x <> "" -> id event <> x)).
  { destruct excludeId as [x|]; simpl.
    - destruct (String.eqb_spec x "") as [->|Hx]; simpl.
      + split; [|reflexivity]. intros _ y Hy. injection Hy as <-. congruence.
      + destruct (String.eqb_spec (id event) x) as [Heq|Hne].
        * split; [discriminate|]. intro H. exfalso. now apply (H x).
        * split; [|reflexivity]. intros _ y Hy. injection Hy as <-. auto.
    - split; [|reflexivity]. intros _ y Hy. discriminate. }
  destruct (JS.truthy excludeId && (id event =? JS.default excludeId "")%string).
  - split; [discriminate|]. intros [H _]. apply Hex in H. discriminate.
  - unfold isSameDay.
    destruct (Z.eqb_spec (dayOf (date event)) (dayOf (date newEvent))) as [Hd|Hd]; simpl.
    + rewrite andb_true_iff, !leb_lex_le. split.
      * intros [H1 H2]. repeat split; try assumption. now apply Hex.
      * intros [_ [_ [H1 H2]]]. now split.
    + split; [discriminate|]. intros [_ [H _]]. contradiction.
Qed.

(** C1. [checkEventConflict] returns, in the order of the store, exactly the
    stored instances that are not the excluded identity, fall on the
    candidate's calendar day and satisfy
    [existing.start <= candidate.end] and [existing.end >= candidate.start],
    times compared lexicographically and a missing end time standing for the
    start time.  The stored 09:00-10:00 conflicts with the candidate
    10:00-11:00 of the same day; the stored 09:00-09:59 does not. *)
Theorem checkEventConflict_spec :
  (forall st candidate excludeIdentity,
     exists keep : CalendarEvent -> bool,
       (forall e, keep e = true <-> conflictsWith candidate excludeIdentity e) /\
       checkEventConflict st candidate excludeIdentity = filter keep (events st)) /\
  (forall st a b,
     events st = [a] -> dayOf (date a) = dayOf (date b) ->
     time a = "09:00" -> endTime a = Some "10:00" ->
     time b = "10:00" -> endTime b = Some "11:00" ->
     checkEventConflict st b None = [a]) /\
  (forall st a b,
     events st = [a] -> dayOf (date a) = dayOf (date b) ->
     time a = "09:00" -> endTime a = Some "09:59" ->
     time b = "10:00" -> endTime b = Some "11:00" ->
     checkEventConflict st b None = []).
Proof.
  split; [|split].
  - intros st c x. exists (conflictTest c x). split.
    + intro e. apply conflictTest_spec.
    + reflexivity.
  - intros st a b Hst Hd Ha Ha' Hb Hb'.
    unfold checkEventConflict. rewrite Hst. simpl.
    unfold isSameDay. rewrite Hd, Z.eqb_refl, Ha, Ha', Hb, Hb'. reflexivity.
  - intros st a b Hst Hd Ha Ha' Hb Hb'.
    unfold checkEventConflict. rewrite Hst. simpl.
    unfold isSameDay. rewrite Hd, Z.eqb_refl, Ha, Ha', Hb, Hb'. reflexivity.
Qed.

Lemma checkEventConflict_spec_witness :
  checkEventConflict
    (sampleState [sampleEvent "1" 1793664000000 "09:00" (Some "10:00") None])
    (sampleEvent "temp" 1793696400000 "10:00" (Some "11:00") None) None
  = [sampleEvent "1" 1793664000000 "09:00" (Some "10:00") None] /\
  checkEventConflict
    (sampleState [sampleEvent "1" 1793664000000 "09:00" (Some "09:59") None])
    (sampleEvent "temp" 1793696400000 "10:00" (Some "11:00") None) None
  = [].
Proof.
  split.
  - apply (proj1 (proj2 checkEventConflict_spec)); reflexivity.
  - apply (proj2 (proj2 checkEventConflict_spec)
             (sampleState [sampleEvent "1" 1793664000000 "09:00" (Some "09:59") None])
             (sampleEvent "1" 1793664000000 "09:00" (Some "09:59") None));
      reflexivity.
Defined.

(** ** Operations on an identity that the store does not hold *)

Lemma map_miss (f : CalendarEvent -> CalendarEvent) eventId evs :
  (forall e, In e evs -> id e <> eventId) ->
  map (fun event => if (id event =? eventId)%string then f event else event) evs = evs.
Proof.
  induction evs as [|e evs IH]; intros H; simpl; [reflexivity|].
  destruct (String.eqb_spec (id e) eventId) as [Heq|_].
  - exfalso. apply (H e); [now left | assumption].
  - f_equal. apply IH. intros e' He'. apply H. now right.
Qed.

Lemma filter_miss eventId evs :
  (forall e, In e evs -> id e <> eventId) ->
  filter (fun event => negb (id event =? eventId)%string) evs = evs.
Proof.
  induction evs as [|e evs IH]; intros H; simpl; [reflexivity|].
  destruct (String.eqb_spec (id e) eventId) as [Heq|_]; simpl.
  - exfalso. apply (H e); [now left | assumption].
  - f_equal. apply IH. intros e' He'. apply H. now right.
Qed.

(** C8. When no stored instance has the identity, [updateEvent],
    [deleteEvent] and [moveEvent] leave the collection as it is; they are
    total functions, so nothing is raised.  [moveEvent] leaves the whole
    state as it is. *)
Theorem miss_is_noop st eventId eventData newDate :
  (forall e, In e (events st) -> id e <> eventId) ->
  events (updateEvent eventId eventData st) = events st /\
  events (deleteEvent eventId st) = events st /\
  events (moveEvent eventId newDate st) = events st /\
  moveEvent eventId newDate st = st.
Proof.
  intros H. unfold updateEvent, deleteEvent, moveEvent. simpl.
  rewrite !map_miss by assumption. rewrite filter_miss by assumption.
  repeat split. now destruct st.
Qed.

Lemma miss_is_noop_witness :
  let st := sampleState [sampleEvent "1" 1793664000000 "09:00" None None] in
  events (updateEvent "nonexistent" noChange st) = events st /\
  events (deleteEvent "nonexistent" st) = events st /\
  events (moveEvent "nonexistent" 0 st) = events st /\
  moveEvent "nonexistent" 0 st = st.
Proof.
  intro st. apply (miss_is_noop st "nonexistent" noChange 0).
  intros e [<-|[]]. simpl. discriminate.
Defined.

(** C10. [updateEvent] and [deleteEvent] always set [isEventFormOpen] to
    false and [editingEvent] to null, as [addEvent] does; on an identity
    that matches no instance this is their whole effect. *)
Theorem update_delete_close_form :
  (forall st eventId eventData,
     isEventFormOpen (updateEvent eventId eventData st) = false /\
     editingEvent (updateEvent eventId eventData st) = None) /\
  (forall st eventId,
     isEventFormOpen (deleteEvent eventId st) = false /\
     editingEvent (deleteEvent eventId st) = None) /\
  (forall fuel stamp now eventData st st',
     addEvent fuel stamp now eventData st = Some st' ->
     isEventFormOpen st' = false /\ editingEvent st' = None) /\
  (forall st eventId eventData,
     (forall e, In e (events st) -> id e <> eventId) ->
     updateEvent eventId eventData st = with_events_closed st (events st) /\
     deleteEvent eventId st = with_events_closed st (events st)).
Proof.
  split; [|split; [|split]].
  - intros st eventId eventData. split; reflexivity.
  - intros st eventId. split; reflexivity.
  - intros fuel stamp now eventData st st' H. unfold addEvent in H.
    destruct (generateRecurringEvents fuel now (set_id eventData (JS.toString stamp)));
      [|discriminate].
    injection H as <-. split; reflexivity.
  - intros st eventId eventData H. split.
    + unfold updateEvent. now rewrite map_miss.
    + unfold deleteEvent. now rewrite filter_miss.
Qed.

Lemma update_delete_close_form_witness :
  let e := sampleEvent "1" 1793664000000 "09:00" None None in
  let st := {| events := [e]; currentDate := 0; selectedDate := None;
               view := month; isEventFormOpen := true;
               editingEvent := Some e; searchQuery := "";
               selectedCategory := None |} in
  updateEvent "nonexistent" noChange st = with_events_closed st [e] /\
  deleteEvent "nonexistent" st = with_events_closed st [e] /\
  isEventFormOpen (with_events_closed st [e]) = false /\
  editingEvent (with_events_closed st [e]) = None.
Proof.
  intros e st.
  destruct (proj2 (proj2 (proj2 update_delete_close_form)) st "nonexistent" noChange)
    as [H1 H2].
  { intros e' [<-|[]]. simpl. discriminate. }
  repeat split; assumption.
Defined.

(** ** Expansion: termination and the count cap *)

Example jan10_2024_is : toISOString jan10_2024 = "2024-01-10T00:00:00.000Z".
Proof. reflexivity. Qed.
Example nov03_2026_is : toISOString nov03_2026 = "2026-11-03T00:00:00.000Z".
Proof. reflexivity. Qed.
Example jan01_2030_is : toISOString jan01_2030 = "2030-01-01T00:00:00.000Z".
Proof. reflexivity. Qed.

Lemma generate_dates fuel now event r :
  recurrence event = Some r -> type r <> none ->
  generateRecurringEvents fuel now event =
  option_map (fun ds => event :: map (recurringEvent event) ds)
    (datesLoop fuel (type r) (JS.default (interval r) 1) (daysOfWeek r)
       (maxOccurrencesOf r) (maxEndDateOf now r) (date event) 1).
Proof.
  intros Hr Hty. unfold generateRecurringEvents. rewrite Hr.
  destruct (type r) eqn:E; try congruence; rewrite expandLoop_dates; reflexivity.
Qed.

Lemma generate_none fuel now event :
  match recurrence event with Some r => type r = none | None => True end ->
  generateRecurringEvents fuel now event = Some [event].
Proof.
  unfold generateRecurringEvents. destruct (recurrence event) as [r|]; [|reflexivity].
  now intros ->.
Qed.

Lemma type_none_dec (r : RecurrencePattern) : {type r = none} + {type r <> none}.
Proof. destruct (type r); (now left) || (right; discriminate). Qed.

(** A weekday set without any index 0 to 6 keeps the inner loop of the
    weekly branch running: no fuel is enough. *)
Lemma nextOnDays_diverges fuel : forall d,
  nextOnDays fuel [7] d = None.
Proof.
  induction fuel as [|f IH]; intro d; simpl; [reflexivity|].
  pose proof (getDay_range d) as Hr.
  destruct (Z.eqb_spec (getDay d) 7) as [E|_]; [lia|]. simpl. apply IH.
Qed.

Lemma datesLoop_weekly_out_of_range fuel i mo me c cnt :
  cnt < mo -> c < me ->
  datesLoop fuel weekly i (Some [7]) mo me c cnt = None.
Proof.
  intros Hc Hd. destruct fuel as [|f]; [reflexivity|].
  cbn [datesLoop nextDateOf]. rewrite nextOnDays_diverges. unfold isBefore.
  destruct (Z.ltb_spec cnt mo); destruct (Z.ltb_spec c me); try lia.
  reflexivity.
Qed.

Lemma weekday_out_of_range_diverges fuel :
  generateRecurringEvents fuel nov03_2026
    (sampleEvent "1" nov03_2026 "09:00" None (Some (weeklyRule [7] None None)))
  = None.
Proof.
  rewrite (generate_dates _ _ _ (weeklyRule [7] None None))
    by (reflexivity || discriminate).
  cbn [type weeklyRule daysOfWeek].
  rewrite datesLoop_weekly_out_of_range; [reflexivity | reflexivity |].
  vm_compute. reflexivity.
Qed.

(** C2, as stated, fails.  With [occurrences = 0] the cap of the claim,
    [occurrences ?? 365], is 0, and the expansion holds four instances.
    With the weekday set [[7]] the expansion does not return, whatever the
    fuel. *)
Lemma expansion_bound_counterexample :
  (let r := dailyRule 1 (Some (addDays nov03_2026 3)) (Some 0) in
   exists evs,
     generateRecurringEvents 20 nov03_2026
       (sampleEvent "1" nov03_2026 "09:00" None (Some r)) = Some evs /\
     ~ Z.of_nat (List.length evs) <= claimedMaxOccurrences r) /\
  (forall fuel,
     generateRecurringEvents fuel nov03_2026
       (sampleEvent "1" nov03_2026 "09:00" None (Some (weeklyRule [7] None None)))
     = None).
Proof.
  split.
  - intro r. eexists. split; [vm_compute; reflexivity|].
    vm_compute. intro H. apply H. reflexivity.
  - apply weekday_out_of_range_diverges.
Qed.

(** ** Expansion and the processing time *)

(** C3, amended.  The expansion is a function of the seed, its rule and
    the processing time, which it reads for the default end date only: for
    an event without recurrence, or whose rule carries an end date, two runs
    at any two processing times return the same sequence. *)
Theorem expansion_time_independent fuel now1 now2 event :
  timeIndependent event ->
  generateRecurringEvents fuel now1 event = generateRecurringEvents fuel now2 event.
Proof.
  unfold timeIndependent, generateRecurringEvents, maxEndDateOf.
  destruct (recurrence event) as [r|]; [|reflexivity].
  intros [H|H].
  - now rewrite H.
  - destruct (endDate r); [reflexivity | congruence].
Qed.

Lemma expansion_time_independent_witness :
  let e := sampleEvent "1" jan10_2024 "09:00" None
             (Some (dailyRule 1 (Some (addDays jan10_2024 3)) None)) in
  generateRecurringEvents 20 jan10_2024 e = generateRecurringEvents 20 nov03_2026 e.
Proof.
  intro e. apply (expansion_time_independent 20 jan10_2024 nov03_2026 e).
  right. discriminate.
Defined.

(** C3, as stated, fails: the same seed with the same monthly rule and no
    end date expands to twelve instances for a run on 2024-01-09 and to
    thirteen for a run on 2024-01-10. *)
Lemma processing_time_counterexample :
  let e := sampleEvent "1" jan10_2024 "09:00" None (Some monthlyRule) in
  exists l1 l2,
    generateRecurringEvents 400 (addDays jan10_2024 (-1)) e = Some l1 /\
    generateRecurringEvents 400 jan10_2024 e = Some l2 /\
    List.length l1 = 12%nat /\ List.length l2 = 13%nat /\ l1 <> l2.
Proof.
  intro e. eexists. eexists.
  split; [vm_compute; reflexivity|].
  split; [vm_compute; reflexivity|].
  split; [reflexivity|]. split; [reflexivity|].
  intro H. apply (f_equal (@List.length _)) in H. discriminate H.
Qed.

(** ** Expansion: the daily rule *)

Lemma fuel_split (n : nat) fuel : (n <= fuel)%nat -> exists f, fuel = (n + f)%nat.
Proof. intro H. exists (fuel - n)%nat. lia. Qed.

Lemma chain_daily i : forall ds c,
  chain (fun c n => exists f, nextDateOf f daily i None c = StepDate n) c ds ->
  forall k d, nth_error ds k = Some d -> d = addDays c ((Z.of_nat k + 1) * i).
Proof.
  induction ds as [|d0 ds IH]; intros c H k d Hk.
  - destruct k; discriminate.
  - cbn [chain] in H. destruct H as [[f Hf] Hc].
    cbn [nextDateOf] in Hf. injection Hf as <-.
    destruct k as [|k]; cbn [nth_error] in Hk.
    + injection Hk as <-. f_equal. lia.
    + rewrite (IH _ Hc k d Hk). rewrite addDays_addDays. f_equal. lia.
Qed.

Lemma nextDateOf_daily f i dw dw' c :
  nextDateOf f daily i dw c = nextDateOf f daily i dw' c.
Proof. reflexivity. Qed.

Lemma datesLoop_daily_dw fuel i dw dw' mo me : forall c cnt,
  datesLoop fuel daily i dw mo me c cnt = datesLoop fuel daily i dw' mo me c cnt.
Proof.
  induction fuel as [|f IH]; intros c cnt; [reflexivity|].
  cbn [datesLoop nextDateOf]. now rewrite IH.
Qed.

(** C4, as stated, fails.  A seed dated 2030-01-01 with a daily rule,
    [occurrences = 5] and no end date, expanded on 2026-11-03, gives the
    seed alone, since the seed is after the default end date.  A seed dated
    on the day of the expansion with the interval 100 gives four instances,
    since the fourth generated date would be after it. *)
Lemma count_cap_counterexample :
  (let e := sampleEvent "1" jan01_2030 "09:00" None
              (Some (dailyRule 1 None (Some 5))) in
   generateRecurringEvents 20 nov03_2026 e = Some [e]) /\
  (let e := sampleEvent "1" nov03_2026 "09:00" None
              (Some (dailyRule 100 None (Some 5))) in
   generateRecurringEvents 20 nov03_2026 e =
   Some [e; recurringEvent e (addDays nov03_2026 100);
         recurringEvent e (addDays nov03_2026 200);
         recurringEvent e (addDays nov03_2026 300)]).
Proof. split; intro e; vm_compute; reflexivity. Qed.

(** C5, amended.  A daily rule with interval 1 and an end date equal to the
    seed date plus three days, without a count cap below four, expands to
    exactly four instances: the seed and the three following days.  None is
    dated after the end date, the occurrence that falls on the end date is
    included, and the day after it is not. *)
Theorem date_cap_daily fuel now event r :
  recurrence event = Some r -> type r = daily ->
  JS.default (interval r) 1 = 1 ->
  endDate r = Some (addDays (date event) 3) ->
  4 <= maxOccurrencesOf r ->
  (fuelFor event <= fuel)%nat ->
  exists evs,
    generateRecurringEvents fuel now event = Some evs /\
    evs = [event;
           recurringEvent event (addDays (date event) 1);
           recurringEvent event (addDays (date event) 2);
           recurringEvent event (addDays (date event) 3)] /\
    List.length evs = 4%nat /\
    (forall e, In e evs -> isAfter (date e) (addDays (date event) 3) = false) /\
    (exists e, In e evs /\ date e = addDays (date event) 3) /\
    ~ In (addDays (date event) 4) (map date evs).
Proof.
  intros Hr Hty Hi He Hmo Hf.
  unfold fuelFor, effectiveMaxOccurrences in Hf. rewrite Hr in Hf.
  eexists. split; [|split; [reflexivity|]].
  - rewrite (generate_dates _ _ _ r Hr) by (rewrite Hty; discriminate).
    rewrite Hty, Hi. unfold maxEndDateOf. rewrite He.
    set (c := date event). set (mo := maxOccurrencesOf r) in *.
    destruct (fuel_split 4 fuel ltac:(lia)) as [f ->]. cbn [Nat.add].
    rewrite (datesLoop_step _ _ _ _ _ _ _ _ (addDays c 1));
      [|lia | by_days | reflexivity
       | by_days].
    rewrite (datesLoop_step _ _ _ _ _ _ _ _ (addDays (addDays c 1) 1));
      [|lia | by_days | reflexivity
       | by_days].
    rewrite (datesLoop_step _ _ _ _ _ _ _ _ (addDays (addDays (addDays c 1) 1) 1));
      [|lia | by_days | reflexivity
       | by_days].
    destruct f as [|f]; [lia|].
    rewrite datesLoop_stop by (right; by_days).
    rewrite !addDays_addDays. reflexivity.
  - unfold isAfter. cbn [List.length In map date recurringEvent].
    split; [reflexivity|]. split; [|split].
    + intros e [<-|[<-|[<-|[<-|[]]]]]; cbn [date recurringEvent];
        rewrite Z.gtb_ltb; apply Z.ltb_ge; by_days.
    + eexists. split; [right; right; right; left; reflexivity | reflexivity].
    + unfold addDays, msPerDay. intros [H|[H|[H|[H|[]]]]]; lia.
Qed.

Lemma date_cap_daily_witness :
  let e := sampleEvent "1" nov03_2026 "09:00" None
             (Some (dailyRule 1 (Some (addDays nov03_2026 3)) None)) in
  exists evs,
    generateRecurringEvents 400 nov03_2026 e = Some evs /\
    List.length evs = 4%nat.
Proof.
  intro e.
  destruct (date_cap_daily 400 nov03_2026 e
              (dailyRule 1 (Some (addDays nov03_2026 3)) None))
    as [evs [H [_ [H4 _]]]];
    [reflexivity | reflexivity | reflexivity | reflexivity
    | vm_compute; discriminate | vm_compute; lia |].
  exists evs. split; assumption.
Defined.

(** C5, as stated, fails: the same rule with [occurrences = 2] expands to
    two instances, the count cap being reached first. *)
Lemma date_cap_counterexample :
  let e := sampleEvent "1" nov03_2026 "09:00" None
             (Some (dailyRule 1 (Some (addDays nov03_2026 3)) (Some 2))) in
  generateRecurringEvents 400 nov03_2026 e =
    Some [e; recurringEvent e (addDays nov03_2026 1)] /\
  List.length [e; recurringEvent e (addDays nov03_2026 1)] <> 4%nat.
Proof. intro e. split; [vm_compute; reflexivity | discriminate]. Qed.

(** The end date is compared as a time value: the occurrence of the end
    date's calendar day is left out when its time of day is later than the
    end date's. *)
Lemma end_date_compares_time_values :
  let seed := nov03_2026 + 15 * 3600000 in
  let e := sampleEvent "1" seed "09:00" None
             (Some (dailyRule 1 (Some (addDays nov03_2026 3)) None)) in
  generateRecurringEvents 400 nov03_2026 e =
  Some [e; recurringEvent e (addDays seed 1); recurringEvent e (addDays seed 2)].
Proof. vm_compute. reflexivity. Qed.

(** ** Expansion: the weekly rule with a weekday set *)

Lemma nearestFollowing_unique days c n n' :
  nearestFollowing days c n -> nearestFollowing days c n' -> n = n'.
Proof.
  intros [k [Hk [-> [Hin Hmin]]]] [k' [Hk' [-> [Hin' Hmin']]]].
  destruct (Z.lt_trichotomy k k') as [H|[H|H]].
  - exfalso. apply (Hmin' k); [lia | assumption].
  - now subst.
  - exfalso. apply (Hmin k'); [lia | assumption].
Qed.

Lemma nearestFollowing_later days c n : nearestFollowing days c n -> c < n.
Proof. intros [k [Hk [-> _]]]. unfold addDays, msPerDay. lia. Qed.

Lemma nextDateOf_weekly_nearest f i w days c n :
  nextDateOf f weekly i (Some (w :: days)) c = StepDate n ->
  nearestFollowing (w :: days) c n.
Proof.
  cbn [nextDateOf].
  destruct (nextOnDays f (w :: days) (addDays c 1)) as [d|] eqn:E; [|discriminate].
  intro H. injection H as <-.
  apply nextOnDays_spec in E as [k [Hk [Hd [Hin Hmin]]]].
  exists (k + 1). repeat split; try lia.
  - rewrite Hd, addDays_addDays. f_equal. lia.
  - assumption.
  - intros j Hj. specialize (Hmin (j - 1) ltac:(lia)).
    rewrite addDays_addDays in Hmin.
    now replace (1 + (j - 1)) with j in Hmin by lia.
Qed.

Lemma nearestFollowing_found f i w days c n :
  Forall (fun d => 0 <= d <= 6) (w :: days) ->
  nearestFollowing (w :: days) c n -> (7 <= f)%nat ->
  nextDateOf f weekly i (Some (w :: days)) c = StepDate n.
Proof.
  intros Hv Hn Hf.
  destruct (nextDateOf_total f weekly i (Some (w :: days)) c) as [n' Hn'];
    [assumption | | discriminate |].
  - intros l _ Hl. now injection Hl as <-.
  - rewrite Hn'. f_equal.
    apply (nearestFollowing_unique (w :: days) c); [|assumption].
    eapply nextDateOf_weekly_nearest; eauto.
Qed.

Lemma datesLoop_weekly_interval fuel i i' w days mo me : forall c cnt,
  datesLoop fuel weekly i (Some (w :: days)) mo me c cnt =
  datesLoop fuel weekly i' (Some (w :: days)) mo me c cnt.
Proof.
  induction fuel as [|f IH]; intros c cnt; [reflexivity|].
  cbn [datesLoop nextDateOf].
  destruct ((cnt <? mo) && isBefore c me); [|reflexivity].
  destruct (nextOnDays f (w :: days) (addDays c 1)) as [n|]; [|reflexivity].
  destruct (isAfter n me); [reflexivity|]. now rewrite IH.
Qed.

Lemma getDay_shift c w k : getDay c = w -> getDay (addDays c k) = (w + k) mod 7.
Proof. intros <-. apply getDay_addDays. Qed.

(** From a Wednesday the nearest Monday or Friday is the Friday, two days
    later; from a Friday it is the Monday, three days later. *)
Lemma nearest_from_wednesday c :
  getDay c = 3 -> nearestFollowing [1; 5] c (addDays c 2).
Proof.
  intros Hc. exists 2. repeat split; try lia.
  - rewrite (getDay_shift c 3 2 Hc). right. left. reflexivity.
  - intros j Hj. assert (j = 1) as -> by lia.
    rewrite (getDay_shift c 3 1 Hc). intros [H|[H|[]]]; discriminate H.
Qed.

Lemma nearest_from_friday c :
  getDay c = 5 -> nearestFollowing [1; 5] c (addDays c 3).
Proof.
  intros Hc. exists 3. repeat split; try lia.
  - rewrite (getDay_shift c 5 3 Hc). left. reflexivity.
  - intros j Hj. assert (j = 1 \/ j = 2) as [-> | ->] by lia.
    + rewrite (getDay_shift c 5 1 Hc). intros [H|[H|[]]]; discriminate H.
    + rewrite (getDay_shift c 5 2 Hc). intros [H|[H|[]]]; discriminate H.
Qed.

Lemma weekdays_1_5 : Forall (fun d => 0 <= d <= 6) [1; 5].
Proof. repeat constructor; lia. Qed.

(** C6, amended.  A seed dated on a Wednesday with a weekly rule on Monday
    and Friday: each generated date is the nearest calendar day after the
    one before it whose weekday is Monday or Friday, so the dates increase;
    the first generated occurrence, if any, is the Friday two days after the
    seed and the second, if any, the Monday five days after it, and both are
    generated when the count cap allows three instances and the end date is
    not before that Monday; the interval of the rule does not change the
    result. *)
Theorem weekly_by_weekday fuel now event r :
  recurrence event = Some r -> type r = weekly ->
  daysOfWeek r = Some [1; 5] -> getDay (date event) = 3 ->
  (fuelFor event <= fuel)%nat ->
  exists ds,
    generateRecurringEvents fuel now event =
      Some (event :: map (recurringEvent event) ds) /\
    chain (fun c n => c < n /\ nearestFollowing [1; 5] c n) (date event) ds /\
    (forall d, nth_error ds 0 = Some d ->
       d = addDays (date event) 2 /\ getDay d = 5) /\
    (forall d, nth_error ds 1 = Some d ->
       d = addDays (date event) 5 /\ getDay d = 1) /\
    (3 <= maxOccurrencesOf r ->
     addDays (date event) 5 <= maxEndDateOf now r ->
     (2 <= List.length ds)%nat) /\
    (forall i,
       let event' := set_recurrence event (Some (set_interval r i)) in
       generateRecurringEvents fuel now event' =
         Some (event' :: map (recurringEvent event') ds)).
Proof.
  intros Hr Hty Hdw Hwed Hf.
  unfold fuelFor, effectiveMaxOccurrences in Hf. rewrite Hr in Hf.
  set (c := date event) in *. set (mo := maxOccurrencesOf r) in *.
  set (me := maxEndDateOf now r) in *.
  destruct (datesLoop_terminates weekly (JS.default (interval r) 1)
              (Some [1; 5]) mo me)
    with (fuel := fuel) (c := c) (cnt := 1) as [ds Hds].
  { intros days _ Hd. injection Hd as <-. exact weekdays_1_5. }
  { lia. }
  assert (Hch : chain (fun c n => c < n /\ nearestFollowing [1; 5] c n) c ds).
  { apply datesLoop_chain in Hds. revert Hds. apply chain_impl.
    intros c0 n [f Hn]. apply nextDateOf_weekly_nearest in Hn.
    split; [eapply nearestFollowing_later; eauto | assumption]. }
  assert (H0 : forall d, nth_error ds 0 = Some d -> d = addDays c 2 /\ getDay d = 5).
  { intros d Hd. destruct ds as [|d1 ds]; [discriminate|].
    injection Hd as ->. destruct Hch as [[_ Hn] _].
    assert (d = addDays c 2) as ->
      by (eapply nearestFollowing_unique; eauto using nearest_from_wednesday).
    split; [reflexivity|]. now rewrite (getDay_shift c 3 2 Hwed). }
  exists ds. split; [|split; [exact Hch|split; [exact H0|split; [|split]]]].
  - rewrite (generate_dates _ _ _ r Hr) by (rewrite Hty; discriminate).
    rewrite Hty, Hdw. fold c mo me. now rewrite Hds.
  - intros d Hd. destruct ds as [|d1 [|d2 ds]]; try discriminate.
    injection Hd as ->. destruct (H0 d1 eq_refl) as [-> Hfri].
    destruct Hch as [_ [[_ Hn] _]].
    assert (d = addDays (addDays c 2) 3) as ->
      by (eapply nearestFollowing_unique; eauto using nearest_from_friday).
    rewrite addDays_addDays. change (2 + 3) with 5. split; [reflexivity|].
    now rewrite (getDay_shift c 3 5 Hwed).
  - intros Hmo Hme. destruct (fuel_split 2 fuel ltac:(lia)) as [f ->].
    cbn [Nat.add] in Hds. unfold addDays, msPerDay in Hme.
    rewrite (datesLoop_step _ _ _ _ _ _ _ _ (addDays c 2)) in Hds;
      [|lia | lia
       | apply nearestFollowing_found;
           [exact weekdays_1_5 | now apply nearest_from_wednesday | lia]
       | by_days].
    rewrite (datesLoop_step _ _ _ _ _ _ _ _ (addDays (addDays c 2) 3)) in Hds;
      [|lia | by_days
       | apply nearestFollowing_found;
           [exact weekdays_1_5
           | apply nearest_from_friday; now rewrite (getDay_shift c 3 2 Hwed)
           | lia]
       | by_days].
    destruct (datesLoop f weekly _ _ mo me _ _); [|discriminate].
    cbn [option_map] in Hds. injection Hds as <-. cbn [List.length]. lia.
  - intros i event'.
    rewrite (generate_dates _ _ event' (set_interval r i))
      by (try reflexivity; cbn [type set_interval]; rewrite Hty; discriminate).
    cbn [type set_interval daysOfWeek interval].
    rewrite Hty, Hdw.
    rewrite (datesLoop_weekly_interval _ _ (JS.default (interval r) 1)).
    change (maxOccurrencesOf (set_interval r i)) with mo.
    change (maxEndDateOf now (set_interval r i)) with me.
    change (date event') with c. now rewrite Hds.
Qed.

Lemma weekly_by_weekday_witness :
  let seed := addDays nov03_2026 1 in
  let e := sampleEvent "1" seed "09:00" None
             (Some (weeklyRule [1; 5] None (Some 3))) in
  exists ds,
    generateRecurringEvents 20 nov03_2026 e =
      Some (e :: map (recurringEvent e) ds) /\
    nth_error ds 0 = Some (addDays seed 2) /\
    nth_error ds 1 = Some (addDays seed 5).
Proof.
  intros seed e.
  destruct (weekly_by_weekday 20 nov03_2026 e (weeklyRule [1; 5] None (Some 3)))
    as [ds [H [_ [H0 [H1 [H2 _]]]]]];
    [reflexivity | reflexivity | reflexivity | reflexivity | vm_compute; lia |].
  assert (Hlen : (2 <= List.length ds)%nat).
  { apply H2; vm_compute; discriminate. }
  destruct ds as [|d1 [|d2 ds]]; cbn [List.length] in Hlen; try lia.
  exists (d1 :: d2 :: ds). split; [exact H|]. split.
  - cbn [nth_error]. f_equal. apply (H0 d1 eq_refl).
  - cbn [nth_error]. f_equal. apply (H1 d2 eq_refl).
Defined.

(** C6, as stated, fails: a seed dated Wednesday 2030-01-02 with the weekly
    rule on Monday and Friday, no end date and no count, expanded on
    2026-11-03, gives the seed alone, since the seed is after the default
    end date. *)
Lemma weekly_far_seed_counterexample :
  let e := sampleEvent "1" (addDays jan01_2030 1) "09:00" None
             (Some (weeklyRule [1; 5] None None)) in
  getDay (date e) = 3 /\
  generateRecurringEvents 400 nov03_2026 e = Some [e].
Proof. intro e. split; vm_compute; reflexivity. Qed.

(** ** The calendar *)

(** Goals on quotients and remainders by constants. *)
Ltac by_division := Z.to_euclidean_division_equations; lia.

(** The year of the era and the day of that year. *)
Lemma yoe_bounds doe :
  0 <= doe < 146097 ->
  0 <= yoe_of_doe doe <= 399 /\ 0 <= doy_of_doe doe <= 365.
Proof.
  intros H. unfold doy_of_doe, yoe_of_doe. cbv zeta. by_division.
Qed.

(** The day is before the first day of the next year of the era. *)
Lemma yoe_next doe :
  0 <= doe < 146097 ->
  yoe_of_doe doe < 399 ->
  doe < 365 * (yoe_of_doe doe + 1) + (yoe_of_doe doe + 1) / 4
        - (yoe_of_doe doe + 1) / 100.
Proof. intros H. unfold yoe_of_doe. by_division. Qed.

(** The month, counted from March, and the day of the month. *)
Lemma mp_bounds doy :
  0 <= doy <= 365 ->
  0 <= mp_of_doy doy <= 11 /\
  1 <= doy - doy_of_mp (mp_of_doy doy) + 1 <= 31.
Proof. intros H. unfold mp_of_doy, doy_of_mp. by_division. Qed.

(** The era, its day, the year of the era, the day of the year and the
    month of a day, with what is known of them. *)
Ltac civil_parts z :=
  unfold civil_from_days; cbv zeta;
  let era := fresh "era" in
  let doe := fresh "doe" in
  let Hz := fresh "Hz" in
  let Hdoe := fresh "Hdoe" in
  set (era := (z + 719468) / 146097);
  set (doe := (z + 719468) mod 146097);
  assert (Hz : z + 719468 = 146097 * era + doe)
    by (unfold era, doe; apply Z.div_mod; lia);
  assert (Hdoe : 0 <= doe < 146097) by (apply Z.mod_pos_bound; lia);
  clearbody era doe;
  let Hyoe := fresh "Hyoe" in
  let Hdoy := fresh "Hdoy" in
  destruct (yoe_bounds doe Hdoe) as [Hyoe Hdoy];
  let Hmp := fresh "Hmp" in
  let Hd := fresh "Hd" in
  destruct (mp_bounds _ Hdoy) as [Hmp Hd];
  let Hnext := fresh "Hnext" in
  pose proof (yoe_next doe Hdoe) as Hnext;
  let Edoy := fresh "Edoy" in
  assert (Edoy : doy_of_doe doe =
                 doe - (365 * yoe_of_doe doe + yoe_of_doe doe / 4
                        - yoe_of_doe doe / 100)) by reflexivity;
  let yoe := fresh "yoe" in
  let doy := fresh "doy" in
  set (yoe := yoe_of_doe doe) in *; set (doy := doy_of_doe doe) in *;
  let Emp := fresh "Emp" in
  assert (Emp : mp_of_doy doy = (5 * doy + 2) / 153) by reflexivity;
  let mp := fresh "mp" in
  set (mp := mp_of_doy doy) in *;
  clearbody yoe doy mp.

(** The calendar date of a day gives the day back. *)
Lemma civil_roundtrip z :
  let '(y, m, d) := civil_from_days z in
  days_from_civil y m d = z /\ 1 <= m <= 12 /\ 1 <= d <= 31 /\
  400 * ((z + 719468) / 146097) <= y <= 400 * ((z + 719468) / 146097) + 400.
Proof.
  civil_parts z.
  unfold days_from_civil. cbv zeta.
  destruct (Z.ltb_spec mp 10).
  - destruct (Z.leb_spec (mp + 3) 2); [lia|].
    replace (mp + 3 - 3) with mp by lia.
    replace ((yoe + era * 400) / 400) with era
      by (apply (Z.div_unique _ 400 era yoe); lia).
    replace ((yoe + era * 400) mod 400) with yoe
      by (apply (Z.mod_unique _ 400 era yoe); lia).
    repeat split; lia.
  - destruct (Z.leb_spec (mp - 9) 2); [|lia].
    replace (mp - 9 + 9) with mp by lia.
    replace ((yoe + era * 400 + 1 - 1) / 400) with era
      by (apply (Z.div_unique _ 400 era yoe); lia).
    replace ((yoe + era * 400 + 1 - 1) mod 400) with yoe
      by (apply (Z.mod_unique _ 400 era yoe); lia).
    repeat split; lia.
Qed.

(** The day of the month is a day of its month. *)
Lemma civil_day_in_month z :
  let '(y, m, d) := civil_from_days z in d <= daysInMonth y m.
Proof.
  civil_parts z.
  unfold daysInMonth, days_from_civil, doy_of_mp in *. cbv zeta.
  repeat match goal with
         | |- context [?a <=? ?b] => destruct (Z.leb_spec a b)
         | |- context [?a <? ?b] => destruct (Z.ltb_spec a b)
         | |- context [?a =? ?b] => destruct (Z.eqb_spec a b)
         end; try lia.
  all: by_division.
Qed.

(** The calendar date of a day is a date of the calendar and gives the
    day back. *)
Lemma civil_spec z :
  let '(y, m, d) := civil_from_days z in
  days_from_civil y m d = z /\ 1 <= m <= 12 /\ 1 <= d <= daysInMonth y m /\
  d <= 31 /\
  400 * ((z + 719468) / 146097) <= y <= 400 * ((z + 719468) / 146097) + 400.
Proof.
  pose proof (civil_roundtrip z) as H1. pose proof (civil_day_in_month z) as H2.
  destruct (civil_from_days z) as [[y m] d]. lia.
Qed.

(** ** Decimal digits *)

Lemma digit_val_char d : 0 <= d <= 9 -> digit_val (digit_char d) = Some d.
Proof.
  intros H.
  assert (Hc : d = 0 \/ d = 1 \/ d = 2 \/ d = 3 \/ d = 4 \/ d = 5 \/ d = 6
               \/ d = 7 \/ d = 8 \/ d = 9) by lia.
  repeat (destruct Hc as [->|Hc]; [reflexivity|]). now subst.
Qed.

Lemma take_digits_digits n : forall m a v rest,
  0 <= v ->
  take_digits (n + m) a (digits n v rest) =
  take_digits m (a * 10 ^ Z.of_nat n + v mod 10 ^ Z.of_nat n) rest.
Proof.
  induction n as [|n IH]; intros m a v rest Hv.
  - cbn [digits Nat.add]. f_equal. change (10 ^ Z.of_nat 0) with 1.
    rewrite Z.mod_1_r. lia.
  - cbn [digits]. replace (S n + m)%nat with (n + S m)%nat by lia.
    rewrite IH by (apply Z.div_pos; lia).
    cbn [take_digits]. rewrite digit_val_char
      by (pose proof (Z.mod_pos_bound v 10); lia).
    f_equal. rewrite Nat2Z.inj_succ, Z.pow_succ_r by lia.
    assert (Hp : 0 < 10 ^ Z.of_nat n) by (apply Z.pow_pos_nonneg; lia).
    rewrite Z.rem_mul_r by lia. ring.
Qed.

Lemma take_digits_roundtrip n v rest :
  0 <= v < 10 ^ Z.of_nat n ->
  take_digits n 0 (digits n v rest) = Some (v, rest).
Proof.
  intros Hv. replace n with (n + 0)%nat at 1 by lia.
  rewrite take_digits_digits by lia. cbn [take_digits].
  rewrite Z.mod_small by lia. reflexivity.
Qed.

Lemma expect_String c s : expect c (String c s) = Some s.
Proof. cbn [expect]. now rewrite Ascii.eqb_refl. Qed.

(** ** The text of a date *)

Lemma take_year_digit c s v :
  digit_val c = Some v -> take_year (String c s) = take_digits 4 0 (String c s).
Proof.
  intro H. cbn [take_year].
  destruct c as [[] [] [] [] [] [] [] []]; try reflexivity; discriminate H.
Qed.

Lemma take_year_year_string y rest :
  -999999 <= y <= 999999 -> take_year (year_string y rest) = Some (y, rest).
Proof.
  intros Hy. unfold year_string.
  destruct (Z.leb_spec 0 y) as [H0|H0]; cbn [andb].
  - destruct (Z.leb_spec y 9999) as [H1|H1].
    + rewrite <- (take_digits_roundtrip 4 y rest) by (cbn; lia).
      cbn [digits]. eapply take_year_digit. apply digit_val_char.
      pose proof (Z.mod_pos_bound (y / 10 / 10 / 10) 10). lia.
    + destruct (Z.ltb_spec y 0); [lia|].
      cbn [take_year Ascii.eqb Bool.eqb].
      rewrite take_digits_roundtrip by (cbn; lia). reflexivity.
  - destruct (Z.ltb_spec y 0); [|lia].
    cbn [take_year Ascii.eqb Bool.eqb].
    rewrite take_digits_roundtrip by (cbn; lia).
    now rewrite Z.opp_involutive.
Qed.

Lemma dayOf_timeOfDay t :
  t = dayOf t * msPerDay + timeOfDay t /\ 0 <= timeOfDay t < msPerDay.
Proof.
  unfold dayOf, timeOfDay, msPerDay. split.
  - pose proof (Z.div_mod t 86400000). lia.
  - apply Z.mod_pos_bound. lia.
Qed.

(** [new Date(d.toISOString())] is [d]. *)
Lemma parseDate_toISOString t :
  validTime t -> parseDate (toISOString t) = Some t.
Proof.
  intros Hv. unfold toISOString, parseDate.
  pose proof (civil_spec (dayOf t)) as Hc.
  destruct (dayOf_timeOfDay t) as [Ht Htod].
  assert (Hday : -100000000 <= dayOf t <= 100000000).
  { unfold validTime in Hv. unfold msPerDay in *. lia. }
  destruct (civil_from_days (dayOf t)) as [[y m] d].
  destruct Hc as [Hdfc [Hm [Hd [Hd31 Hy]]]].
  assert (Hera : -680 <= (dayOf t + 719468) / 146097 <= 690).
  { split.
    - apply Z.div_le_lower_bound; lia.
    - apply Z.div_le_upper_bound; lia. }
  set (tod := timeOfDay t) in *. unfold msPerDay in Htod.
  assert (Hh : 0 <= tod / 3600000 < 24).
  { split; [apply Z.div_pos; lia | apply Z.div_lt_upper_bound; lia]. }
  assert (Hmi : 0 <= tod / 60000 mod 60 < 60) by (apply Z.mod_pos_bound; lia).
  assert (Hs : 0 <= tod / 1000 mod 60 < 60) by (apply Z.mod_pos_bound; lia).
  assert (Hms : 0 <= tod mod 1000 < 1000) by (apply Z.mod_pos_bound; lia).
  assert (Hsum : ((tod / 3600000 * 60 + tod / 60000 mod 60) * 60
                  + tod / 1000 mod 60) * 1000 + tod mod 1000 = tod).
  { clear - Htod. Z.to_euclidean_division_equations. lia. }
  cbv zeta.
  rewrite take_year_year_string by lia. cbv beta iota.
  rewrite expect_String. rewrite take_digits_roundtrip by (cbn; lia).
  cbv beta iota.
  rewrite expect_String. rewrite take_digits_roundtrip by (cbn; lia).
  cbv beta iota.
  rewrite expect_String. rewrite take_digits_roundtrip by (cbn; lia).
  cbv beta iota.
  rewrite expect_String. rewrite take_digits_roundtrip by (cbn; lia).
  cbv beta iota.
  rewrite expect_String. rewrite take_digits_roundtrip by (cbn; lia).
  cbv beta iota.
  rewrite expect_String. rewrite take_digits_roundtrip by (cbn; lia).
  cbv beta iota.
  rewrite expect_String.
  change ("" =? "")%string with true. cbn [andb].
  destruct (Z.leb_spec 1 m); [|lia]. destruct (Z.leb_spec m 12); [|lia].
  destruct (Z.leb_spec 1 d); [|lia]. destruct (Z.leb_spec d 31); [|lia].
  destruct (Z.ltb_spec (tod / 3600000) 24); [|lia].
  destruct (Z.ltb_spec (tod / 60000 mod 60) 60); [|lia].
  destruct (Z.ltb_spec (tod / 1000 mod 60) 60); [|lia].
  cbn [andb]. f_equal. rewrite Hdfc. lia.
Qed.

(** ** Persistence round trip *)













(** ** Months *)

(** A month has at least 28 days. *)
Lemma monthStart_step M : monthStart M + 28 <= monthStart (M + 1).
Proof.
  unfold monthStart, days_from_civil, doy_of_mp. cbv zeta.
  assert (H : 0 <= M mod 12 < 12) by (apply Z.mod_pos_bound; lia).
  assert (H' : 0 <= (M + 1) mod 12 < 12) by (apply Z.mod_pos_bound; lia).
  repeat match goal with |- context [?a <=? ?b] => destruct (Z.leb_spec a b) end.
  all: by_division.
Qed.

Lemma monthStart_later M k : 0 <= k -> monthStart M + 28 * k <= monthStart (M + k).
Proof.
  intro Hk. revert k Hk. apply natlike_ind.
  - replace (M + 0) with M by lia. lia.
  - intros k Hk IH. pose proof (monthStart_step (M + k)).
    replace (M + Z.succ k) with (M + k + 1) by lia. lia.
Qed.

Lemma days_from_civil_day y m d :
  days_from_civil y m d = days_from_civil y m 1 + d - 1.
Proof. unfold days_from_civil. cbv zeta. lia. Qed.

Lemma monthStart_civil y m :
  1 <= m <= 12 -> monthStart (12 * y + m - 1) = days_from_civil y m 1.
Proof.
  intros Hm. unfold monthStart.
  replace (12 * y + m - 1) with (m - 1 + y * 12) by lia.
  rewrite Z.div_add, Z.mod_add by lia.
  rewrite Z.div_small, Z.mod_small by lia. f_equal; lia.
Qed.

Lemma daysInMonth_monthStart y m :
  1 <= m <= 12 ->
  daysInMonth y m = monthStart (12 * y + m) - monthStart (12 * y + m - 1).
Proof.
  intros Hm. rewrite monthStart_civil by assumption. unfold daysInMonth. cbv zeta.
  destruct (Z.eqb_spec m 12) as [->|Hne].
  - replace (12 * y + 12) with (12 * (y + 1) + 1 - 1) by lia.
    rewrite monthStart_civil by lia. reflexivity.
  - replace (12 * y + m) with (12 * y + (m + 1) - 1) by lia.
    rewrite monthStart_civil by lia. reflexivity.
Qed.

Lemma dayOf_compose a t : 0 <= t < msPerDay -> dayOf (a * msPerDay + t) = a.
Proof.
  intros Ht. unfold dayOf. unfold msPerDay in *.
  symmetry. apply (Z.div_unique _ _ a t); lia.
Qed.

(** [addMonths] by a positive amount moves to a later calendar day. *)
Lemma dayOf_addMonths_lt c i : 1 <= i -> dayOf c < dayOf (addMonths c i).
Proof.
  intros Hi. unfold addMonths.
  destruct (Z.eqb_spec i 0); [lia|].
  pose proof (civil_spec (dayOf c)) as Hc.
  destruct (civil_from_days (dayOf c)) as [[y m] d].
  destruct Hc as [Hdfc [Hm [Hd _]]].
  rewrite dayOf_compose by apply dayOf_timeOfDay.
  set (M := y * 12 + (m - 1) + i).
  assert (HM : 1 <= M mod 12 + 1 <= 12)
    by (pose proof (Z.mod_pos_bound M 12); lia).
  set (dim := daysInMonth (M / 12) (M mod 12 + 1)).
  assert (Hdim : 28 <= dim).
  { unfold dim. rewrite daysInMonth_monthStart by assumption.
    pose proof (monthStart_step (12 * (M / 12) + (M mod 12 + 1) - 1)).
    replace (12 * (M / 12) + (M mod 12 + 1) - 1 + 1)
      with (12 * (M / 12) + (M mod 12 + 1)) in H by lia. lia. }
  assert (Hstart : days_from_civil (M / 12) (M mod 12 + 1) 1 = monthStart M)
    by reflexivity.
  assert (Hfrom : dayOf c = monthStart (12 * y + m - 1) + d - 1).
  { rewrite monthStart_civil by assumption.
    rewrite <- Hdfc at 1. apply days_from_civil_day. }
  assert (Hnext : monthStart (12 * y + m - 1) + d <= monthStart (12 * y + m)).
  { rewrite daysInMonth_monthStart in Hd by assumption. lia. }
  assert (Hlater : monthStart (12 * y + m) <= monthStart M).
  { pose proof (monthStart_later (12 * y + m) (i - 1) ltac:(lia)) as H.
    replace (12 * y + m + (i - 1)) with M in H by (unfold M; lia). lia. }
  rewrite days_from_civil_day, Hstart.
  destruct (Z.geb_spec d dim); lia.
Qed.

(** The year of a date of the format range has four digits. *)
Lemma civil_year_range z :
  -719162 <= z <= 2932896 ->
  1 <= fst (fst (civil_from_days z)) <= 9999.
Proof.
  intros Hr. civil_parts z. cbn [fst].
  destruct (Z.ltb_spec mp 10);
    match goal with |- context [?a <=? ?b] => destruct (Z.leb_spec a b) end;
    try lia; by_division.
Qed.

(** ** Strings *)

Lemma length_append s1 s2 :
  String.length (s1 ++ s2) = (String.length s1 + String.length s2)%nat.
Proof. induction s1 as [|c s1 IH]; cbn; [reflexivity | now rewrite IH]. Qed.

Lemma append_inv_head s a b : (s ++ a)%string = (s ++ b)%string -> a = b.
Proof.
  induction s as [|c s IH]; cbn; intro H; [assumption|].
  injection H as H. auto.
Qed.

Lemma append_inj_tail s1 : forall s2 t1 t2,
  (s1 ++ t1)%string = (s2 ++ t2)%string ->
  String.length t1 = String.length t2 -> s1 = s2 /\ t1 = t2.
Proof.
  induction s1 as [|c s1 IH]; intros [|c' s2] t1 t2 H Hl; cbn in H.
  - now split.
  - exfalso. apply (f_equal String.length) in H. cbn in H.
    rewrite length_append in H. lia.
  - exfalso. apply (f_equal String.length) in H. cbn in H.
    rewrite length_append in H. lia.
  - injection H as -> H. destruct (IH _ _ _ H Hl) as [-> ->]. now split.
Qed.

Lemma has_dash_append s1 s2 :
  has_dash (s1 ++ s2) = has_dash s1 || has_dash s2.
Proof.
  induction s1 as [|c s1 IH]; cbn; [reflexivity|].
  now rewrite IH, orb_assoc.
Qed.

Lemma length_digits n : forall v rest,
  String.length (digits n v rest) = (n + String.length rest)%nat.
Proof.
  induction n as [|n IH]; intros v rest; cbn [digits]; [reflexivity|].
  rewrite IH. cbn. lia.
Qed.

Lemma length_format d : String.length (format_yyyy_MM_dd d) = 10%nat.
Proof.
  unfold format_yyyy_MM_dd. destruct (civil_from_days (dayOf d)) as [[y m] dd].
  rewrite length_digits. cbn [String.length]. rewrite length_digits.
  cbn [String.length]. rewrite length_digits. reflexivity.
Qed.

(** *** The text of a stamp *)

Lemma uint_no_dash d : has_dash (NilEmpty.string_of_uint d) = false.
Proof. induction d; cbn; assumption || reflexivity. Qed.

Lemma toString_no_dash T : 0 <= T -> has_dash (JS.toString T) = false.
Proof.
  intros HT. unfold JS.toString. destruct T as [|p|p]; [reflexivity| |lia].
  cbn [Z.to_int NilZero.string_of_int]. unfold NilZero.string_of_uint.
  destruct (Pos.to_uint p); try apply uint_no_dash. reflexivity.
Qed.

Lemma toString_inj a b : JS.toString a = JS.toString b -> a = b.
Proof.
  unfold JS.toString. intro H. apply DecimalZ.to_int_inj.
  assert (Hn : forall z, Z.to_int z <> Decimal.Pos Decimal.Nil /\
                         Z.to_int z <> Decimal.Neg Decimal.Nil).
  { intros [|p|p]; cbn; split; try discriminate; intro E; injection E as E;
      now apply DecimalPos.Unsigned.to_uint_nonnil in E. }
  assert (Hs : Some (Z.to_int a) = Some (Z.to_int b)).
  { rewrite <- (NilZero.isi (Z.to_int a)) by apply Hn.
    rewrite <- (NilZero.isi (Z.to_int b)) by apply Hn. now rewrite H. }
  now injection Hs.
Qed.

(** A text is the identity of one stamp at most. *)
Lemma stampedBy_unique T T' s :
  0 <= T -> 0 <= T' -> stampedBy T s -> stampedBy T' s -> T = T'.
Proof.
  intros HT HT' [H|[sfx [Hl H]]] [H'|[sfx' [Hl' H']]]; subst s.
  - now apply toString_inj.
  - exfalso. apply (f_equal has_dash) in H'.
    rewrite has_dash_append, !toString_no_dash in H' by assumption.
    discriminate H'.
  - exfalso. apply (f_equal has_dash) in H'.
    rewrite has_dash_append, !toString_no_dash in H' by assumption.
    discriminate H'.
  - apply append_inj_tail in H' as [H' _]; [now apply toString_inj|].
    cbn. now rewrite Hl, Hl'.
Qed.

(** *** The text of a calendar day *)

Lemma formatRange_day d :
  formatRange d -> -719162 <= dayOf d <= 2932896.
Proof.
  unfold formatRange, dayOf, msPerDay. intros [H1 H2]. split.
  - apply Z.div_le_lower_bound; lia.
  - assert (d / 86400000 < 2932897) by (apply Z.div_lt_upper_bound; lia). lia.
Qed.

Lemma some_pair_inj {A B} (a a' : A) (b b' : B) :
  Some (a, b) = Some (a', b') -> a = a' /\ b = b'.
Proof. intro H. injection H. auto. Qed.

Lemma string_tail_inj c s s' : String c s = String c s' -> s = s'.
Proof. intro H. now injection H. Qed.

Lemma format_inj d1 d2 :
  formatRange d1 -> formatRange d2 ->
  format_yyyy_MM_dd d1 = format_yyyy_MM_dd d2 -> dayOf d1 = dayOf d2.
Proof.
  intros H1 H2. unfold format_yyyy_MM_dd.
  pose proof (civil_year_range _ (formatRange_day _ H1)) as Hy1.
  pose proof (civil_year_range _ (formatRange_day _ H2)) as Hy2.
  pose proof (civil_spec (dayOf d1)) as Hc1.
  pose proof (civil_spec (dayOf d2)) as Hc2.
  destruct (civil_from_days (dayOf d1)) as [[y1 m1] dd1].
  destruct (civil_from_days (dayOf d2)) as [[y2 m2] dd2].
  cbn [fst] in Hy1, Hy2.
  destruct Hc1 as [E1 [Hm1 [Hd1 [Hd1' _]]]].
  destruct Hc2 as [E2 [Hm2 [Hd2 [Hd2' _]]]].
  intro H.
  pose proof (f_equal (take_digits 4 0) H) as Hy.
  rewrite !take_digits_roundtrip in Hy by (cbn; lia).
  destruct (some_pair_inj _ _ _ _ Hy) as [-> Hr]. apply string_tail_inj in Hr.
  pose proof (f_equal (take_digits 2 0) Hr) as Hm.
  rewrite !take_digits_roundtrip in Hm by (cbn; lia).
  destruct (some_pair_inj _ _ _ _ Hm) as [-> Hr']. apply string_tail_inj in Hr'.
  pose proof (f_equal (take_digits 2 0) Hr') as Hd.
  rewrite !take_digits_roundtrip in Hd by (cbn; lia).
  destruct (some_pair_inj _ _ _ _ Hd) as [-> _]. congruence.
Qed.

(** ** Identities of one expansion *)

Lemma nextDateOf_later f ty i dw c n :
  1 <= i -> nextDateOf f ty i dw c = StepDate n -> dayOf c < dayOf n.
Proof.
  intros Hi H. destruct ty; cbn [nextDateOf] in H.
  - discriminate H.
  - injection H as <-. rewrite dayOf_addDays. lia.
  - destruct dw as [[|w days]|].
    + injection H as <-. unfold addWeeks. rewrite dayOf_addDays. lia.
    + apply (nextDateOf_weekly_nearest f i) in H as [k [Hk [-> _]]].
      rewrite dayOf_addDays. lia.
    + injection H as <-. unfold addWeeks. rewrite dayOf_addDays. lia.
  - injection H as <-. now apply dayOf_addMonths_lt.
  - injection H as <-. rewrite dayOf_addDays. lia.
Qed.

Lemma chain_later_days : forall ds c,
  chain (fun c n => dayOf c < dayOf n) c ds ->
  Forall (fun d => dayOf c < dayOf d) ds /\ NoDup (map dayOf ds).
Proof.
  induction ds as [|d ds IH]; intros c H; cbn [chain] in H.
  - split; constructor.
  - destruct H as [Hd Hc]. destruct (IH _ Hc) as [Hall Hnd]. split.
    + constructor; [assumption|].
      revert Hall. apply Forall_impl. intros a Ha. lia.
    + cbn [map]. constructor; [|assumption].
      intro Hin. apply in_map_iff in Hin as [x [Hx Hin]].
      rewrite Forall_forall in Hall. specialize (Hall x Hin). lia.
Qed.

Lemma dayOf_lt_lt c d : dayOf c < dayOf d -> c < d.
Proof.
  unfold dayOf, msPerDay. intro H.
  destruct (Z_lt_le_dec c d) as [|Hle]; [assumption|].
  pose proof (Z.div_le_mono d c 86400000 ltac:(lia) Hle). lia.
Qed.

Lemma recurringEvent_ids e ds :
  map id (map (recurringEvent e) ds) =
  map (fun d => (id e ++ "-" ++ format_yyyy_MM_dd d)%string) ds.
Proof. rewrite map_map. reflexivity. Qed.

Lemma generated_ids_NoDup e : forall ds,
  Forall formatRange ds -> NoDup (map dayOf ds) ->
  NoDup (map (fun d => (id e ++ "-" ++ format_yyyy_MM_dd d)%string) ds).
Proof.
  induction ds as [|d ds IH]; intros Hr Hnd; cbn [map]; [constructor|].
  inversion Hr as [|? ? Hd Hr']; subst.
  cbn [map] in Hnd. apply NoDup_cons_iff in Hnd as [Hnin Hnd].
  constructor; [|now apply IH].
  intro Hin. apply in_map_iff in Hin as [x [Hx Hin]].
  apply append_inv_head in Hx. apply string_tail_inj in Hx.
  apply Hnin. apply in_map_iff. exists x. split; [|assumption].
  rewrite Forall_forall in Hr'. apply format_inj; auto.
Qed.

Lemma seed_id_not_generated e ds :
  ~ In (id e) (map (fun d => (id e ++ "-" ++ format_yyyy_MM_dd d)%string) ds).
Proof.
  intro Hin. apply in_map_iff in Hin as [x [Hx _]].
  apply (f_equal String.length) in Hx. rewrite length_append in Hx.
  cbn in Hx. lia.
Qed.

(** The identities of one expansion: the seed's, then one per generated
    date, all distinct when the expansion is advancing. *)
Lemma expansion_ids fuel now e evs :
  advancing now e ->
  generateRecurringEvents fuel now e = Some evs ->
  exists ds,
    map id evs = id e :: map (fun d => (id e ++ "-" ++ format_yyyy_MM_dd d)%string) ds /\
    NoDup (map id evs).
Proof.
  unfold advancing. intros Ha H.
  destruct (recurrence e) as [r|] eqn:Hr.
  2: { rewrite generate_none in H by now rewrite Hr.
       injection H as <-. exists []. split; [reflexivity|].
       repeat constructor. intros []. }
  destruct (type_none_dec r) as [Hn|Hn].
  { rewrite generate_none in H by now rewrite Hr.
    injection H as <-. exists []. split; [reflexivity|].
    repeat constructor. intros []. }
  destruct Ha as [Ha|[Hi [Hlo Hhi]]]; [contradiction|].
  rewrite (generate_dates _ _ _ r Hr Hn) in H.
  destruct (datesLoop fuel (type r) (JS.default (interval r) 1) (daysOfWeek r)
              (maxOccurrencesOf r) (maxEndDateOf now r) (date e) 1)
    as [ds|] eqn:Hds; [|discriminate].
  cbn [option_map] in H. injection H as <-. exists ds.
  cbn [map]. rewrite recurringEvent_ids. split; [reflexivity|].
  pose proof (datesLoop_not_after _ _ _ _ _ _ _ _ _ Hds) as Hna.
  pose proof (datesLoop_chain _ _ _ _ _ _ _ _ _ Hds) as Hch.
  apply (chain_impl _ (fun c n => dayOf c < dayOf n)) in Hch.
  2: { intros c n [f Hf]. eapply nextDateOf_later; eauto. }
  apply chain_later_days in Hch as [Hlater Hnd].
  constructor; [apply seed_id_not_generated|].
  apply generated_ids_NoDup; [|assumption].
  rewrite Forall_forall in *. intros d Hd.
  specialize (Hna d Hd). specialize (Hlater d Hd). apply dayOf_lt_lt in Hlater.
  unfold formatRange in *. lia.
Qed.

(** ** Identities of the store *)

Lemma map_id_update eventId p evs :
  Partial.id p = None ->
  map id (map (fun event => if (id event =? eventId)%string then merge event p else event) evs)
  = map id evs.
Proof.
  intros Hp. rewrite map_map. apply map_ext. intro e.
  destruct (id e =? eventId)%string; [|reflexivity].
  cbn [merge id]. now rewrite Hp.
Qed.

Lemma map_id_move eventId newDate evs :
  map id (map (fun event => if (id event =? eventId)%string
                            then set_date event newDate else event) evs)
  = map id evs.
Proof.
  rewrite map_map. apply map_ext. intro e.
  now destruct (id e =? eventId)%string.
Qed.

Lemma NoDup_map_filter {A B} (g : A -> B) f l :
  NoDup (map g l) -> NoDup (map g (filter f l)).
Proof.
  induction l as [|a l IH]; cbn [map filter]; intro H; [constructor|].
  apply NoDup_cons_iff in H as [Hn Hd].
  destruct (f a); cbn [map]; [|auto].
  constructor; [|auto]. intro Hin. apply Hn.
  apply in_map_iff in Hin as [x [Hx Hin]]. apply in_map_iff.
  exists x. split; [assumption|]. now apply filter_In in Hin.
Qed.

Lemma Forall_map_filter {A B} (P : B -> Prop) (g : A -> B) f l :
  Forall P (map g l) -> Forall P (map g (filter f l)).
Proof.
  induction l as [|a l IH]; cbn [map filter]; intro H; [constructor|].
  inversion H; subst. destruct (f a); cbn [map]; auto.
Qed.

Lemma storeInv_more used used' evs :
  incl used used' -> storeInv used evs -> storeInv used' evs.
Proof.
  intros Hi [Hn Hf]. split; [assumption|].
  revert Hf. apply Forall_impl. intros s [T [HT H]]. exists T. auto.
Qed.

(** An addition with a fresh stamp keeps the identities distinct. *)
Lemma addEvent_inv fuel stamp now eventData used st st' :
  storeInv used (events st) -> 0 <= stamp -> advancing now eventData ->
  ~ In stamp used ->
  addEvent fuel stamp now eventData st = Some st' ->
  storeInv (stamp :: used) (events st').
Proof.
  intros [Hnd Hst] Hs Ha Hfresh H. unfold addEvent in H.
  destruct (generateRecurringEvents fuel now (set_id eventData (JS.toString stamp)))
    as [evs|] eqn:Hg; [|discriminate].
  injection H as <-. cbn [events with_events_closed].
  assert (Ha' : advancing now (set_id eventData (JS.toString stamp))) by exact Ha.
  destruct (expansion_ids _ _ _ _ Ha' Hg) as [ds [Hids Hnew]].
  cbn [id set_id] in Hids.
  assert (Hnewst : Forall (fun s => stampedBy stamp s) (map id evs)).
  { rewrite Hids. constructor; [now left|].
    rewrite Forall_forall. intros s Hin.
    apply in_map_iff in Hin as [d [<- _]]. right.
    exists (format_yyyy_MM_dd d). split; [apply length_format | reflexivity]. }
  split; rewrite map_app.
  - apply NoDup_app; [assumption | assumption |].
    intros s Hold Hin. rewrite Forall_forall in Hst, Hnewst.
    destruct (Hst s Hold) as [T [HT [HT0 HTs]]].
    specialize (Hnewst s Hin).
    assert (T = stamp) by (eapply stampedBy_unique; eauto).
    subst T. contradiction.
  - apply Forall_app. split.
    + revert Hst. apply Forall_impl. intros s [T [HT H]].
      exists T. split; [now right | assumption].
    + revert Hnewst. apply Forall_impl. intros s H.
      exists stamp. split; [now left | split; assumption].
Qed.

Lemma applyOp_inv fuel op used st st' :
  storeInv used (events st) -> opOk op ->
  (forall T, In T (stampsOf [op]) -> ~ In T used) ->
  applyOp fuel op st = Some st' ->
  storeInv (stampsOf [op] ++ used) (events st').
Proof.
  intros Hinv Hok Hfresh H. destruct op; cbn [applyOp stampsOf app] in *.
  - destruct Hok as [Hs Ha]. eapply addEvent_inv; eauto.
    apply Hfresh. now left.
  - injection H as <-. cbn [events updateEvent with_events_closed].
    destruct Hinv as [Hn Hf]. unfold storeInv.
    now rewrite map_id_update.
  - injection H as <-. cbn [events deleteEvent with_events_closed].
    destruct Hinv as [Hn Hf]. split.
    + now apply NoDup_map_filter.
    + now apply Forall_map_filter.
  - injection H as <-. cbn [events moveEvent with_events].
    destruct Hinv as [Hn Hf]. unfold storeInv.
    now rewrite map_id_move.
Qed.

Lemma stampsOf_cons op ops : stampsOf (op :: ops) = stampsOf [op] ++ stampsOf ops.
Proof. now destruct op. Qed.

Lemma runOps_inv fuel : forall ops used st st',
  storeInv used (events st) -> Forall opOk ops ->
  NoDup (stampsOf ops) ->
  (forall T, In T (stampsOf ops) -> ~ In T used) ->
  runOps fuel ops st = Some st' ->
  exists used', storeInv used' (events st').
Proof.
  induction ops as [|op ops IH]; intros used st st' Hinv Hok Hnd Hfresh H.
  - cbn in H. injection H as <-. eauto.
  - cbn [runOps] in H.
    destruct (applyOp fuel op st) as [st1|] eqn:Hop; [|discriminate].
    inversion Hok as [|? ? Hok1 Hoks]; subst.
    rewrite stampsOf_cons in Hnd, Hfresh.
    apply (IH (stampsOf [op] ++ used) st1 st'); try assumption.
    + eapply applyOp_inv; eauto.
      intros T HT. apply Hfresh. apply in_or_app. now left.
    + now apply NoDup_app_remove_l in Hnd.
    + intros T HT Hin. apply in_app_or in Hin as [Hin|Hin].
      * destruct op; cbn [stampsOf] in *; try contradiction.
        destruct Hin as [<-|[]]. cbn [app] in Hnd.
        apply NoDup_cons_iff in Hnd as [Hn _]. contradiction.
      * apply (Hfresh T); [apply in_or_app; now right | assumption].
Qed.

(** C7, amended.  From an empty store, after any run of additions, updates,
    removals and moves in which the additions read pairwise distinct clock
    values, not before the epoch, the updates carry no identity field and
    the expansions are advancing (positive interval, dates within the years
    0001 to 9999), the identities of the store are pairwise distinct.
    Within one advancing expansion the identities are the seed's and, for
    each generated date, the seed's followed by a dash and the date; they
    are pairwise distinct, the seed's included. *)
Theorem identities_distinct :
  (forall fuel ops st st',
     events st = [] -> Forall opOk ops -> NoDup (stampsOf ops) ->
     runOps fuel ops st = Some st' ->
     NoDup (map id (events st'))) /\
  (forall fuel now event evs,
     advancing now event ->
     generateRecurringEvents fuel now event = Some evs ->
     NoDup (map id evs) /\
     exists ds,
       map id evs =
       id event :: map (fun d => (id event ++ "-" ++ format_yyyy_MM_dd d)%string) ds).
Proof.
  split.
  - intros fuel ops st st' Hst Hok Hnd Hrun.
    destruct (runOps_inv fuel ops [] st st') as [used [H _]]; try assumption.
    + rewrite Hst. split; constructor.
    + intros T _ [].
  - intros fuel now event evs Ha Hg.
    destruct (expansion_ids _ _ _ _ Ha Hg) as [ds [Hids Hnd]]. eauto.
Qed.

Lemma identities_distinct_witness :
  exists st',
    runOps 20 sampleOps (sampleState []) = Some st' /\
    List.length (events st') = 6%nat /\
    NoDup (map id (events st')).
Proof.
  eexists. split; [vm_compute; reflexivity|]. split; [reflexivity|].
  apply (proj1 identities_distinct 20%nat sampleOps (sampleState [])).
  - reflexivity.
  - assert (Hadv : forall now e r,
              recurrence e = Some r -> 1 <= JS.default (interval r) 1 ->
              formatRange (date e) -> formatRange (maxEndDateOf now r) ->
              advancing now e).
    { intros now e r Hr H1 H2 H3. unfold advancing. rewrite Hr. auto. }
    constructor; [|constructor; [|repeat constructor]].
    + split; [vm_compute; discriminate|].
      eapply Hadv; [reflexivity | vm_compute; discriminate | |];
        vm_compute; split; (discriminate || reflexivity).
    + split; [vm_compute; discriminate|].
      eapply Hadv; [reflexivity | vm_compute; discriminate | |];
        vm_compute; split; (discriminate || reflexivity).
  - cbn [sampleOps stampsOf]. constructor; [|constructor; [intros []|constructor]].
    intros [H|[]]. discriminate H.
  - vm_compute. reflexivity.
Defined.

(** C7, as stated, fails: two additions that read the same clock value give
    two instances with the same identity. *)
Lemma same_stamp_counterexample :
  let d := sampleEvent "" nov03_2026 "09:00" None None in
  exists e1 e2 st',
    runOps 20 [Add 1793664000000 nov03_2026 d; Add 1793664000000 nov03_2026 d]
      (sampleState []) = Some st' /\
    events st' = [e1; e2] /\ id e1 = id e2 /\
    ~ NoDup (map id (events st')).
Proof.
  intro d. do 3 eexists. split; [vm_compute; reflexivity|].
  split; [reflexivity|]. split; [reflexivity|].
  cbn [events map id]. intro H. apply NoDup_cons_iff in H as [Hn _].
  apply Hn. left. reflexivity.
Qed.

(** An interval of zero repeats the seed date, and with it the identity of
    the generated instances. *)
Lemma zero_interval_repeats_identity :
  let e := sampleEvent "1" nov03_2026 "09:00" None
             (Some (dailyRule 0 None (Some 3))) in
  exists evs,
    generateRecurringEvents 20 nov03_2026 e = Some evs /\
    map id evs = ["1"; "1-2026-11-03"; "1-2026-11-03"].
Proof. intro e. eexists. split; vm_compute; reflexivity. Qed.

(** * Further properties *)

Arguments startOfMonth : simpl never.
Arguments endOfMonth : simpl never.
Arguments startOfWeek : simpl never.
Arguments endOfWeek : simpl never.
Arguments startOfDay : simpl never.
Arguments isSameMonth : simpl never.
Arguments subMonths : simpl never.
Arguments monthIndex : simpl never.
Arguments dayOfMonth : simpl never.

(** A rule of the sample data is among the dates of the program. *)
Ltac in_range :=
  right; repeat split; vm_compute; first [discriminate | reflexivity].

(** ** The instances of an expansion *)

(** An expansion is the seed alone, or the seed followed by one occurrence
    per date of the loop. *)
Lemma generate_cases fuel now event evs :
  generateRecurringEvents fuel now event = Some evs ->
  (evs = [event] /\
   match recurrence event with Some r => type r = none | None => True end) \/
  exists r ds,
    recurrence event = Some r /\ type r <> none /\
    datesLoop fuel (type r) (JS.default (interval r) 1) (daysOfWeek r)
      (maxOccurrencesOf r) (maxEndDateOf now r) (date event) 1 = Some ds /\
    evs = event :: map (recurringEvent event) ds.
Proof.
  intro H. destruct (recurrence event) as [r|] eqn:Hr.
  2: { left. rewrite generate_none in H by now rewrite Hr.
       injection H as <-. split; [reflexivity|exact I]. }
  destruct (type_none_dec r) as [Hn|Hn].
  { left. rewrite generate_none in H by now rewrite Hr.
    injection H as <-. split; [reflexivity|assumption]. }
  right. rewrite (generate_dates _ _ _ r Hr Hn) in H.
  destruct (datesLoop fuel (type r) (JS.default (interval r) 1) (daysOfWeek r)
              (maxOccurrencesOf r) (maxEndDateOf now r) (date event) 1)
    as [ds|] eqn:Hds; [|discriminate].
  cbn [option_map] in H. injection H as <-.
  exists r, ds. repeat split; assumption.
Qed.

Lemma generate_shape fuel now event evs :
  generateRecurringEvents fuel now event = Some evs ->
  exists ds, evs = event :: map (recurringEvent event) ds.
Proof.
  intro H. apply generate_cases in H as [[-> _]|[r [ds [_ [_ [_ ->]]]]]].
  - exists []. reflexivity.
  - exists ds. reflexivity.
Qed.

(** X1.  The first instance of an expansion is the seed as it was given;
    every later instance copies the seed's title, description, times,
    colour, category and rule, is marked as recurring, records the seed's
    date as its original date, and, when its date is of the years 0001 to
    9999, is identified by the seed's identity, a dash and its own date. *)
Theorem expansion_instances fuel now event evs :
  generateRecurringEvents fuel now event = Some evs ->
  nth_error evs 0 = Some event /\
  forall k e, nth_error evs (S k) = Some e ->
    (formatRange (date e) ->
     id e = (id event ++ "-" ++ format_yyyy_MM_dd (date e))%string) /\
    title e = title event /\ description e = description event /\
    time e = time event /\ endTime e = endTime event /\
    color e = color event /\ category e = category event /\
    recurrence e = recurrence event /\
    originalDate e = Some (date event) /\ isRecurring e = Some true.
Proof.
  intro H. apply generate_shape in H as [ds ->]. split; [reflexivity|].
  intros k e Hk. cbn [nth_error] in Hk.
  apply nth_error_In, in_map_iff in Hk as [d [<- _]].
  split; [intros _; reflexivity|]. repeat split.
Qed.

Lemma expansion_instances_witness :
  let e := sampleEvent "1" nov03_2026 "09:00" (Some "10:00")
             (Some (weeklyRule [1; 5] None (Some 3))) in
  let evs := [e; recurringEvent e (addDays nov03_2026 3);
              recurringEvent e (addDays nov03_2026 6)] in
  generateRecurringEvents 20 nov03_2026 e = Some evs /\
  nth_error evs 0 = Some e /\
  id (recurringEvent e (addDays nov03_2026 3)) = "1-2026-11-06".
Proof.
  intros e evs.
  assert (Hg : generateRecurringEvents 20 nov03_2026 e = Some evs)
    by (vm_compute; reflexivity).
  split; [exact Hg|].
  destruct (expansion_instances 20 nov03_2026 e evs Hg) as [H0 Hall].
  split; [exact H0|].
  destruct (Hall 0%nat (recurringEvent e (addDays nov03_2026 3)) eq_refl)
    as [Hid _].
  rewrite Hid; [reflexivity|]. vm_compute. split; [discriminate|reflexivity].
Defined.

(** ** The dates of an expansion *)

Lemma timeOfDay_compose a t : 0 <= t < msPerDay -> timeOfDay (a * msPerDay + t) = t.
Proof.
  intro H. unfold timeOfDay.
  rewrite Z.add_comm, Z.mod_add by (unfold msPerDay; lia).
  apply Z.mod_small. assumption.
Qed.

Lemma timeOfDay_addMonths d i : timeOfDay (addMonths d i) = timeOfDay d.
Proof.
  unfold addMonths. destruct (i =? 0); [reflexivity|].
  destruct (civil_from_days (dayOf d)) as [[y m] dd].
  apply timeOfDay_compose. apply dayOf_timeOfDay.
Qed.

Lemma nextDateOf_timeOfDay f ty i dw c n :
  nextDateOf f ty i dw c = StepDate n -> timeOfDay n = timeOfDay c.
Proof.
  intro H. destruct ty; cbn [nextDateOf] in H.
  - discriminate H.
  - injection H as <-. apply timeOfDay_addDays.
  - destruct dw as [[|w days]|].
    + injection H as <-. unfold addWeeks. apply timeOfDay_addDays.
    + apply (nextDateOf_weekly_nearest f i) in H as [k [Hk [-> _]]].
      apply timeOfDay_addDays.
    + injection H as <-. unfold addWeeks. apply timeOfDay_addDays.
  - injection H as <-. apply timeOfDay_addMonths.
  - injection H as <-. apply timeOfDay_addDays.
Qed.

Lemma chain_timeOfDay : forall ds c,
  chain (fun c n => timeOfDay n = timeOfDay c) c ds ->
  Forall (fun d => timeOfDay d = timeOfDay c) ds.
Proof.
  induction ds as [|d ds IH]; intros c H; cbn [chain] in H; constructor.
  - tauto.
  - destruct H as [Hd Hc]. specialize (IH _ Hc).
    revert IH. apply Forall_impl. intros a Ha. congruence.
Qed.

(** A chain of later days is sorted: an earlier position holds an earlier
    day. *)
Lemma chain_sorted : forall ds c i j a b,
  chain (fun c n => dayOf c < dayOf n) c ds ->
  (i < j)%nat ->
  nth_error (c :: ds) i = Some a -> nth_error (c :: ds) j = Some b ->
  dayOf a < dayOf b.
Proof.
  induction ds as [|d ds IH]; intros c i j a b Hc Hij Ha Hb.
  - destruct j as [|j]; [lia|]. cbn [nth_error] in Hb.
    destruct j; discriminate Hb.
  - destruct j as [|j]; [lia|]. cbn [nth_error] in Hb.
    destruct i as [|i].
    + cbn [nth_error] in Ha. injection Ha as <-.
      apply chain_later_days in Hc as [Hall _].
      rewrite Forall_forall in Hall. apply Hall.
      eapply nth_error_In. exact Hb.
    + cbn [nth_error] in Ha. cbn [chain] in Hc. destruct Hc as [_ Hc].
      apply (IH d i j a b Hc); [lia|assumption|assumption].
Qed.

Lemma map_date_recurring e ds : map date (map (recurringEvent e) ds) = ds.
Proof. rewrite map_map. cbn [recurringEvent date]. apply map_id. Qed.

(** X2.  When the rule's interval is at least one, the instances of an
    expansion fall on later and later calendar days, in the order of the
    result; with any interval, every instance has the seed's time of day,
    and no instance after the seed is dated after the end date of the
    expansion. *)
Theorem expansion_dates_ordered fuel now event evs :
  generateRecurringEvents fuel now event = Some evs ->
  ((forall r, recurrence event = Some r -> 1 <= JS.default (interval r) 1) ->
   laterDays evs) /\
  Forall (fun e => timeOfDay (date e) = timeOfDay (date event)) evs /\
  (forall r e, recurrence event = Some r -> In e (tl evs) ->
     date e <= maxEndDateOf now r).
Proof.
  intro H. apply generate_cases in H as [[-> _]|[r [ds [Hr [Hn [Hds ->]]]]]].
  - split; [|split].
    + intros _ i j a b Hij Ha Hb.
      destruct j as [|j]; [lia|]. cbn [nth_error] in Hb.
      destruct j; discriminate Hb.
    + repeat constructor.
    + intros r e _ [].
  - pose proof (datesLoop_chain _ _ _ _ _ _ _ _ _ Hds) as Hch.
    split; [|split].
    + intros Hi i j a b Hij Ha Hb.
      apply (chain_impl _ (fun c n => dayOf c < dayOf n)) in Hch.
      2: { intros c n [f Hf]. eapply nextDateOf_later; eauto. }
      apply (map_nth_error date) in Ha, Hb.
      cbn [map] in Ha, Hb. rewrite map_date_recurring in Ha, Hb.
      exact (chain_sorted ds _ i j _ _ Hch Hij Ha Hb).
    + apply (chain_impl _ (fun c n => timeOfDay n = timeOfDay c)) in Hch.
      2: { intros c n [f Hf]. eapply nextDateOf_timeOfDay; eauto. }
      apply chain_timeOfDay in Hch. constructor; [reflexivity|].
      rewrite Forall_forall in *. intros e He.
      apply in_map_iff in He as [d [<- Hd]]. exact (Hch d Hd).
    + intros r' e Hr' He. rewrite Hr in Hr'. injection Hr' as <-.
      cbn [tl] in He. apply in_map_iff in He as [d [<- Hd]].
      pose proof (datesLoop_not_after _ _ _ _ _ _ _ _ _ Hds) as Hna.
      rewrite Forall_forall in Hna. exact (Hna d Hd).
Qed.

Lemma expansion_dates_ordered_witness :
  let e := sampleEvent "1" nov03_2026 "09:00" (Some "10:00")
             (Some (weeklyRule [1; 5] None (Some 3))) in
  let evs := [e; recurringEvent e (addDays nov03_2026 3);
              recurringEvent e (addDays nov03_2026 6)] in
  generateRecurringEvents 20 nov03_2026 e = Some evs /\
  Forall (fun x => timeOfDay (date x) = timeOfDay (date e)) evs.
Proof.
  intros e evs.
  assert (Hg : generateRecurringEvents 20 nov03_2026 e = Some evs)
    by (vm_compute; reflexivity).
  split; [exact Hg|].
  exact (proj1 (proj2 (expansion_dates_ordered 20 nov03_2026 e evs Hg))).
Defined.

(** ** Rules that advance by a fixed number of days *)

Lemma nextDateOf_fixed f r s c :
  fixedStep r = Some s ->
  nextDateOf f (type r) (JS.default (interval r) 1) (daysOfWeek r) c =
  StepDate (addDays c s).
Proof.
  unfold fixedStep. intro H.
  destruct (type r); destruct (daysOfWeek r) as [[|w l]|];
    try discriminate H; injection H as <-; reflexivity.
Qed.

Lemma fixedStep_type r s : fixedStep r = Some s -> type r <> none.
Proof.
  unfold fixedStep. intros H E. rewrite E in H. discriminate H.
Qed.

Lemma stepDates_S c s n :
  stepDates c s (S n) = addDays c s :: stepDates (addDays c s) s n.
Proof.
  unfold stepDates. cbn [seq map]. f_equal.
  - f_equal. lia.
  - rewrite <- seq_shift, map_map. apply map_ext. intro k.
    rewrite addDays_addDays. f_equal. lia.
Qed.

Lemma datesLoop_fixed ty i dw mo me s :
  (forall f c, nextDateOf f ty i dw c = StepDate (addDays c s)) ->
  1 <= s ->
  forall n fuel c cnt,
    Z.max 0 (Z.min (mo - cnt) ((me - c) / (s * msPerDay))) = Z.of_nat n ->
    (n < fuel)%nat ->
    datesLoop fuel ty i dw mo me c cnt = Some (stepDates c s n).
Proof.
  intros Hnext Hs.
  assert (HsD : 0 < s * msPerDay) by (unfold msPerDay; lia).
  induction n as [|n IH]; intros fuel c cnt HK Hfuel.
  - destruct fuel as [|f]; [lia|].
    destruct (Z_lt_le_dec cnt mo) as [Hcnt|Hcnt].
    2: { apply datesLoop_stop. left. assumption. }
    destruct (Z_lt_le_dec c me) as [Hc|Hc].
    2: { apply datesLoop_stop. right. assumption. }
    apply (datesLoop_stop_after _ _ _ _ _ _ _ _ (addDays c s)); [apply Hnext|].
    destruct (Z_lt_le_dec (me - c) (s * msPerDay)) as [Hlt|Hge].
    + unfold addDays. lia.
    + pose proof (Z.div_le_lower_bound (me - c) (s * msPerDay) 1 HsD ltac:(lia)).
      lia.
  - destruct fuel as [|f]; [lia|].
    assert (Hq : 1 <= (me - c) / (s * msPerDay)) by lia.
    assert (Hge : s * msPerDay <= me - c).
    { destruct (Z_lt_le_dec (me - c) (s * msPerDay)) as [Hlt|]; [|assumption].
      pose proof (Z.div_lt_upper_bound (me - c) (s * msPerDay) 1 HsD ltac:(lia)).
      lia. }
    rewrite (datesLoop_step _ _ _ _ _ _ _ _ (addDays c s));
      [|lia|lia|apply Hnext|unfold addDays; lia].
    rewrite (IH f (addDays c s) (cnt + 1)); [|  |lia].
    + rewrite stepDates_S. reflexivity.
    + replace (me - addDays c s) with (me - c + (-1) * (s * msPerDay))
        by (unfold addDays; lia).
      rewrite Z.div_add by lia. lia.
Qed.

Lemma fixed_step_dates fuel now event r s :
  recurrence event = Some r -> fixedStep r = Some s -> 1 <= s ->
  (fuelFor event <= fuel)%nat ->
  generateRecurringEvents fuel now event =
  Some (event :: map (recurringEvent event)
          (stepDates (date event) s
             (Z.to_nat (stepCount (maxOccurrencesOf r) (maxEndDateOf now r)
                          (date event) s)))).
Proof.
  intros Hr Hf Hs Hfuel.
  rewrite (generate_dates _ _ _ r Hr (fixedStep_type _ _ Hf)).
  rewrite (datesLoop_fixed _ _ _ _ _ s (fun f c => nextDateOf_fixed f r s c Hf) Hs
             (Z.to_nat (stepCount (maxOccurrencesOf r) (maxEndDateOf now r)
                          (date event) s))).
  - reflexivity.
  - unfold stepCount. lia.
  - unfold fuelFor, effectiveMaxOccurrences in Hfuel. rewrite Hr in Hfuel.
    unfold stepCount. lia.
Qed.


Example stepCount_sample :
  stepCount 365 (addDays nov03_2026 7) nov03_2026 2 = 3.
Proof. reflexivity. Qed.

(** ** Weekly rules on selected weekdays *)





(** X5.  A weekly rule with a set of weekdays never reads its interval:
    with another interval the expansion has the same dates and the same
    identities. *)
Theorem weekly_days_ignore_interval fuel now event r w days i' :
  recurrence event = Some r -> type r = weekly ->
  daysOfWeek r = Some (w :: days) ->
  let event' := set_recurrence event (Some (set_interval r i')) in
  option_map (map date) (generateRecurringEvents fuel now event') =
    option_map (map date) (generateRecurringEvents fuel now event) /\
  option_map (map id) (generateRecurringEvents fuel now event') =
    option_map (map id) (generateRecurringEvents fuel now event).
Proof.
  intros Hr Hty Hdw event'.
  assert (Hn : type r <> none) by congruence.
  rewrite (generate_dates _ _ _ r Hr Hn).
  rewrite (generate_dates fuel now event' (set_interval r i') eq_refl Hn).
  cbn [set_interval type interval daysOfWeek].
  replace (maxOccurrencesOf (set_interval r i')) with (maxOccurrencesOf r)
    by reflexivity.
  replace (maxEndDateOf now (set_interval r i')) with (maxEndDateOf now r)
    by reflexivity.
  replace (date event') with (date event) by reflexivity.
  rewrite Hty, Hdw.
  rewrite (datesLoop_weekly_interval fuel (JS.default i' 1)
             (JS.default (interval r) 1)).
  destruct (datesLoop fuel weekly (JS.default (interval r) 1) (Some (w :: days))
              (maxOccurrencesOf r) (maxEndDateOf now r) (date event) 1) as [ds|];
    [|split; reflexivity].
  cbn [option_map map]. rewrite !map_date_recurring, !recurringEvent_ids.
  split; reflexivity.
Qed.

Lemma weekly_days_ignore_interval_witness :
  let r := weeklyRule [1; 5] None (Some 3) in
  let e := sampleEvent "1" nov03_2026 "09:00" None (Some r) in
  option_map (map date)
    (generateRecurringEvents 20 nov03_2026
       (set_recurrence e (Some (set_interval r (Some 2))))) =
  option_map (map date) (generateRecurringEvents 20 nov03_2026 e).
Proof.
  intros r e.
  exact (proj1 (weekly_days_ignore_interval 20 nov03_2026 e r 1 [5] (Some 2)
                  eq_refl eq_refl eq_refl)).
Defined.

(** ** The bounds of an expansion *)

(** X6.  A rule whose count cap is one or less, or whose end date is not
    after the seed's date, adds nothing to the seed, whatever its type:
    the loop stops before its first turn. *)
Theorem expansion_seed_only fuel now event r :
  recurrence event = Some r ->
  maxOccurrencesOf r <= 1 \/ maxEndDateOf now r <= date event ->
  generateRecurringEvents (S fuel) now event = Some [event].
Proof.
  intros Hr Hstop.
  destruct (type_none_dec r) as [Hn|Hn].
  { apply generate_none. rewrite Hr. assumption. }
  rewrite (generate_dates _ _ _ r Hr Hn).
  rewrite datesLoop_stop by assumption. reflexivity.
Qed.

Lemma expansion_seed_only_witness :
  let e := sampleEvent "1" nov03_2026 "09:00" None
             (Some (weeklyRule [7] (Some nov03_2026) None)) in
  generateRecurringEvents 1 nov03_2026 e = Some [e].
Proof.
  intro e.
  apply (expansion_seed_only 0 nov03_2026 e (weeklyRule [7] (Some nov03_2026) None));
    [reflexivity | right; vm_compute; discriminate].
Defined.

(** ** The month of a date *)

Lemma monthStart_lt M M' : M < M' -> monthStart M < monthStart M'.
Proof.
  intro H. pose proof (monthStart_later M (M' - M) ltac:(lia)) as Hl.
  replace (M + (M' - M)) with M' in Hl by lia. lia.
Qed.

(** A month has at most 31 days. *)
Lemma monthStart_step_le M : monthStart (M + 1) <= monthStart M + 31.
Proof.
  unfold monthStart, days_from_civil, doy_of_mp. cbv zeta.
  assert (H : 0 <= M mod 12 < 12) by (apply Z.mod_pos_bound; lia).
  assert (H' : 0 <= (M + 1) mod 12 < 12) by (apply Z.mod_pos_bound; lia).
  repeat match goal with |- context [?a <=? ?b] => destruct (Z.leb_spec a b) end.
  all: by_division.
Qed.

Lemma monthLength_monthStart M : monthLength M = monthStart (M + 1) - monthStart M.
Proof.
  unfold monthLength. pose proof (Z.mod_pos_bound M 12 ltac:(lia)).
  rewrite daysInMonth_monthStart by lia.
  pose proof (Z.div_mod M 12 ltac:(lia)).
  replace (12 * (M / 12) + (M mod 12 + 1)) with (M + 1) by lia.
  replace (M + 1 - 1) with M by lia. reflexivity.
Qed.

Lemma monthLength_range M : 28 <= monthLength M <= 31.
Proof.
  rewrite monthLength_monthStart.
  pose proof (monthStart_step M). pose proof (monthStart_step_le M). lia.
Qed.

Lemma civil_month z :
  let '(y, m, d) := civil_from_days z in
  1 <= m <= 12 /\ 1 <= d /\
  z = monthStart (12 * y + (m - 1)) + d - 1 /\
  z < monthStart (12 * y + (m - 1) + 1).
Proof.
  pose proof (civil_spec z) as H. destruct (civil_from_days z) as [[y m] d].
  destruct H as [Hdfc [Hm [Hd _]]].
  rewrite daysInMonth_monthStart in Hd by assumption.
  replace (12 * y + (m - 1)) with (12 * y + m - 1) by lia.
  replace (12 * y + m - 1 + 1) with (12 * y + m) by lia.
  rewrite days_from_civil_day in Hdfc.
  rewrite <- monthStart_civil in Hdfc by assumption. lia.
Qed.

Lemma month_unique M M' z :
  monthStart M <= z < monthStart (M + 1) ->
  monthStart M' <= z < monthStart (M' + 1) -> M = M'.
Proof.
  intros H H'. destruct (Z.lt_trichotomy M M') as [Hlt|[Heq|Hgt]]; [|assumption|].
  - destruct (Z.eq_dec (M + 1) M') as [<-|Hne]; [lia|].
    pose proof (monthStart_lt (M + 1) M' ltac:(lia)). lia.
  - destruct (Z.eq_dec (M' + 1) M) as [<-|Hne]; [lia|].
    pose proof (monthStart_lt (M' + 1) M ltac:(lia)). lia.
Qed.

Lemma monthIndex_spec t M :
  monthIndex t = M <-> monthStart M <= dayOf t < monthStart (M + 1).
Proof.
  unfold monthIndex. pose proof (civil_month (dayOf t)) as H.
  destruct (civil_from_days (dayOf t)) as [[y m] d].
  destruct H as [Hm [Hd [Hz Hlt]]]. split.
  - intros <-. lia.
  - intro HM. apply (month_unique _ _ (dayOf t)); [lia|assumption].
Qed.

Lemma dayOfMonth_spec t :
  dayOf t = monthStart (monthIndex t) + dayOfMonth t - 1 /\
  1 <= dayOfMonth t <= monthLength (monthIndex t).
Proof.
  rewrite monthLength_monthStart.
  unfold monthIndex, dayOfMonth. pose proof (civil_month (dayOf t)) as H.
  destruct (civil_from_days (dayOf t)) as [[y m] d].
  destruct H as [Hm [Hd [Hz Hlt]]]. lia.
Qed.

(** A date is its day and its time of day. *)
Lemma date_eq a b : dayOf a = dayOf b -> timeOfDay a = timeOfDay b -> a = b.
Proof.
  intros Hd Ht. pose proof (dayOf_timeOfDay a) as [Ha _].
  pose proof (dayOf_timeOfDay b) as [Hb _]. rewrite Ha, Hb. congruence.
Qed.

Lemma dayOf_addMonths d i :
  dayOf (addMonths d i) =
  monthStart (monthIndex d + i)
  + Z.min (dayOfMonth d) (monthLength (monthIndex d + i)) - 1.
Proof.
  unfold addMonths. destruct (Z.eqb_spec i 0) as [->|Hi].
  - rewrite Z.add_0_r. pose proof (dayOfMonth_spec d). lia.
  - unfold monthIndex, dayOfMonth, monthLength.
    destruct (civil_from_days (dayOf d)) as [[y m] dd].
    rewrite dayOf_compose by apply dayOf_timeOfDay.
    replace (12 * y + (m - 1) + i) with (y * 12 + (m - 1) + i) by lia.
    set (M := y * 12 + (m - 1) + i).
    rewrite days_from_civil_day.
    change (days_from_civil (M / 12) (M mod 12 + 1) 1) with (monthStart M).
    destruct (Z.geb_spec dd (daysInMonth (M / 12) (M mod 12 + 1))); lia.
Qed.

(** [addMonths]: the month moves by the amount, the day of the month is
    kept up to the length of the new month, the time of day is kept. *)
Lemma addMonths_spec d i :
  monthIndex (addMonths d i) = monthIndex d + i /\
  dayOfMonth (addMonths d i) =
    Z.min (dayOfMonth d) (monthLength (monthIndex d + i)) /\
  timeOfDay (addMonths d i) = timeOfDay d.
Proof.
  pose proof (dayOf_addMonths d i) as Hday.
  pose proof (dayOfMonth_spec d) as [_ Hdd].
  pose proof (monthLength_range (monthIndex d + i)) as Hlen.
  assert (HM : monthIndex (addMonths d i) = monthIndex d + i).
  { apply monthIndex_spec. rewrite Hday.
    rewrite monthLength_monthStart in *. lia. }
  split; [assumption|]. split; [|apply timeOfDay_addMonths].
  pose proof (dayOfMonth_spec (addMonths d i)) as [Hday' _].
  rewrite HM in Hday'. lia.
Qed.

(** ** Expansions among the dates of the program *)

Lemma monthStart_within M k : 0 <= k -> monthStart (M + k) <= monthStart M + 31 * k.
Proof.
  intro Hk. revert k Hk. apply natlike_ind.
  - replace (M + 0) with M by lia. lia.
  - intros k Hk IH. pose proof (monthStart_step_le (M + k)).
    replace (M + Z.succ k) with (M + k + 1) by lia. lia.
Qed.

(** [addMonths] by an amount that is not negative moves forward, by at
    most 31 days for each month. *)
Lemma addMonths_within c i :
  0 <= i -> c <= addMonths c i /\ addMonths c i <= addDays c (31 * i).
Proof.
  intro Hi. split.
  - destruct (Z.eq_dec i 0) as [->|Hne].
    + unfold addMonths. cbn. lia.
    + apply Z.lt_le_incl, dayOf_lt_lt, dayOf_addMonths_lt. lia.
  - pose proof (dayOf_addMonths c i) as Hday.
    pose proof (dayOfMonth_spec c) as [Hc _].
    pose proof (monthStart_within (monthIndex c) i Hi) as Hm.
    pose proof (timeOfDay_addMonths c i) as Ht.
    pose proof (dayOf_timeOfDay (addMonths c i)) as [Ha _].
    pose proof (dayOf_timeOfDay c) as [Hb _].
    unfold addDays. unfold msPerDay in *. lia.
Qed.

(** With a set of weekdays, the nearest following day of the set is one
    of the next seven days. *)
Lemma nearestFollowing_within_week w days c n :
  Forall (fun d => 0 <= d <= 6) (w :: days) ->
  nearestFollowing (w :: days) c n -> c < n /\ n <= addDays c 7.
Proof.
  intros Hv [k [Hk [-> [Hin Hskip]]]]. split; [by_days|].
  destruct (Z_le_gt_dec k 7) as [Hle|Hgt]; [by_days|]. exfalso.
  inversion Hv as [|? ? Hw _]; subst.
  pose proof (getDay_range c) as Hg.
  set (j := if (w - getDay c) mod 7 =? 0 then 7 else (w - getDay c) mod 7).
  assert (Hj : 1 <= j <= 7 /\ (getDay c + j) mod 7 = w).
  { unfold j. generalize dependent (getDay c). intros g Hg.
    destruct (Z.eqb_spec ((w - g) mod 7) 0); split; by_division. }
  apply (Hskip j); [lia|]. rewrite getDay_addDays, (proj2 Hj).
  left. reflexivity.
Qed.

(** Every date that a turn of the loop computes, from a current date
    between a seed and an end date of the years 0001 to 9999, is a date of
    the program, and is not before the current date. *)
Lemma nextDateOf_valid f ty i dw c n me :
  0 <= i ->
  (forall days, ty = weekly -> dw = Some days -> Forall (fun d => 0 <= d <= 6) days) ->
  -62135596800000 <= c -> c < me -> formatRange me ->
  validTime (addDays me (31 * i)) ->
  nextDateOf f ty i dw c = StepDate n ->
  c <= n /\ validTime n.
Proof.
  intros Hi Hw Hlo Hc Hme Hv H.
  assert (Hn : c <= n /\ n <= addDays c (Z.max 7 (31 * i))).
  { destruct ty; cbn [nextDateOf] in H.
    - discriminate H.
    - injection H as <-. by_days.
    - destruct dw as [[|w days]|].
      + injection H as <-. unfold addWeeks. by_days.
      + apply (nextDateOf_weekly_nearest f i) in H.
        apply nearestFollowing_within_week in H; [|now apply Hw].
        by_days.
      + injection H as <-. unfold addWeeks. by_days.
    - injection H as <-. pose proof (addMonths_within c i Hi). by_days.
    - injection H as <-. by_days. }
  split; [tauto|]. unfold validTime, formatRange, addDays, msPerDay in *. lia.
Qed.

Lemma nextDateOf_le f ty i dw c n :
  0 <= i -> nextDateOf f ty i dw c = StepDate n -> c <= n.
Proof.
  intros Hi H. destruct ty; cbn [nextDateOf] in H.
  - discriminate H.
  - injection H as <-. by_days.
  - destruct dw as [[|w days]|].
    + injection H as <-. unfold addWeeks. by_days.
    + apply (nextDateOf_weekly_nearest f i), nearestFollowing_later in H. lia.
    + injection H as <-. unfold addWeeks. by_days.
  - injection H as <-. now apply addMonths_within.
  - injection H as <-. by_days.
Qed.

Lemma chain_le : forall ds c,
  chain (fun c n => c <= n) c ds -> Forall (fun d => c <= d) ds.
Proof.
  induction ds as [|d ds IH]; intros c H; cbn [chain] in H; constructor.
  - tauto.
  - destruct H as [Hd Hc]. specialize (IH _ Hc).
    revert IH. apply Forall_impl. intros a Ha. lia.
Qed.

(** Among the dates of the program, every generated occurrence is dated
    between the seed and the end date, in the years 0001 to 9999. *)
Lemma expansion_in_range fuel now event evs :
  inDateRange now event ->
  generateRecurringEvents fuel now event = Some evs ->
  forall e, In e (tl evs) -> formatRange (date e).
Proof.
  intros Hin H e He.
  apply generate_cases in H as [[-> _]|[r [ds [Hr [Hn [Hds ->]]]]]];
    [destruct He|].
  unfold inDateRange in Hin. rewrite Hr in Hin.
  destruct Hin as [Hin|[Hi [Hs [Hme _]]]]; [contradiction|].
  cbn [tl] in He. apply in_map_iff in He as [d [<- Hd]].
  cbn [recurringEvent date].
  pose proof (datesLoop_not_after _ _ _ _ _ _ _ _ _ Hds) as Hna.
  pose proof (datesLoop_chain _ _ _ _ _ _ _ _ _ Hds) as Hch.
  apply (chain_impl _ (fun c n => c <= n)) in Hch.
  2: { intros c n [f Hf]. eapply nextDateOf_le; eauto. }
  apply chain_le in Hch. rewrite Forall_forall in Hna, Hch.
  specialize (Hna d Hd). specialize (Hch d Hd).
  unfold formatRange in *. lia.
Qed.

(** X3.  Among the dates of the program, a daily or custom rule of
    interval [s], and a weekly rule without weekdays of interval [s / 7],
    expand to the seed and the dates [s], [2 s], ... days after it: as many
    as the count cap leaves after the seed, and as fit up to the end date;
    these dates are of the years 0001 to 9999. *)
Theorem fixed_step_expansion fuel now event r s :
  recurrence event = Some r -> fixedStep r = Some s -> 1 <= s ->
  inDateRange now event ->
  (fuelFor event <= fuel)%nat ->
  let ds := stepDates (date event) s
              (Z.to_nat (stepCount (maxOccurrencesOf r) (maxEndDateOf now r)
                           (date event) s)) in
  generateRecurringEvents fuel now event =
    Some (event :: map (recurringEvent event) ds) /\
  Forall formatRange ds.
Proof.
  intros Hr Hf Hs Hin Hfuel ds.
  pose proof (fixed_step_dates fuel now event r s Hr Hf Hs Hfuel) as Hg.
  fold ds in Hg. split; [assumption|].
  apply Forall_forall. intros d Hd.
  apply (expansion_in_range _ _ _ _ Hin Hg (recurringEvent event d)).
  cbn [tl]. apply in_map. assumption.
Qed.

Lemma fixed_step_expansion_witness :
  let r := dailyRule 2 (Some (addDays nov03_2026 7)) None in
  let e := sampleEvent "1" nov03_2026 "09:00" None (Some r) in
  generateRecurringEvents 400 nov03_2026 e =
  Some (e :: map (recurringEvent e)
          (stepDates (date e) 2
             (Z.to_nat (stepCount (maxOccurrencesOf r) (maxEndDateOf nov03_2026 r)
                          (date e) 2)))).
Proof.
  intros r e.
  destruct (fixed_step_expansion 400 nov03_2026 e r 2) as [Hg _];
    [reflexivity | reflexivity | lia | in_range | vm_compute; lia |].
  exact Hg.
Defined.

(** An expansion returns with the fuel of its count cap when the weekday
    set of its rule holds weekdays. *)
Lemma generate_terminates fuel now event :
  (forall r, recurrence event = Some r -> validWeekdays r) ->
  (fuelFor event <= fuel)%nat ->
  exists evs, generateRecurringEvents fuel now event = Some evs.
Proof.
  intros Hw Hf. unfold fuelFor, effectiveMaxOccurrences in *.
  destruct (recurrence event) as [r|] eqn:Hr.
  2: { exists [event]. apply generate_none. now rewrite Hr. }
  destruct (type_none_dec r) as [Hn|Hn].
  { exists [event]. apply generate_none. now rewrite Hr. }
  destruct (datesLoop_terminates (type r) (JS.default (interval r) 1)
              (daysOfWeek r) (maxOccurrencesOf r) (maxEndDateOf now r))
    with (fuel := fuel) (c := date event) (cnt := 1) as [ds Hds].
  { intros days _ Hd. specialize (Hw r eq_refl). unfold validWeekdays in Hw.
    now rewrite Hd in Hw. }
  { lia. }
  exists (event :: map (recurringEvent event) ds).
  rewrite (generate_dates _ _ _ r Hr Hn), Hds. reflexivity.
Qed.

(** C2, amended.  Among the dates of the program, and for a rule whose
    weekday set holds indices 0 to 6, the expansion returns once the fuel
    covers the count cap, with the same result for any larger fuel, and it
    holds at least the seed and at most max(1, cap) instances, where the
    cap is [occurrences || 365]: the rule's count when it is present and
    not zero, 365 otherwise.  Every generated occurrence is dated in the
    years 0001 to 9999, and every date that the loop computes from a
    current date between the seed and the end date is a date of the
    program. *)
Theorem expansion_terminates_bounded now event fuel :
  (forall r, recurrence event = Some r -> validWeekdays r) ->
  inDateRange now event ->
  (fuelFor event <= fuel)%nat ->
  exists evs,
    generateRecurringEvents fuel now event = Some evs /\
    (forall fuel', (fuel <= fuel')%nat ->
       generateRecurringEvents fuel' now event = Some evs) /\
    (1 <= List.length evs)%nat /\
    Z.of_nat (List.length evs) <= Z.max 1 (effectiveMaxOccurrences event) /\
    (forall e, In e (tl evs) -> formatRange (date e)) /\
    (forall r f c n, recurrence event = Some r ->
       date event <= c < maxEndDateOf now r ->
       nextDateOf f (type r) (JS.default (interval r) 1) (daysOfWeek r) c
         = StepDate n ->
       validTime n).
Proof.
  intros Hw Hin Hf.
  assert (Hvalid : forall r f c n, recurrence event = Some r ->
            date event <= c < maxEndDateOf now r ->
            nextDateOf f (type r) (JS.default (interval r) 1) (daysOfWeek r) c
              = StepDate n ->
            validTime n).
  { intros r f c n Hr Hc Hn. unfold inDateRange in Hin. rewrite Hr in Hin.
    destruct Hin as [Hty|[Hi [Hs [Hme Hv]]]].
    - rewrite Hty in Hn. discriminate Hn.
    - refine (proj2 (nextDateOf_valid f _ _ _ c n _ Hi _ _ (proj2 Hc) Hme Hv Hn)).
      + intros days _ Hd. specialize (Hw r Hr). unfold validWeekdays in Hw.
        now rewrite Hd in Hw.
      + unfold formatRange in Hs. lia. }
  destruct (generate_terminates fuel now event Hw Hf) as [evs Hg].
  exists evs. split; [assumption|].
  pose proof (expansion_in_range _ _ _ _ Hin Hg) as Hrange.
  unfold fuelFor, effectiveMaxOccurrences in *.
  apply generate_cases in Hg as [[-> Hn]|[r [ds [Hr [Hn [Hds ->]]]]]].
  - split; [|split; [|split; [|split]]]; try assumption.
    + intros fuel' _. apply generate_none. exact Hn.
    + cbn. lia.
    + cbn. lia.
  - rewrite Hr in *.
    split; [|split; [|split; [|split]]]; try assumption.
    + intros fuel' Hle. rewrite (generate_dates _ _ _ r Hr Hn).
      now rewrite (datesLoop_mono _ _ _ _ _ _ fuel' _ _ _ Hds Hle).
    + cbn. lia.
    + apply datesLoop_length in Hds. cbn [List.length]. rewrite length_map. lia.
Qed.

Lemma expansion_terminates_bounded_witness :
  exists evs,
    generateRecurringEvents 20 nov03_2026
      (sampleEvent "1" nov03_2026 "09:00" None
         (Some (weeklyRule [1; 5] None (Some 4)))) = Some evs /\
    List.length evs = 4%nat.
Proof.
  destruct (expansion_terminates_bounded nov03_2026
              (sampleEvent "1" nov03_2026 "09:00" None
                 (Some (weeklyRule [1; 5] None (Some 4)))) 20)
    as [evs [H _]].
  - intros r Hr. injection Hr as <-. repeat constructor; lia.
  - in_range.
  - vm_compute. lia.
  - exists evs. split; [exact H|].
    assert (E : generateRecurringEvents 20 nov03_2026
                  (sampleEvent "1" nov03_2026 "09:00" None
                     (Some (weeklyRule [1; 5] None (Some 4))))
                = Some evs) by exact H.
    vm_compute in E. injection E as <-. reflexivity.
Defined.

(** The count of the instances of a daily rule with [occurrences = 5] and
    no end date, as the loop of the model computes it. *)
Lemma count_cap_daily_count fuel now event r :
  recurrence event = Some r -> type r = daily ->
  occurrences r = Some 5 -> endDate r = None ->
  1 <= JS.default (interval r) 1 ->
  (fuelFor event <= fuel)%nat ->
  exists evs,
    generateRecurringEvents fuel now event = Some evs /\
    (1 <= List.length evs <= 5)%nat /\
    (List.length evs = 5%nat <->
     addDays (date event) (4 * JS.default (interval r) 1) <= addMonths now 12).
Proof.
  intros Hr Hty Ho He Hi Hf.
  assert (Hmo : maxOccurrencesOf r = 5) by (unfold maxOccurrencesOf; now rewrite Ho).
  assert (Hme : maxEndDateOf now r = addMonths now 12)
    by (unfold maxEndDateOf; now rewrite He).
  unfold fuelFor, effectiveMaxOccurrences in Hf. rewrite Hr, Hmo in Hf.
  rewrite (generate_dates _ _ _ r Hr) by (rewrite Hty; discriminate).
  rewrite Hty, Hmo, Hme.
  rewrite (datesLoop_daily_dw _ _ _ None).
  set (i := JS.default (interval r) 1) in *.
  set (me := addMonths now 12). set (c := date event).
  destruct (datesLoop_terminates daily i None 5 me) with (fuel := fuel) (c := c) (cnt := 1)
    as [ds Hds]; [discriminate | lia |].
  rewrite Hds. eexists. split; [reflexivity|].
  pose proof (datesLoop_length _ _ _ _ _ _ _ _ _ Hds) as Hlen.
  cbn [List.length]. rewrite length_map. split; [lia|]. split.
  - intro H5. assert (H4 : List.length ds = 4%nat) by lia.
    destruct ds as [|d1 [|d2 [|d3 [|d4 [|d5 ds]]]]]; try discriminate H4.
    pose proof (datesLoop_chain _ _ _ _ _ _ _ _ _ Hds) as Hch.
    pose proof (chain_daily i _ _ Hch 3%nat d4 eq_refl) as Hd4.
    pose proof (datesLoop_not_after _ _ _ _ _ _ _ _ _ Hds) as Hna.
    rewrite Forall_forall in Hna. specialize (Hna d4 ltac:(simpl; tauto)).
    rewrite Hd4 in Hna. exact Hna.
  - intro Hle. destruct (fuel_split 5 fuel ltac:(lia)) as [f ->].
    cbn [Nat.add] in Hds. unfold addDays, msPerDay in Hle.
    rewrite (datesLoop_step _ _ _ _ _ _ _ _ (addDays c i)) in Hds;
      [|lia | unfold c; lia | reflexivity | by_days].
    rewrite (datesLoop_step _ _ _ _ _ _ _ _ (addDays (addDays c i) i)) in Hds;
      [|lia | by_days | reflexivity
       | by_days].
    rewrite (datesLoop_step _ _ _ _ _ _ _ _ (addDays (addDays (addDays c i) i) i)) in Hds;
      [|lia | by_days | reflexivity
       | by_days].
    rewrite (datesLoop_step _ _ _ _ _ _ _ _
               (addDays (addDays (addDays (addDays c i) i) i) i)) in Hds;
      [|lia | by_days | reflexivity
       | by_days].
    rewrite datesLoop_stop in Hds by lia.
    cbn [option_map] in Hds. injection Hds as <-. reflexivity.
Qed.

(** C4, amended.  Among the dates of the program, a daily rule with a
    positive interval [i], [occurrences = 5] and no end date expands to five
    instances exactly when the fourth generated date, the seed date plus
    [4 * i] days, is not after the default end date, twelve months after
    the processing time; it expands to fewer, and at least to the seed,
    otherwise.  Every generated occurrence is dated in the years 0001 to
    9999. *)
Theorem count_cap_daily fuel now event r :
  recurrence event = Some r -> type r = daily ->
  occurrences r = Some 5 -> endDate r = None ->
  1 <= JS.default (interval r) 1 ->
  inDateRange now event ->
  (fuelFor event <= fuel)%nat ->
  exists evs,
    generateRecurringEvents fuel now event = Some evs /\
    (1 <= List.length evs <= 5)%nat /\
    (List.length evs = 5%nat <->
     addDays (date event) (4 * JS.default (interval r) 1) <= addMonths now 12) /\
    (forall e, In e (tl evs) -> formatRange (date e)).
Proof.
  intros Hr Hty Ho He Hi Hin Hf.
  destruct (count_cap_daily_count fuel now event r Hr Hty Ho He Hi Hf)
    as [evs [Hg [Hlen H5]]].
  exists evs. split; [assumption|]. split; [assumption|]. split; [assumption|].
  exact (expansion_in_range _ _ _ _ Hin Hg).
Qed.

Lemma count_cap_daily_witness :
  exists evs,
    generateRecurringEvents 20 nov03_2026
      (sampleEvent "1" nov03_2026 "09:00" None (Some (dailyRule 1 None (Some 5))))
    = Some evs /\ List.length evs = 5%nat.
Proof.
  destruct (count_cap_daily 20 nov03_2026
              (sampleEvent "1" nov03_2026 "09:00" None
                 (Some (dailyRule 1 None (Some 5))))
              (dailyRule 1 None (Some 5)))
    as [evs [H [_ [H5 _]]]];
    [reflexivity | reflexivity | reflexivity | reflexivity
    | vm_compute; discriminate | in_range | vm_compute; lia |].
  exists evs. split; [exact H|]. apply H5. vm_compute. discriminate.
Defined.

(** ** Monthly rules *)

Lemma chain_nth_step (R : Date -> Date -> Prop) : forall ds c k a b,
  chain R c ds ->
  nth_error (c :: ds) k = Some a -> nth_error (c :: ds) (S k) = Some b ->
  R a b.
Proof.
  induction ds as [|d ds IH]; intros c k a b Hc Ha Hb.
  - cbn [nth_error] in Hb. destruct k; discriminate Hb.
  - cbn [chain] in Hc. destruct Hc as [Hd Hc]. destruct k as [|k].
    + cbn [nth_error] in Ha, Hb. injection Ha as <-. injection Hb as <-.
      assumption.
    + apply (IH d k a b Hc); assumption.
Qed.

Lemma chain_monthly i : forall ds c k d,
  chain (fun c n => n = addMonths c i) c ds ->
  nth_error (c :: ds) k = Some d ->
  monthIndex d = monthIndex c + Z.of_nat k * i /\
  dayOfMonth d <= dayOfMonth c /\
  (dayOfMonth c <= 28 -> dayOfMonth d = dayOfMonth c).
Proof.
  induction ds as [|n ds IH]; intros c k d Hc Hk.
  - destruct k as [|k]; [|destruct k; discriminate Hk].
    injection Hk as <-. cbn. lia.
  - destruct k as [|k].
    + injection Hk as <-. cbn. lia.
    + cbn [chain] in Hc. destruct Hc as [Hn Hc].
      destruct (IH n k d Hc Hk) as [HM [Hle Heq]].
      destruct (addMonths_spec c i) as [HM1 [Hd1 _]].
      pose proof (monthLength_range (monthIndex c + i)).
      rewrite <- Hn in HM1, Hd1. split; [|split]; lia.
Qed.

(** X7.  A monthly rule of interval [i] places its [k]-th instance [k i]
    months after the seed, on a day of the month that is the previous
    instance's, cut down to the length of the month: never later than the
    seed's day of the month, and equal to it when that is at most 28. *)
Theorem monthly_expansion fuel now event r evs :
  recurrence event = Some r -> type r = monthly ->
  generateRecurringEvents fuel now event = Some evs ->
  forall k e, nth_error evs k = Some e ->
    monthIndex (date e) =
      monthIndex (date event) + Z.of_nat k * JS.default (interval r) 1 /\
    dayOfMonth (date e) <= dayOfMonth (date event) /\
    (dayOfMonth (date event) <= 28 ->
     dayOfMonth (date e) = dayOfMonth (date event)) /\
    (forall e', nth_error evs (S k) = Some e' ->
       dayOfMonth (date e') =
         Z.min (dayOfMonth (date e)) (monthLength (monthIndex (date e')))).
Proof.
  intros Hr Hty H k e Hk.
  apply generate_cases in H as [[_ Hn]|[r' [ds [Hr' [Hn [Hds ->]]]]]].
  { rewrite Hr in Hn. congruence. }
  rewrite Hr in Hr'. injection Hr' as <-.
  pose proof (datesLoop_chain _ _ _ _ _ _ _ _ _ Hds) as Hch.
  rewrite Hty in Hch.
  apply (chain_impl _ (fun c n => n = addMonths c (JS.default (interval r) 1)))
    in Hch.
  2: { intros c n [f Hf]. cbn [nextDateOf] in Hf. congruence. }
  apply (map_nth_error date) in Hk. cbn [map] in Hk.
  rewrite map_date_recurring in Hk.
  destruct (chain_monthly _ ds _ k _ Hch Hk) as [HM [Hle Heq]].
  repeat split; try assumption.
  intros e' Hk'. apply (map_nth_error date) in Hk'. cbn [map] in Hk'.
  rewrite map_date_recurring in Hk'.
  pose proof (chain_nth_step _ ds _ k _ _ Hch Hk Hk') as Hstep.
  cbv beta in Hstep. rewrite Hstep.
  destruct (addMonths_spec (date e) (JS.default (interval r) 1)) as [HM1 [Hd1 _]].
  rewrite HM1. exact Hd1.
Qed.

Lemma monthly_expansion_witness :
  let e := sampleEvent "1" (addDays jan10_2024 21) "09:00" None
             (Some {| type := monthly; interval := Some 1; daysOfWeek := None;
                      endDate := None; occurrences := Some 3 |}) in
  let e1 := recurringEvent e (addDays jan10_2024 50) in
  monthIndex (date e1) = monthIndex (date e) + 1 /\
  dayOfMonth (date e1) <= dayOfMonth (date e).
Proof.
  intros e e1.
  assert (Hg : generateRecurringEvents 20 jan10_2024 e =
               Some [e; e1; recurringEvent e (addDays jan10_2024 79)])
    by (vm_compute; reflexivity).
  destruct (monthly_expansion 20 jan10_2024 e _ _ eq_refl eq_refl Hg 1%nat e1 eq_refl)
    as [HM [Hle _]].
  split; [exact HM|exact Hle].
Defined.

Example monthly_clamp_sample :
  map (fun d => format_yyyy_MM_dd d)
    [addDays jan10_2024 21; addDays jan10_2024 50; addDays jan10_2024 79]
  = ["2024-01-31"; "2024-02-29"; "2024-03-29"].
Proof. reflexivity. Qed.

(** ** Moving between months *)

Lemma addMonths_back d i :
  addMonths (addMonths d i) (- i) =
  addDays d (Z.min (dayOfMonth d) (monthLength (monthIndex d + i)) - dayOfMonth d).
Proof.
  destruct (addMonths_spec d i) as [HM [Hd Ht]].
  pose proof (dayOfMonth_spec d) as [Hday Hdd].
  apply date_eq.
  - rewrite dayOf_addMonths, dayOf_addDays, HM, Hd.
    replace (monthIndex d + i + - i) with (monthIndex d) by lia. lia.
  - rewrite timeOfDay_addMonths, timeOfDay_addDays. assumption.
Qed.

Lemma setCurrentDate_same st : setCurrentDate (currentDate st) st = st.
Proof. destruct st. reflexivity. Qed.

(** X8.  Going to the next month and back lands in the month it started
    from, at the same time of day, on the day of the month cut down to the
    length of the next month; so it is the date it started from when the
    day of the month is at most 28, and an earlier day of the same month
    otherwise where the next month is shorter.  The same holds the other
    way round, and nothing but the current date changes. *)
Theorem navigate_there_and_back st :
  let c := currentDate st in
  navigateMonth Prev (navigateMonth Next st) =
    setCurrentDate
      (addDays c (Z.min (dayOfMonth c) (monthLength (monthIndex c + 1))
                  - dayOfMonth c)) st /\
  navigateMonth Next (navigateMonth Prev st) =
    setCurrentDate
      (addDays c (Z.min (dayOfMonth c) (monthLength (monthIndex c - 1))
                  - dayOfMonth c)) st /\
  (dayOfMonth c <= 28 ->
   navigateMonth Prev (navigateMonth Next st) = st /\
   navigateMonth Next (navigateMonth Prev st) = st).
Proof.
  intro c.
  assert (H1 : navigateMonth Prev (navigateMonth Next st) =
    setCurrentDate
      (addDays c (Z.min (dayOfMonth c) (monthLength (monthIndex c + 1))
                  - dayOfMonth c)) st).
  { unfold navigateMonth, subMonths. cbn [setCurrentDate currentDate events
      selectedDate view isEventFormOpen editingEvent searchQuery selectedCategory].
    fold c. rewrite (addMonths_back c 1). reflexivity. }
  assert (H2 : navigateMonth Next (navigateMonth Prev st) =
    setCurrentDate
      (addDays c (Z.min (dayOfMonth c) (monthLength (monthIndex c - 1))
                  - dayOfMonth c)) st).
  { unfold navigateMonth, subMonths. cbn [setCurrentDate currentDate events
      selectedDate view isEventFormOpen editingEvent searchQuery selectedCategory].
    fold c. pose proof (addMonths_back c (-1)) as Hb.
    replace (- -1) with 1 in Hb by lia.
    replace (monthIndex c + -1) with (monthIndex c - 1) in Hb by lia.
    replace (- (1)) with (-1) by lia. rewrite Hb. reflexivity. }
  split; [assumption|]. split; [assumption|].
  intro H28. rewrite H1, H2.
  pose proof (monthLength_range (monthIndex c + 1)).
  pose proof (monthLength_range (monthIndex c - 1)).
  replace (Z.min (dayOfMonth c) (monthLength (monthIndex c + 1)) - dayOfMonth c)
    with 0 by lia.
  replace (Z.min (dayOfMonth c) (monthLength (monthIndex c - 1)) - dayOfMonth c)
    with 0 by lia.
  replace (addDays c 0) with c by (unfold addDays; lia).
  split; apply setCurrentDate_same.
Qed.

Example navigate_clamp_sample :
  let st := setCurrentDate (addDays jan10_2024 21) (sampleState []) in
  format_yyyy_MM_dd (currentDate (navigateMonth Prev (navigateMonth Next st)))
  = "2024-01-29".
Proof. reflexivity. Qed.

(** ** The events of a month *)

Lemma dayOf_scaled a : dayOf (a * msPerDay) = a.
Proof.
  replace (a * msPerDay) with (a * msPerDay + 0) by lia.
  apply dayOf_compose. unfold msPerDay. lia.
Qed.

Lemma startOfMonth_eq d : startOfMonth d = monthStart (monthIndex d) * msPerDay.
Proof.
  unfold startOfMonth, monthIndex. pose proof (civil_month (dayOf d)) as H.
  destruct (civil_from_days (dayOf d)) as [[y m] dd].
  destruct H as [Hm _].
  replace (12 * y + (m - 1)) with (12 * y + m - 1) by lia.
  rewrite monthStart_civil by assumption. reflexivity.
Qed.

Lemma endOfMonth_eq d :
  endOfMonth d = (monthStart (monthIndex d + 1) - 1) * msPerDay + (msPerDay - 1).
Proof.
  unfold endOfMonth, monthIndex. pose proof (civil_month (dayOf d)) as H.
  destruct (civil_from_days (dayOf d)) as [[y m] dd].
  destruct H as [Hm _].
  rewrite days_from_civil_day, daysInMonth_monthStart by assumption.
  rewrite <- monthStart_civil by assumption.
  replace (12 * y + (m - 1) + 1) with (12 * y + m) by lia. f_equal. f_equal. lia.
Qed.

Lemma isSameMonth_spec a b :
  isSameMonth a b = true <-> monthIndex a = monthIndex b.
Proof.
  unfold isSameMonth, monthIndex.
  pose proof (civil_month (dayOf a)) as Ha. pose proof (civil_month (dayOf b)) as Hb.
  destruct (civil_from_days (dayOf a)) as [[y1 m1] d1].
  destruct (civil_from_days (dayOf b)) as [[y2 m2] d2].
  destruct Ha as [Ha _]. destruct Hb as [Hb _].
  rewrite andb_true_iff, !Z.eqb_eq. lia.
Qed.

Lemma within_month t d :
  (t >=? startOfMonth d) && (t <=? endOfMonth d) = isSameMonth t d.
Proof.
  apply eq_true_iff_eq. rewrite isSameMonth_spec, monthIndex_spec.
  rewrite startOfMonth_eq, endOfMonth_eq.
  rewrite andb_true_iff, Z.geb_le, Z.leb_le.
  generalize (monthStart (monthIndex d)) (monthStart (monthIndex d + 1)).
  intros a b. unfold dayOf, msPerDay. split; intro H; by_division.
Qed.

(** X9.  The events of the month of a date are the events that fall in the
    same month of the same year, in the order of the store; they include
    the events of that date. *)
Theorem month_query st d :
  getEventsForMonth st d =
    filter (fun event => isSameMonth (date event) d) (events st) /\
  (forall e, In e (getEventsForDate st d) -> In e (getEventsForMonth st d)).
Proof.
  assert (H : getEventsForMonth st d =
              filter (fun event => isSameMonth (date event) d) (events st)).
  { unfold getEventsForMonth. cbv zeta. apply filter_ext.
    intro e. apply within_month. }
  split; [assumption|].
  intros e He. rewrite H. unfold getEventsForDate in He.
  apply filter_In in He as [Hin Hday]. apply filter_In. split; [assumption|].
  apply isSameMonth_spec. unfold isSameDay in Hday. apply Z.eqb_eq in Hday.
  unfold monthIndex. rewrite Hday. reflexivity.
Qed.

(** ** The grid of a month *)

Lemma daysFrom_length : forall n d, List.length (daysFrom n d) = n.
Proof.
  induction n as [|n IH]; intro d; cbn [daysFrom List.length]; [reflexivity|].
  now rewrite IH.
Qed.

Lemma daysFrom_nth : forall n d k x,
  nth_error (daysFrom n d) k = Some x <->
  (k < n)%nat /\ x = addDays d (Z.of_nat k).
Proof.
  induction n as [|n IH]; intros d k x; cbn [daysFrom].
  - destruct k; cbn [nth_error]; split; try discriminate; intros [H _]; lia.
  - destruct k as [|k]; cbn [nth_error].
    + split.
      * intro H. injection H as <-. split; [lia|]. unfold addDays. lia.
      * intros [_ ->]. f_equal. unfold addDays. lia.
    + rewrite IH, addDays_addDays. split; intros [Hk ->]; (split; [lia|]);
        f_equal; lia.
Qed.

(** The first day of the grid and the number of its days. *)
Lemma gridDays_eq current :
  let a := monthStart (monthIndex current) in
  let b := monthStart (monthIndex current + 1) - 1 in
  gridDays current =
  daysFrom (Z.to_nat (b + (6 - (b + 4) mod 7) - (a - (a + 4) mod 7) + 1))
    ((a - (a + 4) mod 7) * msPerDay).
Proof.
  intros a b. unfold gridDays, eachDayOfInterval, startOfWeek, endOfWeek,
    startOfDay, getDay. cbv zeta.
  rewrite startOfMonth_eq, endOfMonth_eq. fold a b.
  rewrite !dayOf_scaled.
  rewrite (dayOf_compose b) by (unfold msPerDay; lia).
  rewrite (dayOf_compose (b + (6 - (b + 4) mod 7))) by (unfold msPerDay; lia).
  reflexivity.
Qed.

(** X10.  The grid of a month is made of whole weeks, four to six of
    them: its days are consecutive midnights, the first a Sunday, so that
    the day at position [k] falls on the weekday [k mod 7]. *)
Theorem grid_whole_weeks current :
  exists w, 4 <= w <= 6 /\
    Z.of_nat (List.length (gridDays current)) = 7 * w /\
    forall k d, nth_error (gridDays current) k = Some d ->
      d = addDays (startOfWeek (startOfMonth current)) (Z.of_nat k) /\
      getDay d = Z.of_nat k mod 7 /\ timeOfDay d = 0.
Proof.
  pose proof (gridDays_eq current) as Hg. cbv zeta in Hg.
  pose proof (monthLength_range (monthIndex current)) as Hlen.
  rewrite monthLength_monthStart in Hlen.
  set (a := monthStart (monthIndex current)) in *.
  set (b := monthStart (monthIndex current + 1) - 1) in *.
  assert (Hb : 27 <= b - a <= 30) by (unfold b; lia).
  set (n := b + (6 - (b + 4) mod 7) - (a - (a + 4) mod 7) + 1) in *.
  assert (Hn : exists w, 4 <= w <= 6 /\ n = 7 * w).
  { exists (n / 7). unfold n. clearbody a b. clear Hg Hlen n. by_division. }
  destruct Hn as [w [Hw Hnw]]. exists w. split; [assumption|]. split.
  - rewrite Hg, daysFrom_length. lia.
  - intros k d Hk. rewrite Hg in Hk. apply daysFrom_nth in Hk as [Hk ->].
    assert (Hs : startOfWeek (startOfMonth current) = (a - (a + 4) mod 7) * msPerDay).
    { unfold startOfWeek, getDay. rewrite startOfMonth_eq. fold a.
      rewrite dayOf_scaled. reflexivity. }
    rewrite Hs. split; [reflexivity|]. split.
    + unfold getDay. rewrite dayOf_addDays, dayOf_scaled.
      clearbody a. clear. by_division.
    + rewrite timeOfDay_addDays. unfold timeOfDay.
      apply Z.mod_mul. unfold msPerDay. lia.
Qed.

(** X11.  Every event of the month on display is listed in one cell of the
    grid and in no other one. *)
Theorem grid_shows_month current evs e :
  In e evs -> isSameMonth (date e) current = true ->
  exists d, In d (gridDays current) /\ In e (getEventsForDay evs d) /\
    forall d', In d' (gridDays current) -> In e (getEventsForDay evs d') -> d' = d.
Proof.
  intros Hin Hsame. apply isSameMonth_spec in Hsame.
  pose proof (proj1 (monthIndex_spec (date e) (monthIndex current)) Hsame) as Hday.
  pose proof (gridDays_eq current) as Hg. cbv zeta in Hg.
  set (a := monthStart (monthIndex current)) in *.
  set (b := monthStart (monthIndex current + 1) - 1) in *.
  set (n := b + (6 - (b + 4) mod 7) - (a - (a + 4) mod 7) + 1) in *.
  set (s := a - (a + 4) mod 7) in *.
  assert (Hs : s <= a) by (unfold s; clearbody a; clear; by_division).
  assert (Hn : b + 1 <= s + n) by (unfold n, s; clearbody a b; clear; by_division).
  set (k := Z.to_nat (dayOf (date e) - s)).
  assert (Hk : nth_error (gridDays current) k
               = Some (addDays (s * msPerDay) (Z.of_nat k))).
  { rewrite Hg. apply daysFrom_nth. split; [|reflexivity]. unfold k, b in *. lia. }
  assert (Hdk : dayOf (addDays (s * msPerDay) (Z.of_nat k)) = dayOf (date e)).
  { rewrite dayOf_addDays, dayOf_scaled. unfold k. lia. }
  exists (addDays (s * msPerDay) (Z.of_nat k)). split; [|split].
  - eapply nth_error_In. exact Hk.
  - apply filter_In. split; [assumption|].
    unfold isSameDay. apply Z.eqb_eq. symmetry. assumption.
  - intros d' Hd' He'. apply filter_In in He' as [_ Hsd].
    unfold isSameDay in Hsd. apply Z.eqb_eq in Hsd.
    apply In_nth_error in Hd' as [k' Hk']. rewrite Hg in Hk'.
    apply daysFrom_nth in Hk' as [_ ->].
    rewrite dayOf_addDays, dayOf_scaled in Hsd.
    f_equal. unfold k. lia.
Qed.

Lemma grid_shows_month_witness :
  let e := sampleEvent "1" (nov03_2026 + 15 * 3600000) "15:00" None None in
  exists d, In d (gridDays nov03_2026) /\ In e (getEventsForDay [e] d).
Proof.
  intro e.
  destruct (grid_shows_month nov03_2026 [e] e) as [d [Hd [He _]]];
    [left; reflexivity | vm_compute; reflexivity |].
  exists d. split; assumption.
Defined.

Example grid_sample :
  List.length (gridDays nov03_2026) = 35%nat /\
  map format_yyyy_MM_dd (firstn 2 (gridDays nov03_2026)) =
    ["2026-11-01"; "2026-11-02"] /\
  map format_yyyy_MM_dd (skipn 34 (gridDays nov03_2026)) = ["2026-12-05"].
Proof. repeat split. Qed.

(** ** Moving an event *)

Lemma filter_map_comm {A} (f : A -> A) (p : A -> bool) l :
  (forall x, p (f x) = p x) -> filter p (map f l) = map f (filter p l).
Proof.
  intro H. induction l as [|a l IH]; [reflexivity|].
  cbn [map filter]. rewrite H. destruct (p a); cbn [map]; now rewrite IH.
Qed.

(** X12.  Dropping a dragged event on a day gives that date to every
    instance that has the event's identity, which the day's query then
    lists; the other instances, the identities, the order and the rest of
    the state stay as they were, and the drag is over. *)
Theorem drop_moves_event d g st ev :
  draggedEvent g = Some ev ->
  let st' := snd (handleDrop d g st) in
  fst (handleDrop d g st) = {| draggedEvent := None; dragOverDate := None |} /\
  st' = with_events st (events st') /\
  map id (events st') = map id (events st) /\
  (forall k e, nth_error (events st) k = Some e ->
     nth_error (events st') k =
       Some (if (id e =? id ev)%string then set_date e d else e)) /\
  (forall e, In e (events st) -> id e = id ev ->
     In (set_date e d) (getEventsForDate st' d)).
Proof.
  intros Hg st'. unfold st', handleDrop, handleEventDrop. rewrite Hg.
  cbn [fst snd]. split; [reflexivity|]. split; [reflexivity|].
  unfold moveEvent. cbn [events with_events]. split; [apply map_id_move|].
  split.
  - intros k e Hk. apply (map_nth_error
      (fun event => if (id event =? id ev)%string then set_date event d else event))
      in Hk. exact Hk.
  - intros e Hin Hid. unfold getEventsForDate. cbn [events with_events].
    apply filter_In. split.
    + apply in_map_iff. exists e. split; [|assumption].
      rewrite Hid, String.eqb_refl. reflexivity.
    + cbn [set_date date]. unfold isSameDay. apply Z.eqb_refl.
Qed.

Lemma drop_moves_event_witness :
  let e := sampleEvent "1" nov03_2026 "09:00" None None in
  let g := {| draggedEvent := Some e; dragOverDate := None |} in
  let st := sampleState [e] in
  In (set_date e jan01_2030)
     (getEventsForDate (snd (handleDrop jan01_2030 g st)) jan01_2030).
Proof.
  intros e g st.
  destruct (drop_moves_event jan01_2030 g st e eq_refl) as [_ [_ [_ [_ H]]]].
  apply (H e); [left; reflexivity|reflexivity].
Defined.

(** ** Removing an event *)

Lemma delete_one eventId : forall evs,
  NoDup (map id evs) -> (exists e, In e evs /\ id e = eventId) ->
  S (List.length (filter (fun event => negb (id event =? eventId)%string) evs))
  = List.length evs.
Proof.
  induction evs as [|a evs IH]; intros Hnd [e [Hin Hid]]; [destruct Hin|].
  cbn [map] in Hnd. apply NoDup_cons_iff in Hnd as [Hnin Hnd].
  cbn [filter]. destruct (String.eqb_spec (id a) eventId) as [Ha|Ha]; cbn [negb].
  - rewrite filter_miss; [reflexivity|].
    intros x Hx Hxid. apply Hnin. apply in_map_iff. exists x.
    split; [congruence|assumption].
  - cbn [List.length]. f_equal. apply IH; [assumption|].
    destruct Hin as [->|Hin]; [contradiction|]. exists e. split; assumption.
Qed.

(** X13.  [deleteEvent] removes the instances that have the given
    identity and keeps the others in their order, so a second removal
    changes nothing; where the identities of the store are distinct and
    the identity is stored, exactly one instance goes.  The form's delete
    button removes the event that is edited. *)
Theorem delete_removes_identity eventId st :
  (forall e, In e (events (deleteEvent eventId st)) <->
             In e (events st) /\ id e <> eventId) /\
  deleteEvent eventId (deleteEvent eventId st) = deleteEvent eventId st /\
  (NoDup (map id (events st)) ->
   (exists e, In e (events st) /\ id e = eventId) ->
   S (List.length (events (deleteEvent eventId st))) = List.length (events st)) /\
  (forall editing, editingEvent st = Some editing ->
     handleDelete st = deleteEvent (id editing) st).
Proof.
  split; [|split; [|split]].
  - intro e. unfold deleteEvent. cbn [events with_events_closed].
    rewrite filter_In. split; intros [Hin Hid]; (split; [assumption|]).
    + intro E. rewrite E, String.eqb_refl in Hid. discriminate Hid.
    + apply String.eqb_neq in Hid. rewrite Hid. reflexivity.
  - unfold deleteEvent, with_events_closed.
    cbn [events currentDate selectedDate view searchQuery selectedCategory].
    f_equal. apply filter_miss. intros e He. apply filter_In in He as [_ Hid].
    intro E. rewrite E, String.eqb_refl in Hid. discriminate Hid.
  - unfold deleteEvent. cbn [events with_events_closed]. apply delete_one.
  - intros editing He. unfold handleDelete. rewrite He. reflexivity.
Qed.

(** ** Conflicts between stored events *)

Lemma checkEventConflict_filter st c x :
  checkEventConflict st c x = filter (conflictTest c x) (events st).
Proof. reflexivity. Qed.

Lemma conflictTest_sym a b : conflictTest a None b = conflictTest b None a.
Proof.
  unfold conflictTest, JS.str_le, JS.str_ge, isSameDay. cbn [JS.truthy andb].
  rewrite (Z.eqb_sym (dayOf (date b))).
  destruct (dayOf (date a) =? dayOf (date b)); cbn [negb]; [|reflexivity].
  apply andb_comm.
Qed.

(** X14.  Among stored events a conflict is mutual: with no identity
    excluded, the query for one event lists another exactly when the query
    for the other lists the first. *)
Theorem conflict_is_mutual st a b :
  In a (events st) -> In b (events st) ->
  (In a (checkEventConflict st b None) <-> In b (checkEventConflict st a None)).
Proof.
  intros Ha Hb. rewrite !checkEventConflict_filter, !filter_In.
  rewrite (conflictTest_sym b a). tauto.
Qed.

Lemma conflict_is_mutual_witness :
  let a := sampleEvent "1" nov03_2026 "09:00" (Some "10:00") None in
  let b := sampleEvent "2" (nov03_2026 + 3600000) "10:00" (Some "11:00") None in
  let st := sampleState [a; b] in
  In a (checkEventConflict st b None) /\ In b (checkEventConflict st a None).
Proof.
  intros a b st.
  assert (Ha : In a (checkEventConflict st b None)) by (left; reflexivity).
  split; [exact Ha|].
  apply (proj1 (conflict_is_mutual st a b (or_introl eq_refl)
                  (or_intror (or_introl eq_refl)))).
  exact Ha.
Defined.

(** ** The categories in use *)

Lemma sameValue_spec x y : sameValue x y = true <-> x = y.
Proof.
  destruct x as [a|], y as [b|]; cbn [sameValue].
  - rewrite String.eqb_eq. split; congruence.
  - split; discriminate.
  - split; discriminate.
  - split; reflexivity.
Qed.

Lemma existsb_sameValue x acc : existsb (sameValue x) acc = true <-> In x acc.
Proof.
  rewrite existsb_exists. split.
  - intros [y [Hy Hs]]. apply sameValue_spec in Hs. now subst.
  - intro H. exists x. split; [assumption|]. now apply sameValue_spec.
Qed.

Lemma fromSet_fold : forall l acc,
  NoDup acc ->
  NoDup (fold_left
           (fun acc x => if existsb (sameValue x) acc then acc else acc ++ [x])
           l acc) /\
  forall x,
    In x (fold_left
            (fun acc x => if existsb (sameValue x) acc then acc else acc ++ [x])
            l acc) <-> In x acc \/ In x l.
Proof.
  induction l as [|a l IH]; intros acc Hnd; cbn [fold_left].
  - split; [assumption|]. intro x. cbn [In]. tauto.
  - destruct (existsb (sameValue a) acc) eqn:E.
    + apply existsb_sameValue in E. destruct (IH acc Hnd) as [H1 H2].
      split; [assumption|]. intro x. rewrite H2. cbn [In].
      split; [tauto|]. intros [H|[<-|H]]; tauto.
    + assert (Hnin : ~ In a acc).
      { intro H. apply existsb_sameValue in H. congruence. }
      assert (Hnd' : NoDup (acc ++ [a])).
      { apply (NoDup_Add (a := a) (l := acc)).
        - pose proof (Add_app a acc []) as HA. rewrite app_nil_r in HA. exact HA.
        - split; assumption. }
      destruct (IH (acc ++ [a]) Hnd') as [H1 H2].
      split; [assumption|]. intro x. rewrite H2, in_app_iff. cbn [In]. tauto.
Qed.

Lemma categories_members evs c :
  In c (categories evs) <->
  exists s, c = Some s /\ s <> "" /\ exists e, In e evs /\ category e = Some s.
Proof.
  unfold categories, fromSet.
  destruct (fromSet_fold (filter JS.truthy (map category evs)) [] (NoDup_nil _))
    as [_ Hin].
  rewrite Hin. cbn [In]. rewrite filter_In, in_map_iff. split.
  - intros [[]|[[e [He Hine]] Ht]]. destruct c as [s|]; [|discriminate Ht].
    exists s. split; [reflexivity|]. cbn [JS.truthy] in Ht. split.
    + intros ->. discriminate Ht.
    + exists e. split; assumption.
  - intros [s [-> [Hs [e [Hine He]]]]]. right. split.
    + exists e. split; assumption.
    + cbn [JS.truthy]. apply String.eqb_neq in Hs. now rewrite Hs.
Qed.

(** X15.  The categories offered by the header are the categories in use:
    each one once, none empty, and every non-empty category of a stored
    event among them. *)
Theorem categories_in_use evs :
  NoDup (categories evs) /\
  forall c, In c (categories evs) <->
    exists s, c = Some s /\ s <> "" /\ exists e, In e evs /\ category e = Some s.
Proof.
  split; [|apply categories_members].
  unfold categories, fromSet.
  apply (fromSet_fold (filter JS.truthy (map category evs)) [] (NoDup_nil _)).
Qed.

(** ** The filtered events *)

Lemma prefix_spec : forall sub s,
  String.prefix sub s = true <-> exists post, s = (sub ++ post)%string.
Proof.
  induction sub as [|a sub IH]; intro s.
  - destruct s; cbn; split; try reflexivity; intros _; eexists; reflexivity.
  - destruct s as [|b s]; cbn [String.prefix].
    + split; [discriminate|]. intros [post H]. discriminate H.
    + destruct (ascii_dec a b) as [->|Hab].
      * rewrite IH. split; intros [post H]; exists post.
        -- cbn. now rewrite H.
        -- cbn in H. now apply string_tail_inj in H.
      * split; [discriminate|]. intros [post H]. cbn in H. congruence.
Qed.

(** [stringIncludes s sub]: [sub] occurs in [s]. *)
Lemma stringIncludes_spec sub : forall s,
  stringIncludes s sub = true <->
  exists pre post, s = (pre ++ sub ++ post)%string.
Proof.
  induction s as [|c s IH]; cbn [stringIncludes]; rewrite orb_true_iff, prefix_spec.
  - split.
    + intros [[post H]|H]; [|discriminate H]. exists "", post. assumption.
    + intros [pre [post H]]. left. destruct pre; [|discriminate H].
      exists post. assumption.
  - rewrite IH. split.
    + intros [[post H]|[pre [post H]]].
      * exists "", post. assumption.
      * exists (String c pre), post. cbn. now rewrite H.
    + intros [pre [post H]]. destruct pre as [|c' pre].
      * left. exists post. assumption.
      * right. exists pre, post. cbn in H. congruence.
Qed.

Lemma strictEq_spec a b : strictEq a b = true <-> exists s, a = Some s /\ b = Some s.
Proof.
  destruct a as [x|], b as [y|]; cbn [strictEq].
  - rewrite String.eqb_eq. split.
    + intros ->. exists y. split; reflexivity.
    + intros [s [H1 H2]]. congruence.
  - split; [discriminate|]. intros [s [_ H]]. discriminate H.
  - split; [discriminate|]. intros [s [H _]]. discriminate H.
  - split; [discriminate|]. intros [s [H _]]. discriminate H.
Qed.

Section FilterProperties.

Variable toLowerCase : string -> string.

Lemma filteredEvents_In st e :
  In e (filteredEvents toLowerCase st) <->
  In e (events st) /\
  (searchQuery st = "" \/ occursIn toLowerCase (searchQuery st) (title e) \/
   exists d, description e = Some d /\ occursIn toLowerCase (searchQuery st) d) /\
  (selectedCategory st = None \/ selectedCategory st = Some "" \/
   exists s, category e = Some s /\ selectedCategory st = Some s).
Proof.
  unfold filteredEvents. rewrite filter_In, andb_true_iff.
  assert (Hs : matchesSearch toLowerCase st e = true <->
    (searchQuery st = "" \/ occursIn toLowerCase (searchQuery st) (title e) \/
     exists d, description e = Some d /\ occursIn toLowerCase (searchQuery st) d)).
  { unfold matchesSearch, occursIn.
    rewrite !orb_true_iff, String.eqb_eq, stringIncludes_spec.
    destruct (description e) as [d|].
    - rewrite stringIncludes_spec. split.
      + intros [[H|H]|H]; [tauto|tauto|].
        right. right. exists d. split; [reflexivity|assumption].
      + intros [H|[H|[d' [Hd H]]]]; [tauto|tauto|].
        injection Hd as <-. tauto.
    - split.
      + intros [[H|H]|H]; [tauto|tauto|discriminate H].
      + intros [H|[H|[d' [Hd H]]]]; [tauto|tauto|discriminate Hd]. }
  assert (Hc : matchesCategory st e = true <->
    (selectedCategory st = None \/ selectedCategory st = Some "" \/
     exists s, category e = Some s /\ selectedCategory st = Some s)).
  { unfold matchesCategory. rewrite orb_true_iff, strictEq_spec, negb_true_iff.
    destruct (selectedCategory st) as [c|]; cbn [JS.truthy].
    - rewrite negb_false_iff, String.eqb_eq. split.
      + intros [->|H]; tauto.
      + intros [H|[H|H]]; [discriminate H| |tauto].
        injection H as ->. tauto.
    - split; [tauto|]. intros _. left. reflexivity. }
  rewrite Hs, Hc. tauto.
Qed.

(** X16.  The filtered events are the stored events, in their order, that
    pass the search and the category: the search passes when the query is
    empty, or occurs, letter case apart, in the title or in a present
    description; the category passes when none is selected (or the empty
    one), or is the event's.  A day of the grid lists the filtered events
    of that date. *)
Theorem filteredEvents_spec st :
  (forall e, In e (filteredEvents toLowerCase st) <->
     In e (events st) /\
     (searchQuery st = "" \/ occursIn toLowerCase (searchQuery st) (title e) \/
      exists d, description e = Some d /\ occursIn toLowerCase (searchQuery st) d) /\
     (selectedCategory st = None \/ selectedCategory st = Some "" \/
      exists s, category e = Some s /\ selectedCategory st = Some s)) /\
  filteredEvents toLowerCase st =
    filter (matchesCategory st) (filter (matchesSearch toLowerCase st) (events st)) /\
  (forall d, getEventsForDay (filteredEvents toLowerCase st) d =
     filter (fun e => matchesSearch toLowerCase st e && matchesCategory st e)
       (getEventsForDate st d)).
Proof.
  split; [|split].
  - intro e. apply filteredEvents_In.
  - unfold filteredEvents.
    induction (events st) as [|a l IH]; [reflexivity|].
    cbn [filter]. destruct (matchesSearch toLowerCase st a); cbn [andb filter].
    + destruct (matchesCategory st a); now rewrite IH.
    + assumption.
  - intro d. unfold getEventsForDay, getEventsForDate, filteredEvents.
    induction (events st) as [|a l IH]; [reflexivity|].
    cbn [filter].
    destruct (matchesSearch toLowerCase st a && matchesCategory st a) eqn:E;
      destruct (isSameDay (date a) d) eqn:E'; cbn [filter];
      rewrite ?E, ?E'; now rewrite IH.
Qed.

(** X17.  Choosing one of the offered categories in the header, with an
    empty search, shows the stored events of that category, and at least
    one; a category called [all] is the exception, for it clears the
    filter. *)
Theorem category_selection st s :
  In (Some s) (categories (events st)) -> s <> "all" -> searchQuery st = "" ->
  let shown := filteredEvents toLowerCase (onCategoryChange s st) in
  shown <> [] /\
  forall e, In e shown <-> In e (events st) /\ category e = Some s.
Proof.
  intros Hin Hall Hq shown.
  apply categories_members in Hin as [s' [Hs' [Hne [e0 [He0 Hc0]]]]].
  injection Hs' as <-.
  assert (Hsel : selectedCategory (onCategoryChange s st) = Some s).
  { unfold onCategoryChange. apply String.eqb_neq in Hall. rewrite Hall.
    reflexivity. }
  assert (Hspec : forall e, In e shown <-> In e (events st) /\ category e = Some s).
  { intro e. unfold shown.
    rewrite (filteredEvents_In (onCategoryChange s st) e), Hsel.
    replace (searchQuery (onCategoryChange s st)) with (searchQuery st)
      by reflexivity.
    replace (events (onCategoryChange s st)) with (events st) by reflexivity.
    split.
    - intros [H [_ [Hc|[Hc|[x [Hx Hc]]]]]]; [discriminate Hc| |].
      + injection Hc as ->. contradiction.
      + injection Hc as ->. split; assumption.
    - intros [H Hc]. split; [assumption|]. split; [left; assumption|].
      right. right. exists s. split; [assumption|reflexivity]. }
  split; [|assumption].
  intro E. assert (H0 : In e0 shown) by (apply Hspec; split; assumption).
  rewrite E in H0. destruct H0.
Qed.

End FilterProperties.

Lemma category_selection_witness :
  let e := sampleEvent "1" nov03_2026 "09:00" None None in
  In e (filteredEvents lowerCaseAscii (onCategoryChange "Work" (sampleState [e]))).
Proof.
  intro e.
  apply (proj2 (category_selection lowerCaseAscii (sampleState [e]) "Work"
                  (or_introl eq_refl) ltac:(discriminate) eq_refl) e).
  split; [left; reflexivity|reflexivity].
Defined.

Example filteredEvents_sample :
  let gym := sampleEvent "1" nov03_2026 "09:00" None None in
  let st := setSearchQuery "STAND" (sampleState [gym]) in
  filteredEvents lowerCaseAscii st = [gym] /\
  filteredEvents lowerCaseAscii (setSearchQuery "gym" st) = [].
Proof. split; reflexivity. Qed.

(** ** The form *)

Lemma length_pos_nil {A} (l : list A) : (0 <? List.length l)%nat = false -> l = [].
Proof. destruct l; [reflexivity|discriminate]. Qed.

Lemma toggle_valid day0 checked formData :
  In day0 weekdays ->
  Forall (fun d => 0 <= d <= 6) (Form.daysOfWeek (Form.recurrence formData)) ->
  Forall (fun d => 0 <= d <= 6)
    (Form.daysOfWeek (Form.recurrence (handleWeekdayToggle day0 checked formData))).
Proof.
  intros Hday Hall. unfold handleWeekdayToggle, with_daysOfWeek.
  cbn [Form.recurrence Form.daysOfWeek]. destruct checked.
  - apply Forall_app. split; [assumption|]. constructor; [|constructor].
    unfold weekdays in Hday. cbn [In] in Hday. lia.
  - rewrite Forall_forall in *. intros d Hd. apply filter_In in Hd as [Hd _].
    now apply Hall.
Qed.

Lemma toggleAll_valid : forall toggles formData,
  Forall (fun t => In (fst t) weekdays) toggles ->
  Forall (fun d => 0 <= d <= 6) (Form.daysOfWeek (Form.recurrence formData)) ->
  Forall (fun d => 0 <= d <= 6)
    (Form.daysOfWeek (Form.recurrence (toggleAll toggles formData))).
Proof.
  induction toggles as [|t toggles IH]; intros formData Ht Hall; [assumption|].
  inversion Ht as [|? ? Hday Ht']; subst. unfold toggleAll. cbn [fold_left].
  apply IH; [assumption|]. now apply toggle_valid.
Qed.

Lemma toggle_includes day0 checked formData :
  JS.includes
    (Form.daysOfWeek (Form.recurrence (handleWeekdayToggle day0 checked formData)))
    day0 = checked.
Proof.
  unfold handleWeekdayToggle, with_daysOfWeek.
  cbn [Form.recurrence Form.daysOfWeek]. destruct checked.
  - apply includes_In. apply in_app_iff. right. left. reflexivity.
  - apply not_true_is_false. intro H. apply includes_In in H.
    apply filter_In in H as [_ H]. rewrite Z.eqb_refl in H. discriminate H.
Qed.

Section SubmitProperties.

Variable trim : string -> string.

(** X18.  The weekday boxes of the form only make weekday sets that the
    expansion can use: after any run of toggles of the seven boxes, from a
    set of weekdays, the box that was toggled last shows what was asked,
    and the expansion of the form's event returns when the event is among
    the dates of the program (which asks, of the interval field, a whole
    number that is not negative). *)
Theorem form_weekdays_terminate toggles formData fuel now i :
  Forall (fun t => In (fst t) weekdays) toggles ->
  Forall (fun d => 0 <= d <= 6) (Form.daysOfWeek (Form.recurrence formData)) ->
  let event := eventDataOf trim (toggleAll toggles formData) i in
  inDateRange now event ->
  (fuelFor event <= fuel)%nat ->
  (exists evs,
     generateRecurringEvents fuel now event = Some evs /\
     forall e, In e (tl evs) -> formatRange (date e)) /\
  (forall day0 checked,
     JS.includes
       (Form.daysOfWeek
          (Form.recurrence (toggleAll (toggles ++ [(day0, checked)]) formData)))
       day0 = checked).
Proof.
  intros Ht Hall event Hin Hfuel.
  assert (Hg : exists evs, generateRecurringEvents fuel now event = Some evs).
  { apply generate_terminates; [|assumption].
    intros r Hr. unfold event, eventDataOf in Hr. cbn [recurrence] in Hr.
    unfold recurrenceOfForm in Hr.
    pose proof (toggleAll_valid toggles formData Ht Hall) as Hv.
    destruct (Form.type (Form.recurrence (toggleAll toggles formData)));
      try discriminate Hr; injection Hr as <-; exact Hv. }
  split.
  - destruct Hg as [evs Hg]. exists evs. split; [assumption|].
    apply (expansion_in_range _ _ _ _ Hin Hg).
  - intros day0 checked. unfold toggleAll. rewrite fold_left_app.
    cbn [fold_left fst snd]. apply toggle_includes.
Qed.

(** X19.  A submission of the form for a new event is answered in one of
    three ways.  With a trimmed title that is empty it is refused and the
    state stays as it was.  With a stored event in conflict with the form's
    event it is refused, the state stays as it was, and the titles named
    are those of the stored events in conflict.  Otherwise, among the dates
    of the program and with a weekday set of weekdays, the event is
    created: its rule's expansion, which starts with the event under the
    identity of the clock, is added behind the stored events, the form is
    closed and the rest of the state stays as it was. *)
Theorem submit_creates fuel stamp now formData st :
  editingEvent st = None ->
  let seed := eventDataOf trim formData (JS.toString stamp) in
  (trim (Form.title formData) = "" ->
   handleSubmit trim fuel stamp now formData st = Some (TitleRequired, st)) /\
  (trim (Form.title formData) <> "" ->
   (exists e, In e (events st) /\ conflictsWith seed None e) ->
   exists titles,
     handleSubmit trim fuel stamp now formData st
       = Some (EventConflict titles, st) /\
     forall t, In t titles <->
       exists e, In e (events st) /\ conflictsWith seed None e /\ title e = t) /\
  (trim (Form.title formData) <> "" ->
   (forall e, In e (events st) -> ~ conflictsWith seed None e) ->
   inDateRange now seed ->
   (forall r, recurrence seed = Some r -> validWeekdays r) ->
   (fuelFor seed <= fuel)%nat ->
   exists evs st',
     generateRecurringEvents fuel now seed = Some evs /\
     handleSubmit trim fuel stamp now formData st = Some (Created, st') /\
     events st' = events st ++ evs /\ nth_error evs 0 = Some seed /\
     isEventFormOpen st' = false /\ editingEvent st' = None /\
     currentDate st' = currentDate st /\ selectedDate st' = selectedDate st /\
     view st' = view st /\ searchQuery st' = searchQuery st /\
     selectedCategory st' = selectedCategory st).
Proof.
  intros Hed seed. split; [|split].
  - intro Ht. unfold handleSubmit. rewrite Ht. reflexivity.
  - intros Ht [e0 [He0 Hc0]]. unfold handleSubmit.
    apply String.eqb_neq in Ht. rewrite Ht, Hed. cbn [option_map].
    rewrite checkEventConflict_filter.
    assert (Hin : forall e,
              In e (filter (conflictTest (eventDataOf trim formData "temp") None)
                      (events st)) <->
              In e (events st) /\ conflictsWith seed None e).
    { intro e. rewrite filter_In, conflictTest_spec. reflexivity. }
    destruct (filter (conflictTest (eventDataOf trim formData "temp") None)
                (events st)) as [|c cs] eqn:Hf.
    { exfalso. apply (proj2 (Hin e0)). split; assumption. }
    cbn [List.length Nat.ltb Nat.leb]. eexists. split; [reflexivity|].
    intro t. rewrite in_map_iff. split.
    + intros [e [He Hine]]. apply Hin in Hine as [H1 H2]. exists e. tauto.
    + intros [e [H1 [H2 H3]]]. exists e. split; [assumption|].
      apply Hin. split; assumption.
  - intros Ht Hno Hrange Hw Hfuel.
    destruct (generate_terminates fuel now seed Hw Hfuel) as [evs Hg].
    exists evs. unfold handleSubmit.
    apply String.eqb_neq in Ht. rewrite Ht, Hed. cbn [option_map].
    rewrite checkEventConflict_filter.
    destruct (filter (conflictTest (eventDataOf trim formData "temp") None)
                (events st)) as [|c cs] eqn:Hf.
    2: { exfalso.
         assert (Hin : In c (filter (conflictTest (eventDataOf trim formData "temp")
                                       None) (events st)))
           by (rewrite Hf; left; reflexivity).
         apply filter_In in Hin as [Hin Hcon]. apply conflictTest_spec in Hcon.
         exact (Hno c Hin Hcon). }
    cbn [List.length Nat.ltb Nat.leb]. unfold addEvent.
    change (set_id (eventDataOf trim formData "") (JS.toString stamp)) with seed.
    rewrite Hg. eexists. split; [reflexivity|]. split; [reflexivity|].
    split; [reflexivity|].
    split; [apply generate_shape in Hg as [ds ->]; reflexivity|].
    repeat split.
Qed.

(** X20.  A submission of the form for an event that is edited is always
    answered.  It is accepted exactly when the trimmed title is not empty
    and no stored event conflicts with the form's event, the edited
    identity being excluded from the query; refused, it leaves the state
    as it was.  Accepted, it rewrites the instances that have the edited
    identity with the fields of the form (title, description, date, times,
    colour, category and rule) and closes the form.  It never adds or
    removes an instance, nor expands the rule again; identities, original
    dates and recurrence marks stay, and so do the instances of other
    identities. *)
Theorem submit_updates fuel stamp now formData st editing :
  editingEvent st = Some editing ->
  let candidate := eventDataOf trim formData (id editing) in
  exists toast st',
    handleSubmit trim fuel stamp now formData st = Some (toast, st') /\
    map id (events st') = map id (events st) /\
    (toast = Updated <->
     trim (Form.title formData) <> "" /\
     forall e, In e (events st) ->
       ~ conflictsWith candidate (Some (id editing)) e) /\
    (toast <> Updated -> st' = st) /\
    (toast = Updated ->
     isEventFormOpen st' = false /\ editingEvent st' = None /\
     (forall e, In e (events st) -> id e <> id editing ->
        ~ conflictsWith candidate None e) /\
     forall k e, nth_error (events st) k = Some e ->
       exists e', nth_error (events st') k = Some e' /\
         id e' = id e /\ originalDate e' = originalDate e /\
         isRecurring e' = isRecurring e /\
         (id e <> id editing -> e' = e) /\
         (id e = id editing ->
          title e' = trim (Form.title formData) /\
          description e' = Some (trim (Form.description formData)) /\
          date e' = Form.date formData /\ time e' = Form.time formData /\
          endTime e' = Some (Form.endTime formData) /\
          color e' = Form.color formData /\
          category e' = Some (Form.category formData) /\
          recurrence e' = recurrenceOfForm formData)).
Proof.
  intros Hed candidate. unfold handleSubmit.
  destruct (String.eqb_spec (trim (Form.title formData)) "") as [Ht|Ht].
  { exists TitleRequired, st. split; [reflexivity|]. split; [reflexivity|].
    split; [split; [discriminate|intros [H _]; contradiction]|].
    split; [reflexivity|discriminate]. }
  rewrite Hed. cbn [option_map]. rewrite checkEventConflict_filter.
  assert (Hin : forall e,
            In e (filter (conflictTest (eventDataOf trim formData "temp")
                            (Some (id editing))) (events st)) <->
            In e (events st) /\ conflictsWith candidate (Some (id editing)) e).
  { intro e. rewrite filter_In, conflictTest_spec. reflexivity. }
  destruct (filter (conflictTest (eventDataOf trim formData "temp")
                      (Some (id editing))) (events st)) as [|c cs] eqn:Hf;
    cbn [List.length Nat.ltb Nat.leb].
  2: { exists (EventConflict (map title (c :: cs))), st.
       split; [reflexivity|]. split; [reflexivity|].
       split; [split; [discriminate|]|split; [reflexivity|discriminate]].
       intros [_ Hno]. exfalso.
       destruct (proj1 (Hin c) (or_introl eq_refl)) as [H1 H2].
       exact (Hno c H1 H2). }
  assert (Hnone : forall e, In e (events st) ->
            ~ conflictsWith candidate (Some (id editing)) e).
  { intros e He Hcon. apply (proj2 (Hin e)). split; assumption. }
  exists Updated, (updateEvent (id editing) (partialOf trim formData) st).
  split; [reflexivity|].
  unfold updateEvent. cbn [events with_events_closed isEventFormOpen editingEvent].
  split; [apply map_id_update; reflexivity|].
  split; [split; [intros _; split; assumption|reflexivity]|].
  split; [intro H; now contradiction H|]. intros _.
  split; [reflexivity|]. split; [reflexivity|]. split.
  - intros e He Hid Hcon. apply (Hnone e He).
    destruct Hcon as [_ Hcon]. split; [|exact Hcon].
    intros x Hx _. injection Hx as <-. assumption.
  - intros k e Hk.
    apply (map_nth_error
      (fun event => if (id event =? id editing)%string
                    then merge event (partialOf trim formData) else event)) in Hk.
    eexists. split; [exact Hk|].
    destruct (String.eqb_spec (id e) (id editing)) as [Hid|Hid].
    + split; [reflexivity|]. split; [reflexivity|]. split; [reflexivity|].
      split; [intro Hne; contradiction|]. intros _.
      split; [reflexivity|]. split; [reflexivity|]. split; [reflexivity|].
      split; [reflexivity|]. split; [reflexivity|]. split; [reflexivity|].
      split; reflexivity.
    + split; [reflexivity|]. split; [reflexivity|]. split; [reflexivity|].
      split; [intros _; reflexivity|intro Heq; contradiction].
Qed.

(** X21.  The same form submitted a second time, after it created an
    event, is refused with a conflict that names the event, provided the
    start time of the form is not after its end time. *)
Theorem resubmit_is_refused fuel stamp now fuel' stamp' now' formData st st' :
  handleSubmit trim fuel stamp now formData st = Some (Created, st') ->
  lex_le (Form.time formData)
    (if string_dec (Form.endTime formData) "" then Form.time formData
     else Form.endTime formData) ->
  exists titles,
    handleSubmit trim fuel' stamp' now' formData st' =
      Some (EventConflict titles, st') /\
    In (trim (Form.title formData)) titles.
Proof.
  intros H Hle. unfold handleSubmit in H.
  destruct (String.eqb_spec (trim (Form.title formData)) "") as [Ht|Ht];
    [discriminate H|].
  destruct (0 <? List.length
              (checkEventConflict st (eventDataOf trim formData "temp")
                 (option_map id (editingEvent st))))%nat; [discriminate H|].
  destruct (editingEvent st) as [editing|]; [discriminate H|].
  unfold addEvent in H.
  set (seed := set_id (eventDataOf trim formData "") (JS.toString stamp)) in H.
  destruct (generateRecurringEvents fuel now seed) as [evs|] eqn:Hg;
    [|discriminate H].
  injection H as <-.
  pose proof (generate_shape _ _ _ _ Hg) as [ds ->].
  unfold handleSubmit.
  destruct (String.eqb_spec (trim (Form.title formData)) "") as [Ht'|_];
    [contradiction|].
  cbn [editingEvent with_events_closed option_map].
  rewrite checkEventConflict_filter. cbn [events with_events_closed].
  assert (Hin : In seed
            (filter (conflictTest (eventDataOf trim formData "temp") None)
               (events st ++ seed :: map (recurringEvent seed) ds))).
  { apply filter_In. split; [apply in_app_iff; right; left; reflexivity|].
    apply conflictTest_spec. split; [intros x Hx; discriminate Hx|].
    split; [reflexivity|]. split; exact Hle. }
  destruct (filter (conflictTest (eventDataOf trim formData "temp") None)
              (events st ++ seed :: map (recurringEvent seed) ds))
    as [|c cs] eqn:Hf; [destruct Hin|].
  cbn [List.length Nat.ltb Nat.leb]. eexists. split; [reflexivity|].
  apply (in_map title) in Hin. exact Hin.
Qed.

(** X22.  A double click on a day of the grid opens the form on that
    date; with a title typed and the form submitted, the submission is
    answered, and when it creates an event the store gains one instance,
    dated that day, which the day's query lists, and the form is closed. *)
Theorem double_click_creates fuel stamp now d t prev st :
  let st1 := handleDateDoubleClick d st in
  let formData := with_title (formEffect st1 prev) t in
  let seed := eventDataOf trim formData (JS.toString stamp) in
  isEventFormOpen st1 = true /\ Form.date formData = d /\
  exists toast st2,
    handleSubmit trim fuel stamp now formData st1 = Some (toast, st2) /\
    (toast = Created <->
     trim t <> "" /\ forall e, In e (events st) -> ~ conflictsWith seed None e) /\
    (toast = Created ->
     events st2 = events st ++ [seed] /\ date seed = d /\
     In seed (getEventsForDate st2 d) /\
     isEventFormOpen st2 = false /\ selectedDate st2 = Some d).
Proof.
  intros st1 formData seed. split; [reflexivity|]. split; [reflexivity|].
  unfold handleSubmit.
  change (Form.title formData) with t.
  destruct (String.eqb_spec (trim t) "") as [Ht|Ht].
  { exists TitleRequired, st1. split; [reflexivity|]. split.
    - split; [discriminate|]. intros [H _]. contradiction.
    - discriminate. }
  change (editingEvent st1) with (@None CalendarEvent). cbn [option_map].
  rewrite checkEventConflict_filter. change (events st1) with (events st).
  destruct (filter (conflictTest (eventDataOf trim formData "temp") None)
              (events st)) as [|c cs] eqn:Hf.
  - cbn [List.length Nat.ltb Nat.leb].
    exists Created, (with_events_closed st1 (events st ++ [seed])).
    split; [reflexivity|]. split.
    + split; [|reflexivity]. intros _. split; [assumption|].
      intros e He Hcon.
      assert (Hin : In e (filter (conflictTest (eventDataOf trim formData "temp")
                                    None) (events st))).
      { apply filter_In. split; [assumption|]. apply conflictTest_spec.
        exact Hcon. }
      rewrite Hf in Hin. destruct Hin.
    + intros _. split; [reflexivity|]. split; [reflexivity|].
      split; [|split; reflexivity].
      unfold getEventsForDate. cbn [events with_events_closed].
      apply filter_In. split; [apply in_app_iff; right; left; reflexivity|].
      unfold isSameDay. apply Z.eqb_refl.
  - cbn [List.length Nat.ltb Nat.leb].
    exists (EventConflict (map title (c :: cs))), st1.
    split; [reflexivity|]. split; [|discriminate].
    split; [discriminate|]. intros [_ Hno]. exfalso.
    assert (Hin : In c (filter (conflictTest (eventDataOf trim formData "temp")
                                  None) (events st))).
    { rewrite Hf. left. reflexivity. }
    apply filter_In in Hin as [Hin Hcon]. apply conflictTest_spec in Hcon.
    exact (Hno c Hin Hcon).
Qed.

End SubmitProperties.

Lemma form_weekdays_terminate_witness :
  let formData :=
    sampleForm "Standup" nov03_2026
      {| Form.type := weekly; Form.interval := 1; Form.daysOfWeek := [];
         Form.endDate := None; Form.occurrences := Some 3 |} in
  exists evs,
    generateRecurringEvents 20 nov03_2026
      (eventDataOf trimSpaces
         (toggleAll [(1, true); (3, true); (5, true); (3, false)] formData) "1")
    = Some evs.
Proof.
  intro formData.
  destruct (form_weekdays_terminate trimSpaces
              [(1, true); (3, true); (5, true); (3, false)]
              formData 20 nov03_2026 "1") as [[evs [Hg _]] _].
  - repeat constructor; cbn; tauto.
  - constructor.
  - in_range.
  - vm_compute. lia.
  - exists evs. exact Hg.
Defined.

Lemma submit_creates_witness :
  let formData :=
    sampleForm "  Standup " nov03_2026
      {| Form.type := daily; Form.interval := 1; Form.daysOfWeek := [];
         Form.endDate := None; Form.occurrences := Some 3 |} in
  let st := openEventForm None (sampleState []) in
  let seed := eventDataOf trimSpaces formData "1793664000000" in
  exists evs st',
    generateRecurringEvents 20 nov03_2026 seed = Some evs /\
    handleSubmit trimSpaces 20 1793664000000 nov03_2026 formData st =
      Some (Created, st') /\
    events st' = events st ++ evs /\ nth_error evs 0 = Some seed.
Proof.
  intros formData st seed.
  destruct (proj2 (proj2 (submit_creates trimSpaces 20 1793664000000 nov03_2026
                            formData st eq_refl)))
    as [evs [st' [Hg [Hs [He [H0 _]]]]]].
  - vm_compute. discriminate.
  - intros e [].
  - in_range.
  - intros r Hr. vm_compute in Hr. injection Hr as <-. constructor.
  - vm_compute. lia.
  - exists evs, st'. repeat split; assumption.
Defined.

Lemma submit_updates_witness :
  let e := sampleEvent "1" nov03_2026 "09:00" (Some "10:00") None in
  let st := openEventForm (Some e) (sampleState [e]) in
  let formData := with_title (formEffect st (resetForm 0)) "Review" in
  exists toast st',
    handleSubmit trimSpaces 20 1793664000000 nov03_2026 formData st =
      Some (toast, st') /\
    map id (events st') = map id (events st).
Proof.
  intros e st formData.
  destruct (submit_updates trimSpaces 20 1793664000000 nov03_2026 formData st
              e eq_refl) as [toast [st' [H [Hid _]]]].
  exists toast, st'. split; assumption.
Defined.

Lemma resubmit_is_refused_witness :
  let formData := sampleForm "Standup" nov03_2026 noRule in
  let st := openEventForm None (sampleState []) in
  let seed := eventDataOf trimSpaces formData "1793664000000" in
  exists titles,
    handleSubmit trimSpaces 20 1793664000001 nov03_2026 formData
      (with_events_closed st [seed]) =
      Some (EventConflict titles, with_events_closed st [seed]) /\
    In "Standup" titles.
Proof.
  intros formData st seed.
  apply (resubmit_is_refused trimSpaces 20 1793664000000 nov03_2026
           20 1793664000001 nov03_2026 formData st).
  - vm_compute. reflexivity.
  - apply leb_lex_le. reflexivity.
Defined.

(** ** The date field of the form *)

(** For the years 0001 to 9999 the text of a date is read back as the
    midnight of that date, in UTC. *)
Lemma parseDateOnly_format d :
  formatRange d ->
  parseDateOnly (format_yyyy_MM_dd d) = Some (startOfDay d).
Proof.
  intro Hr. apply formatRange_day in Hr.
  pose proof (civil_year_range _ Hr) as Hy.
  pose proof (civil_spec (dayOf d)) as Hc.
  unfold format_yyyy_MM_dd, parseDateOnly, startOfDay.
  destruct (civil_from_days (dayOf d)) as [[y m] dd]. cbn [fst] in Hy.
  destruct Hc as [Hdfc [Hm [Hd [Hd31 _]]]].
  rewrite take_digits_roundtrip by (cbn; lia). cbv beta iota.
  rewrite expect_String. rewrite take_digits_roundtrip by (cbn; lia).
  cbv beta iota.
  rewrite expect_String. rewrite take_digits_roundtrip by (cbn; lia).
  cbv beta iota.
  change ("" =? "")%string with true. cbn [andb].
  destruct (Z.leb_spec 1 m); [|lia]. destruct (Z.leb_spec m 12); [|lia].
  destruct (Z.leb_spec 1 dd); [|lia]. destruct (Z.leb_spec dd 31); [|lia].
  cbn [andb]. rewrite Hdfc. reflexivity.
Qed.

Lemma format_dayOf a b :
  dayOf a = dayOf b -> format_yyyy_MM_dd a = format_yyyy_MM_dd b.
Proof. intro H. unfold format_yyyy_MM_dd. now rewrite H. Qed.

(** X23.  Choosing a day in the date field gives the form the UTC
    midnight of that day and changes no other field.  In a zone at or east
    of UTC the field then shows the chosen day; in a zone west of UTC it
    shows the day before, so that entering again the day that the field
    shows moves the date a day back.  This is for a zone of fixed offset,
    less than a day, and days of the years 0001 to 9999. *)
Theorem date_input_roundtrip tz formData x :
  - msPerDay < tz < msPerDay ->
  formatRange x ->
  exists formData',
    dateFieldChange (format_yyyy_MM_dd x) formData = Some formData' /\
    formData' = with_date formData (startOfDay x) /\
    (0 <= tz -> dateFieldValue tz formData' = format_yyyy_MM_dd x) /\
    (tz < 0 ->
     dateFieldValue tz formData' = format_yyyy_MM_dd (addDays x (-1))) /\
    (x = Form.date formData + tz ->
     format_yyyy_MM_dd x = dateFieldValue tz formData /\
     (tz < 0 ->
      dateFieldValue tz formData' =
      dateFieldValue tz
        (with_date formData (addDays (Form.date formData) (-1))))).
Proof.
  intros Htz Hr. unfold dateFieldChange.
  rewrite parseDateOnly_format by assumption.
  eexists. split; [reflexivity|]. split; [reflexivity|].
  unfold dateFieldValue, formatLocal. cbn [with_date Form.date].
  unfold startOfDay.
  assert (Hwest : tz < 0 -> dayOf (dayOf x * msPerDay + tz) = dayOf x - 1).
  { intro H.
    replace (dayOf x * msPerDay + tz)
      with ((dayOf x - 1) * msPerDay + (msPerDay + tz)) by lia.
    apply dayOf_compose. lia. }
  split; [|split].
  - intro H. apply format_dayOf. apply dayOf_compose. lia.
  - intro H. apply format_dayOf. rewrite dayOf_addDays. now apply Hwest.
  - intros ->. split; [reflexivity|]. intro H. apply format_dayOf.
    rewrite (Hwest H).
    replace (addDays (Form.date formData) (-1) + tz)
      with (addDays (Form.date formData + tz) (-1)) by (unfold addDays; lia).
    now rewrite dayOf_addDays.
Qed.

Lemma date_input_roundtrip_witness :
  let formData := sampleForm "Standup" (nov03_2026 + 15 * 3600000) noRule in
  exists formData',
    dateFieldChange (dateFieldValue (-18000000) formData) formData
      = Some formData' /\
    dateFieldValue (-18000000) formData = "2026-11-03" /\
    dateFieldValue (-18000000) formData' = "2026-11-02".
Proof.
  intro formData.
  destruct (date_input_roundtrip (-18000000) formData
              (Form.date formData + -18000000)) as [f' [Hc [Hf _]]].
  - vm_compute. split; reflexivity.
  - vm_compute. split; [discriminate|reflexivity].
  - exists f'. split; [exact Hc|]. rewrite Hf. split; reflexivity.
Defined.

(** ** Editing without a change *)

(** X24.  An event opened in the form and submitted as it is keeps every
    field, provided it has what the form writes: a title and a present
    description that trimming leaves alone, a present end time that is
    not empty, a present category, and no rule or a rule, of a type other
    than [none], with an interval other than zero and a weekday set. *)
Theorem edit_unchanged trim e :
  trim (title e) = title e ->
  (exists s, description e = Some s /\ trim s = s) ->
  (exists s, endTime e = Some s /\ s <> "") ->
  (exists s, category e = Some s) ->
  (forall r, recurrence e = Some r ->
     type r <> none /\ (exists i, interval r = Some i /\ i <> 0) /\
     exists l, daysOfWeek r = Some l) ->
  merge e (partialOf trim (formOfEvent e)) = e.
Proof.
  intros Ht [s [Hs Hs']] [t [Het Hne]] [c Hc] Hr.
  destruct e as [i ti de da tm et co ca re od ir].
  cbn [title description endTime category recurrence] in *. subst.
  unfold merge, partialOf, formOfEvent.
  cbn [Partial.id Partial.title Partial.description Partial.date Partial.time
       Partial.endTime Partial.color Partial.category Partial.recurrence
       Partial.originalDate Partial.isRecurring JS.default
       Form.title Form.description Form.date Form.time Form.endTime Form.color
       Form.category id title description date time endTime color category
       recurrence originalDate isRecurring].
  assert (H1 : JS.or_string (Some s) "" = s).
  { cbn [JS.or_string]. destruct (String.eqb_spec s ""); congruence. }
  assert (H2 : JS.or_string (Some t) "10:00" = t).
  { cbn [JS.or_string]. apply String.eqb_neq in Hne. now rewrite Hne. }
  assert (H3 : JS.or_string (Some c) "" = c).
  { cbn [JS.or_string]. destruct (String.eqb_spec c ""); congruence. }
  rewrite H1, H2, H3, Ht, Hs'. f_equal.
  destruct re as [r|]; [|reflexivity].
  destruct (Hr r eq_refl) as [Hty [[iv [Hi Hi0]] [l Hl]]].
  unfold recurrenceOfForm. cbn [Form.recurrence Form.type Form.interval
    Form.daysOfWeek Form.endDate Form.occurrences].
  destruct r as [ty i' dw ed oc]. cbn [type interval daysOfWeek] in *. subst.
  cbn [JS.or_number JS.default]. apply Z.eqb_neq in Hi0. rewrite Hi0.
  destruct ty; try reflexivity. contradiction.
Qed.

Lemma edit_unchanged_witness :
  let e := eventDataOf trimSpaces
             (sampleForm "Standup" nov03_2026
                {| Form.type := weekly; Form.interval := 2;
                   Form.daysOfWeek := [1; 5]; Form.endDate := None;
                   Form.occurrences := Some 3 |}) "1" in
  merge e (partialOf trimSpaces (formOfEvent e)) = e.
Proof.
  intro e. apply (edit_unchanged trimSpaces e).
  - reflexivity.
  - exists "". split; reflexivity.
  - exists "10:00". split; [reflexivity|discriminate].
  - exists "Work". reflexivity.
  - intros r Hr. vm_compute in Hr. injection Hr as <-.
    split; [discriminate|]. split.
    + exists 2. split; [reflexivity|discriminate].
    + exists [1; 5]. reflexivity.
Defined.

(** What the form changes in an event that lacks an end time, a
    description or a category: it gives it the end time 10:00 and the
    empty description and category. *)
Example edit_fills_defaults :
  let e := sampleEvent "1" nov03_2026 "15:00" None None in
  let e' := merge e (partialOf trimSpaces (formOfEvent e)) in
  endTime e' = Some "10:00" /\ description e' = Some "" /\
  category e' = Some "Work".
Proof. repeat split. Qed.

(** ** The keys of the grid *)

Lemma toISOString_inj a b :
  validTime a -> validTime b -> toISOString a = toISOString b -> a = b.
Proof.
  intros Ha Hb H. apply parseDate_toISOString in Ha, Hb.
  rewrite H in Ha. congruence.
Qed.

Lemma daysFrom_NoDup : forall n d, NoDup (daysFrom n d).
Proof.
  induction n as [|n IH]; intro d; cbn [daysFrom]; constructor; [|apply IH].
  intro Hin. apply In_nth_error in Hin as [k Hk].
  apply daysFrom_nth in Hk as [_ Hk]. unfold addDays, msPerDay in Hk. lia.
Qed.

(** X25.  The cells of the grid have distinct keys: the days of the grid
    are distinct, and so are their ISO texts, for a current date that is
    more than 37 days inside the range of dates. *)
Theorem grid_keys_distinct current :
  validTime (addDays current (-37)) -> validTime (addDays current 37) ->
  NoDup (gridDays current) /\ NoDup (map toISOString (gridDays current)).
Proof.
  intros Hlo Hhi.
  pose proof (gridDays_eq current) as Hg. cbv zeta in Hg.
  pose proof (monthLength_range (monthIndex current)) as Hlen.
  rewrite monthLength_monthStart in Hlen.
  pose proof (dayOfMonth_spec current) as [Hday Hdd].
  rewrite monthLength_monthStart in Hdd.
  pose proof (dayOf_timeOfDay current) as [Hc Htod].
  set (a := monthStart (monthIndex current)) in *.
  set (b := monthStart (monthIndex current + 1) - 1) in *.
  set (n := b + (6 - (b + 4) mod 7) - (a - (a + 4) mod 7) + 1) in *.
  set (s := a - (a + 4) mod 7) in *.
  assert (Hs : a - 6 <= s) by (unfold s; clearbody a; clear; by_division).
  assert (Hn : s + n <= b + 7) by (unfold n, s; clearbody a b; clear; by_division).
  assert (Hnd : NoDup (gridDays current)) by (rewrite Hg; apply daysFrom_NoDup).
  split; [assumption|].
  apply NoDup_map_NoDup_ForallPairs; [|assumption].
  assert (Hv : forall x, In x (gridDays current) -> validTime x).
  { intros x Hx. apply In_nth_error in Hx as [k Hk]. rewrite Hg in Hk.
    apply daysFrom_nth in Hk as [Hk ->].
    unfold validTime, addDays, msPerDay, b in *. lia. }
  unfold ForallPairs. intros x y Hx Hy Heq.
  exact (toISOString_inj x y (Hv x Hx) (Hv y Hy) Heq).
Qed.

Lemma grid_keys_distinct_witness :
  NoDup (map toISOString (gridDays nov03_2026)).
Proof.
  assert (Hlo : validTime (addDays nov03_2026 (-37)))
    by (vm_compute; split; discriminate).
  assert (Hhi : validTime (addDays nov03_2026 37))
    by (vm_compute; split; discriminate).
  exact (proj2 (grid_keys_distinct nov03_2026 Hlo Hhi)).
Defined.
